(** * RustChain stress-test harness: a shallow embedding

    The development follows [scripts/stress_test/miner_simulator.py] (the
    synthetic identity and payload generator) and
    [scripts/stress_test/harness.py] (the per-session protocol state machine,
    the retry loop, scenario set-up and the result aggregator); the alert
    manager of [node/rustchain_dashboard_v2.py] is embedded beside them.

    Conventions of the embedding:
    - Python values that travel as JSON are terms of [pyval]; a [dict] is an
      association list in insertion order;
    - Python floats are exact rationals ([Qc]); rounding is not modelled;
    - exceptions are values of [exn]; a computation that may raise returns
      [pyres];
    - randomness, the wall clock and the remote node are explicit state. *)

From Stdlib Require Import ZArith QArith Qcanon Qround Lqa Lia String Ascii List.
From stdpp Require Import gmap strings list sorting pretty.
Import ListNotations.

Open Scope Z_scope.
Open Scope string_scope.

(** ** Python values *)

#[local] Set Warnings "-register-all".

Inductive pyval : Type :=
| PNone
| PBool (b : bool)
| PInt (z : Z)
| PFloat (q : Qc)
| PStr (s : string)
| PList (l : list pyval)
| PDict (d : list (string * pyval)).

Abbreviation pydict := (list (string * pyval)).

(** Truth value of an object, as [if x:] and [not x] use it. *)
Definition truthy (v : pyval) : bool :=
  match v with
  | PNone => false
  | PBool b => b
  | PInt z => negb (z =? 0)%Z
  | PFloat q => if decide (q = 0%Qc) then false else true
  | PStr s => negb (String.eqb s "")
  | PList l => match l with [] => false | _ => true end
  | PDict d => match d with [] => false | _ => true end
  end.

Definition py_type_name (v : pyval) : string :=
  match v with
  | PNone => "NoneType"
  | PBool _ => "bool"
  | PInt _ => "int"
  | PFloat _ => "float"
  | PStr _ => "str"
  | PList _ => "list"
  | PDict _ => "dict"
  end.

(** [d.get(k)] on the entries of a dict. *)
Fixpoint dict_get (k : string) (d : pydict) : option pyval :=
  match d with
  | [] => None
  | (k', v) :: d' => if String.eqb k k' then Some v else dict_get k d'
  end.

(** [d[k] = v]: overwrite in place, or append a new entry. *)
Fixpoint dict_set (k : string) (v : pyval) (d : pydict) : pydict :=
  match d with
  | [] => [(k, v)]
  | (k', v') :: d' =>
      if String.eqb k k' then (k', v) :: d' else (k', v') :: dict_set k v d'
  end.

(** [del d[k]]; [None] stands for the [KeyError] of an absent key. *)
Fixpoint dict_del (k : string) (d : pydict) : option pydict :=
  match d with
  | [] => None
  | (k', v') :: d' =>
      if String.eqb k k' then Some d'
      else match dict_del k d' with
           | Some r => Some ((k', v') :: r)
           | None => None
           end
  end.

Definition dict_has (k : string) (d : pydict) : bool :=
  match dict_get k d with Some _ => true | None => false end.

(** ** Exceptions *)

Record exn : Type := Exn { exn_kind : string; exn_msg : string }.

(** [str(e)] *)
Definition exn_str (e : exn) : string := exn_msg e.

Inductive pyres (A : Type) : Type :=
| Ok (a : A)
| Raise (e : exn).
Arguments Ok {A} a.
Arguments Raise {A} e.

Definition squote : string := String (ascii_of_nat 39) "".
Definition dquote : string := String (ascii_of_nat 34) "".

Definition AttributeError (v : pyval) (attr : string) : exn :=
  Exn "AttributeError"
      (squote ++ py_type_name v ++ squote ++ " object has no attribute "
              ++ squote ++ attr ++ squote).

Definition NameError (name : string) : exn :=
  Exn "NameError" ("name " ++ squote ++ name ++ squote ++ " is not defined").

Definition KeyError (k : string) : exn :=
  Exn "KeyError" (squote ++ k ++ squote).

Definition TypeError (msg : string) : exn := Exn "TypeError" msg.
Definition IndexError (msg : string) : exn := Exn "IndexError" msg.
Definition ZeroDivisionError (msg : string) : exn := Exn "ZeroDivisionError" msg.

(** [v.get(k)] for an arbitrary object: only a dict has the method. *)
Definition py_get (v : pyval) (k : string) : pyres pyval :=
  match v with
  | PDict d => Ok (match dict_get k d with Some x => x | None => PNone end)
  | _ => Raise (AttributeError v "get")
  end.

(** ** The random source

    [random.random()] yields a 53-bit fraction in [0, 1); [random.choice] and
    [random.randint] draw an integer below a bound; [random.gauss] scales a
    standard normal deviate, which the source supplies. *)

Record rng : Type := {
  rng_bits : nat -> Z;
  rng_normals : nat -> Qc;
  rng_nbits : nat;
  rng_nnormals : nat
}.

Definition rng_step_bits (g : rng) : rng :=
  {| rng_bits := rng_bits g; rng_normals := rng_normals g;
     rng_nbits := S (rng_nbits g); rng_nnormals := rng_nnormals g |}.

Definition rng_step_normals (g : rng) : rng :=
  {| rng_bits := rng_bits g; rng_normals := rng_normals g;
     rng_nbits := rng_nbits g; rng_nnormals := S (rng_nnormals g) |}.

Definition Zc (z : Z) : Qc := Q2Qc (inject_Z z).

Definition random_random (g : rng) : Qc * rng :=
  (Q2Qc (Qmake (rng_bits g (rng_nbits g) mod 2 ^ 53) (2 ^ 53)), rng_step_bits g).

Definition random_uniform (a b : Qc) (g : rng) : Qc * rng :=
  let (u, g') := random_random g in ((a + (b - a) * u)%Qc, g').

Definition random_gauss (mu sigma : Qc) (g : rng) : Qc * rng :=
  ((mu + rng_normals g (rng_nnormals g) * sigma)%Qc, rng_step_normals g).

Definition randbelow (n : nat) (g : rng) : nat * rng :=
  (Z.to_nat (rng_bits g (rng_nbits g) mod Z.of_nat n), rng_step_bits g).

(** [random.choice(l)] on a non-empty list whose head is [d]. *)
Definition random_choice {A : Type} (d : A) (l : list A) (g : rng) : A * rng :=
  let (i, g') := randbelow (length l) g in (nth i l d, g').

Definition random_randint (a b : Z) (g : rng) : Z * rng :=
  let (i, g') := randbelow (Z.to_nat (b - a + 1)) g in (a + Z.of_nat i, g').

(** [[f() for _ in range(n)]] for a draw [f]. *)
Fixpoint draw_list {A : Type} (f : rng -> A * rng) (n : nat) (g : rng)
  : list A * rng :=
  match n with
  | O => ([], g)
  | S n' =>
      let (x, g1) := f g in
      let (xs, g2) := draw_list f n' g1 in
      (x :: xs, g2)
  end.

(** ** miner_simulator.py *)

Record profile : Type := {
  prof_model : string;
  prof_family : string;
  prof_multiplier : Qc
}.

Definition ARCH_PROFILES : list (string * profile) :=
  [ ("g4", {| prof_model := "PowerPC G4 (7447A)"; prof_family := "PowerPC";
              prof_multiplier := Q2Qc (5 # 2) |});
    ("g5", {| prof_model := "PowerPC G5 (970MP)"; prof_family := "PowerPC";
              prof_multiplier := Zc 2 |});
    ("apple_silicon", {| prof_model := "Apple M2 Max"; prof_family := "ARM64";
                         prof_multiplier := Q2Qc (6 # 5) |});
    ("modern_x86", {| prof_model := "AMD Ryzen 9 7950X"; prof_family := "x86_64";
                      prof_multiplier := Zc 1 |}) ].

Fixpoint assoc {A : Type} (k : string) (l : list (string * A)) : option A :=
  match l with
  | [] => None
  | (k', v) :: l' => if String.eqb k k' then Some v else assoc k l'
  end.

(** The attributes [MinerSimulator.__init__] sets. *)
Record MinerSimulator : Type := {
  arch_key : string;
  sim_profile : profile;
  miner_id : string;
  wallet : string;
  serial : string;
  hostname : string;
  mac_address : string
}.

(** [self.profile = self.ARCH_PROFILES[self.arch_key]] *)
Definition simulator_ok (sim : MinerSimulator) : Prop :=
  assoc (arch_key sim) ARCH_PROFILES = Some (sim_profile sim).

Definition set_miner_id (sim : MinerSimulator) (id : string) : MinerSimulator :=
  {| arch_key := arch_key sim; sim_profile := sim_profile sim; miner_id := id;
     wallet := wallet sim; serial := serial sim; hostname := hostname sim;
     mac_address := mac_address sim |}.

(** [sum(samples)]: a left fold from the integer 0. *)
Definition py_sum (l : list Qc) : Qc := fold_left Qcplus l 0%Qc.

(** [min(l)] and [max(l)] keep the first extremal element. *)
Definition py_min (l : list Qc) : Qc :=
  match l with
  | [] => 0%Qc
  | x :: xs => fold_left (fun cur y => if decide (y < cur)%Qc then y else cur) xs x
  end.

Definition py_max (l : list Qc) : Qc :=
  match l with
  | [] => 0%Qc
  | x :: xs => fold_left (fun cur y => if decide (cur < y)%Qc then y else cur) xs x
  end.

(** [sub in s] for strings. *)
Fixpoint str_contains (sub s : string) : bool :=
  if String.prefix sub s then true
  else match s with
       | EmptyString => false
       | String _ s' => str_contains sub s'
       end.

Section Simulator.

(** [hashlib.sha256(s.encode()).hexdigest()] and
    [json.dumps(v, sort_keys=True)] are library functions. *)
Variable sha256_hex : string -> string.
Variable json_dumps_sorted : pyval -> string.

Definition entropy_of (samples : list Qc) (variance : Qc) : pydict :=
  [ ("mean_ns", PFloat (py_sum samples / Zc (Z.of_nat (length samples)))%Qc);
    ("variance_ns", PFloat variance);
    ("min_ns", PFloat (py_min samples));
    ("max_ns", PFloat (py_max samples));
    ("sample_count", PInt 48);
    ("samples_preview", PList (map PFloat samples)) ].

Definition generate_entropy_report (sim : MinerSimulator) (nonce : pyval)
           (g : rng) : pyres pyval * rng :=
  let (base_time, g1) := random_uniform (Zc 20000) (Zc 30000) g in
  let (jitter, g2) := draw_list (random_gauss 0%Qc (Zc 500)) 12 g1 in
  let samples := map (fun j => (base_time + j)%Qc) jitter in
  let (variance, g3) := random_uniform (Zc 100000) (Zc 500000) g2 in
  let entropy := entropy_of samples variance in
  match nonce with
  | PStr n =>
      let commitment :=
        sha256_hex (n ++ wallet sim ++ json_dumps_sorted (PDict entropy)) in
      (Ok (PDict [ ("nonce", nonce);
                   ("commitment", PStr commitment);
                   ("derived", PDict entropy);
                   ("entropy_score",
                    match dict_get "variance_ns" entropy with
                    | Some v => v
                    | None => PNone
                    end) ]), g3)
  | PList _ =>
      (Raise (TypeError ("can only concatenate list (not " ++ dquote ++ "str"
                           ++ dquote ++ ") to list")), g3)
  | _ =>
      (Raise (TypeError ("unsupported operand type(s) for +: " ++ squote
                           ++ py_type_name nonce ++ squote ++ " and "
                           ++ squote ++ "str" ++ squote)), g3)
  end.

(** The dict literal of [build_attestation_payload], given the report and
    the three values it draws. *)
Definition attestation_fields (sim : MinerSimulator) (nonce report : pyval)
           (cores memory_gb p95_ns : Z) : pydict :=
  [ ("miner", PStr (wallet sim));
    ("miner_id", PStr (miner_id sim));
    ("nonce", nonce);
    ("report", report);
    ("device", PDict
      [ ("family", PStr (prof_family (sim_profile sim)));
        ("arch", PStr (arch_key sim));
        ("model", PStr (prof_model (sim_profile sim)));
        ("cpu", PStr (prof_model (sim_profile sim)));
        ("cores", PInt cores);
        ("memory_gb", PInt memory_gb);
        ("serial", PStr (serial sim)) ]);
    ("signals", PDict
      [ ("macs", PList [PStr (mac_address sim)]);
        ("hostname", PStr (hostname sim)) ]);
    ("fingerprint", PDict
      [ ("all_passed", PBool true);
        ("checks", PDict
          [ ("anti_emulation", PDict
              [ ("passed", PBool true);
                ("data", PDict [("vm_indicators", PList [])]) ]);
            ("cpu_features", PDict
              [ ("passed", PBool true);
                ("data", PDict
                  [("flags", PList
                     [PStr (if str_contains "PowerPC"
                                 (prof_family (sim_profile sim))
                            then "altivec" else "avx2")])]) ]);
            ("io_latency", PDict
              [ ("passed", PBool true);
                ("data", PDict [("p95_ns", PInt p95_ns)]) ]);
            ("serial_binding", PDict
              [ ("passed", PBool true);
                ("data", PDict [("serial", PStr (serial sim))]) ]) ]) ]) ].

Definition build_attestation_payload (sim : MinerSimulator) (nonce : pyval)
           (g : rng) : pyres pyval * rng :=
  match generate_entropy_report sim nonce g with
  | (Raise e, g1) => (Raise e, g1)
  | (Ok report, g1) =>
      let (cores, g2) := random_choice 1 [1; 2; 4; 8; 16] g1 in
      let (memory_gb, g3) := random_choice 2 [2; 4; 8; 16; 32; 64] g2 in
      let (p95_ns, g4) := random_randint 100 500 g3 in
      (Ok (PDict (attestation_fields sim nonce report cores memory_gb p95_ns)),
       g4)
  end.

Definition build_enroll_payload (sim : MinerSimulator) : pyval :=
  PDict [ ("miner_pubkey", PStr (wallet sim));
          ("miner_id", PStr (miner_id sim));
          ("device", PDict [ ("family", PStr (prof_family (sim_profile sim)));
                             ("arch", PStr (arch_key sim)) ]) ].

(** [d[k1][k2] = v] *)
Definition dict_set_in (k1 k2 : string) (v : pyval) (d : pydict)
  : pyres pydict :=
  match dict_get k1 d with
  | None => Raise (KeyError k1)
  | Some (PDict inner) => Ok (dict_set k1 (PDict (dict_set k2 v inner)) d)
  | Some other =>
      Raise (TypeError (squote ++ py_type_name other ++ squote
                          ++ " object does not support item assignment"))
  end.

Definition corruptions : list string :=
  ["missing_nonce"; "bad_commitment"; "wrong_arch"; "corrupt_json"].

(** The literal returned by the [corrupt_json] branch. *)
Definition corrupt_json_text : string :=
  "{" ++ dquote ++ "invalid" ++ dquote ++ ": json...".

(** The body of [build_malformed_payload] after the corruption is drawn. *)
Definition corrupt (choice : string) (payload : pydict) : pyres pyval :=
  if String.eqb choice "missing_nonce" then
    match dict_del "nonce" payload with
    | Some p => Ok (PDict p)
    | None => Raise (KeyError "nonce")
    end
  else if String.eqb choice "bad_commitment" then
    match dict_set_in "report" "commitment" (PStr "invalid_hash_value") payload with
    | Ok p => Ok (PDict p)
    | Raise e => Raise e
    end
  else if String.eqb choice "wrong_arch" then
    match dict_set_in "device" "arch" (PStr "intel-i9-but-really-g4") payload with
    | Ok p => Ok (PDict p)
    | Raise e => Raise e
    end
  else if String.eqb choice "corrupt_json" then
    Ok (PStr corrupt_json_text)
  else Ok (PDict payload).

Definition build_malformed_payload (sim : MinerSimulator) (nonce : pyval)
           (g : rng) : pyres pyval * rng :=
  match build_attestation_payload sim nonce g with
  | (Raise e, g1) => (Raise e, g1)
  | (Ok (PDict payload), g1) =>
      let (choice, g2) := random_choice "missing_nonce" corruptions g1 in
      (corrupt choice payload, g2)
  | (Ok other, g1) => (Ok other, g1)
  end.

End Simulator.

(** ** harness.py: the remote node, the clock and the session record *)

Record response : Type := {
  status_code : Z;
  resp_text : string;
  resp_json : pyres pyval          (* what [resp.json()] returns or raises *)
}.

(** One [client.post]: a response after a round trip, or an exception
    (timeout, connection error) after some elapsed time. *)
Inductive attempt : Type :=
| Answered (rtt : Qc) (r : response)
| Failed (elapsed : Qc) (e : exn).

Inductive body : Type :=
| JsonBody (v : pyval)             (* [json=payload] *)
| RawBody (s : string).            (* [content=payload] *)

Record request : Type := { req_url : string; req_body : body }.

Inductive event : Type :=
| EvPost (rq : request) (a : attempt)
| EvSleep (secs : Z).

(** [now] is [time.perf_counter()]; [server n rq] is the node's answer to the
    request [rq] when [n] requests were sent before it; [trace] lists the
    requests and sleeps of the session in order. *)
Record world : Type := {
  now : Qc;
  server : nat -> request -> attempt;
  trace : list event
}.

Definition is_post (ev : event) : bool :=
  match ev with EvPost _ _ => true | EvSleep _ => false end.

Definition posts_sent (w : world) : nat := length (filter is_post (trace w)).

Definition attempt_time (a : attempt) : Qc :=
  match a with Answered d _ => d | Failed d _ => d end.

Definition event_time (ev : event) : Qc :=
  match ev with EvPost _ a => attempt_time a | EvSleep secs => Zc secs end.

Definition advance (ev : event) (w : world) : world :=
  {| now := (now w + event_time ev)%Qc; server := server w;
     trace := trace w ++ [ev] |}.

(** The [stats] dict of a session; [error] and [notes] are optional keys. *)
Record stats : Type := {
  st_miner_id : string;
  success : bool;
  steps : gmap string Qc;
  total_time : Qc;
  retries : Z;
  is_duplicate : bool;
  is_malformed : bool;
  error : option string;
  notes : option string
}.

Definition set_success (b : bool) (s : stats) : stats :=
  {| st_miner_id := st_miner_id s; success := b; steps := steps s;
     total_time := total_time s; retries := retries s;
     is_duplicate := is_duplicate s; is_malformed := is_malformed s;
     error := error s; notes := notes s |}.

Definition set_steps (m : gmap string Qc) (s : stats) : stats :=
  {| st_miner_id := st_miner_id s; success := success s; steps := m;
     total_time := total_time s; retries := retries s;
     is_duplicate := is_duplicate s; is_malformed := is_malformed s;
     error := error s; notes := notes s |}.

Definition set_total_time (t : Qc) (s : stats) : stats :=
  {| st_miner_id := st_miner_id s; success := success s; steps := steps s;
     total_time := t; retries := retries s;
     is_duplicate := is_duplicate s; is_malformed := is_malformed s;
     error := error s; notes := notes s |}.

Definition set_retries (n : Z) (s : stats) : stats :=
  {| st_miner_id := st_miner_id s; success := success s; steps := steps s;
     total_time := total_time s; retries := n;
     is_duplicate := is_duplicate s; is_malformed := is_malformed s;
     error := error s; notes := notes s |}.

Definition set_error (e : string) (s : stats) : stats :=
  {| st_miner_id := st_miner_id s; success := success s; steps := steps s;
     total_time := total_time s; retries := retries s;
     is_duplicate := is_duplicate s; is_malformed := is_malformed s;
     error := Some e; notes := notes s |}.

Definition set_notes (n : string) (s : stats) : stats :=
  {| st_miner_id := st_miner_id s; success := success s; steps := steps s;
     total_time := total_time s; retries := retries s;
     is_duplicate := is_duplicate s; is_malformed := is_malformed s;
     error := error s; notes := Some n |}.

(** ** The session monad: state that survives a raised exception *)

Record sess : Type := { st : stats; gen : rng; wld : world }.

Definition M (A : Type) : Type := sess -> pyres A * sess.

Definition ret {A : Type} (a : A) : M A := fun s => (Ok a, s).

Definition bind {A B : Type} (m : M A) (f : A -> M B) : M B :=
  fun s => match m s with
           | (Ok a, s') => f a s'
           | (Raise e, s') => (Raise e, s')
           end.

Definition lift {A : Type} (r : pyres A) : M A := fun s => (r, s).

(** [try: m except Exception as e: h e] *)
Definition try_except {A : Type} (m : M A) (h : exn -> M A) : M A :=
  fun s => match m s with
           | (Ok a, s') => (Ok a, s')
           | (Raise e, s') => h e s'
           end.

Definition modify_stats (f : stats -> stats) : M unit :=
  fun s => (Ok tt, {| st := f (st s); gen := gen s; wld := wld s |}).

Definition get_stats : M stats := fun s => (Ok (st s), s).

Definition perf_counter : M Qc := fun s => (Ok (now (wld s)), s).

Definition with_rng {A : Type} (f : rng -> pyres A * rng) : M A :=
  fun s => let (r, g') := f (gen s) in
           (r, {| st := st s; gen := g'; wld := wld s |}).

Definition emit (ev : event) : M unit :=
  fun s => (Ok tt, {| st := st s; gen := gen s; wld := advance ev (wld s) |}).

Declare Scope session_scope.
Delimit Scope session_scope with session.
Notation "x <- m ;; k" := (bind m (fun x => k))
  (at level 62, m at next level, right associativity) : session_scope.
Notation "m ;;; k" := (bind m (fun _ => k))
  (at level 62, right associativity) : session_scope.
Open Scope session_scope.

(** [await asyncio.sleep(secs)] *)
Definition sleep (secs : Z) : M unit := emit (EvSleep secs).

(** [await self.client.post(url, ...)]: a string payload is sent as raw
    content, anything else as JSON. *)
Definition mk_request (url : string) (payload : pyval) : request :=
  {| req_url := url;
     req_body := match payload with
                 | PStr t => RawBody t
                 | _ => JsonBody payload
                 end |}.

Definition client_post (url : string) (payload : pyval) : M response :=
  fun s =>
    let rq := mk_request url payload in
    let a := server (wld s) (posts_sent (wld s)) rq in
    let s' := {| st := st s; gen := gen s; wld := advance (EvPost rq a) (wld s) |} in
    match a with
    | Answered _ r => (Ok r, s')
    | Failed _ e => (Raise e, s')
    end.

(** ** _perform_step_with_retry *)

Definition max_retries : nat := 5.
Definition base_backoff : Z := 2.

Inductive loop_ctl : Type :=
| Return (v : pyval)
| Continue.

Definition step_time (s : stats) (name : string) : Qc :=
  default 0%Qc (steps s !! name).

(** One iteration of the [for] loop: the [try] block and its handler. *)
Definition attempt_once (name url : string) (payload : pyval) (backoff : Z)
  : M loop_ctl :=
  step_start <- perf_counter ;;
  try_except
    (resp <- client_post url payload ;;
     t <- perf_counter ;;
     modify_stats (fun s =>
       set_steps (<[name := (step_time s name + (t - step_start))%Qc]> (steps s)) s) ;;;
     if (status_code resp =? 200)%Z then
       v <- lift (resp_json resp) ;; ret (Return v)
     else if ((status_code resp =? 400) || (status_code resp =? 403))%Z then
       v <- lift (resp_json resp) ;; ret (Return v)
     else if (status_code resp =? 429)%Z then
       modify_stats (fun s => set_retries (retries s + 1) s) ;;;
       sleep backoff ;;;
       ret Continue
     else
       modify_stats (set_error ("HTTP " ++ pretty (status_code resp) ++ ": "
                                  ++ substring 0 50 (resp_text resp))) ;;;
       ret (Return PNone))
    (fun e => modify_stats (set_error (exn_str e)) ;;; ret (Return PNone)).

(** The loop over [range(n)], entered with the current [backoff]. *)
Fixpoint retry_loop (n : nat) (backoff : Z) (name url : string)
         (payload : pyval) : M pyval :=
  match n with
  | O => modify_stats (set_error "Max retries exceeded (429)") ;;; ret PNone
  | S n' =>
      c <- attempt_once name url payload backoff ;;
      match c with
      | Return v => ret v
      | Continue => retry_loop n' (backoff * 2) name url payload
      end
  end.

Definition _perform_step_with_retry (name url : string) (payload : pyval)
  : M pyval :=
  retry_loop max_retries base_backoff name url payload.

(** ** run_miner_session *)

Section Session.

Variable sha256_hex : string -> string.
Variable json_dumps_sorted : pyval -> string.
(** [str(v)], as an f-string interpolates a value *)
Variable py_str : pyval -> string.

(** [self.node_url], already stripped of trailing slashes *)
Variable node_url : string.

Definition initial_stats (sim : MinerSimulator)
           (force_duplicate_id : option string) (malformed : bool) : stats :=
  {| st_miner_id := miner_id sim; success := false; steps := ∅;
     total_time := 0%Qc; retries := 0;
     is_duplicate := match force_duplicate_id with Some _ => true | None => false end;
     is_malformed := malformed; error := None; notes := None |}.

(** [x and x.get(k)], read as a condition *)
Definition and_get (res : pyval) (k : string) : M bool :=
  if truthy res then v <- lift (py_get res k) ;; ret (truthy v)
  else ret false.

(** [not x or not x.get(k)] *)
Definition not_or_not_get (res : pyval) (k : string) : M bool :=
  if negb (truthy res) then ret true
  else v <- lift (py_get res k) ;; ret (negb (truthy v)).

(** [x and not x.get(k)] *)
Definition and_not_get (res : pyval) (k : string) : M bool :=
  if truthy res then v <- lift (py_get res k) ;; ret (negb (truthy v))
  else ret false.

Definition url_challenge : string := node_url ++ "/attest/challenge".
Definition url_submit : string := node_url ++ "/attest/submit".
Definition url_enroll : string := node_url ++ "/epoch/enroll".

(** The [try] block, cut at its three steps; an early [return stats] ends
    it with [tt]. *)
Definition after_enroll (res : pyval) : M unit :=
  enrolled <- and_get res "ok" ;;
  if enrolled then modify_stats (set_success true)
  else if truthy res
       then modify_stats (set_error ("Enroll failed: " ++ py_str res))
       else ret tt.

Definition after_submit (sim : MinerSimulator) (malformed : bool)
           (res : pyval) : M unit :=
  if malformed then
    rejected <- and_not_get res "ok" ;;
    if rejected then
      modify_stats (set_success true) ;;;
      modify_stats (set_notes "Correctly rejected malformed payload")
    else ret tt
  else
    failed <- not_or_not_get res "ok" ;;
    if failed then
      if truthy res
      then modify_stats (set_error ("Submit rejected: " ++ py_str res))
      else ret tt
    else
      res <- _perform_step_with_retry "enroll" url_enroll
               (build_enroll_payload sim) ;;
      after_enroll res.

Definition build_payload (sim : MinerSimulator) (malformed : bool)
           (nonce : pyval) : M pyval :=
  with_rng
    (if malformed
     then build_malformed_payload sha256_hex json_dumps_sorted sim nonce
     else build_attestation_payload sha256_hex json_dumps_sorted sim nonce).

Definition after_challenge (sim : MinerSimulator) (malformed : bool)
           (nonce_data : pyval) : M unit :=
  if negb (truthy nonce_data) then ret tt else
  nonce <- lift (py_get nonce_data "nonce") ;;
  payload <- build_payload sim malformed nonce ;;
  res <- _perform_step_with_retry "submit" url_submit payload ;;
  after_submit sim malformed res.

Definition session_try (sim : MinerSimulator) (malformed : bool) : M unit :=
  nonce_data <- _perform_step_with_retry "challenge" url_challenge (PDict []) ;;
  after_challenge sim malformed nonce_data.

(** [if force_duplicate_id: simulator.miner_id = force_duplicate_id] *)
Definition override_id (sim : MinerSimulator)
           (force_duplicate_id : option string) : MinerSimulator :=
  match force_duplicate_id with
  | Some id => if negb (String.eqb id "") then set_miner_id sim id else sim
  | None => sim
  end.

(** The state in which the [try] block starts: [gate_wait] is the time the
    session spends queued on the semaphore. *)
Definition session_start (sim : MinerSimulator)
           (force_duplicate_id : option string) (malformed : bool)
           (gate_wait : Qc) (g : rng) (w : world) : sess :=
  {| st := initial_stats (override_id sim force_duplicate_id)
                         force_duplicate_id malformed;
     gen := g;
     wld := {| now := (now w + gate_wait)%Qc; server := server w;
               trace := trace w |} |}.

Definition run_miner_session (sim : MinerSimulator)
           (force_duplicate_id : option string) (malformed : bool)
           (gate_wait : Qc) (g : rng) (w : world)
  : stats * MinerSimulator * rng * world :=
  let sim1 := override_id sim force_duplicate_id in
  let start_total := now w in
  let m := try_except (session_try sim1 malformed)
                      (fun e => modify_stats (set_error (exn_str e))) in
  let (_, s1) := m (session_start sim force_duplicate_id malformed gate_wait g w) in
  let stats1 := set_total_time (now (wld s1) - start_total)%Qc (st s1) in
  (stats1, sim1, gen s1, wld s1).

End Session.

(** ** run_test: scenario set-up *)

(** The names bound at module level in harness.py: its imports and its
    class. *)
Definition harness_globals : list string :=
  ["asyncio"; "time"; "httpx"; "statistics"; "List"; "Dict"; "Any";
   "MinerSimulator"; "StressHarness"].

(** Evaluating a global name that is not bound raises [NameError]. *)
Definition load_global (name : string) : pyres unit :=
  if existsb (String.eqb name) harness_globals then Ok tt
  else Raise (NameError name).

Definition pyres_bind {A B : Type} (r : pyres A) (f : A -> pyres B) : pyres B :=
  match r with Ok a => f a | Raise e => Raise e end.

(** [int(x)] of a float: truncation toward zero. *)
Definition py_int (q : Qc) : Z := Z.quot (Qnum (this q)) (Z.pos (Qden (this q))).

(** [l[i] = v] for [0 <= i] *)
Definition list_assign {A : Type} (l : list A) (i : nat) (v : A) : pyres (list A) :=
  if (i <? length l)%nat then Ok (<[i := v]> l)
  else Raise (IndexError "list assignment index out of range").

(** [for i in idx: l[i] = v] *)
Fixpoint assign_all {A : Type} (idx : list nat) (v : A) (l : list A)
  : pyres (list A) :=
  match idx with
  | [] => Ok l
  | i :: idx' => pyres_bind (list_assign l i v) (assign_all idx' v)
  end.

Fixpoint range_from (fuel : nat) (i stop step : Z) : list nat :=
  match fuel with
  | O => []
  | S fuel' =>
      if (i <? stop)%Z then Z.to_nat i :: range_from fuel' (i + step) stop step
      else []
  end.

(** [range(0, stop, step)] for a positive [step] *)
Definition py_range_step (stop step : Z) : list nat :=
  range_from (Z.to_nat stop) 0 stop step.

Definition hex_digit (z : Z) : ascii :=
  nth (Z.to_nat z) (list_ascii_of_string "0123456789abcdef") "0"%char.

(** [n] hexadecimal digits of [z], most significant first. *)
Fixpoint hex_digits (n : nat) (z : Z) : string :=
  match n with
  | O => ""
  | S n' => hex_digits n' (z / 16) ++ String (hex_digit (z mod 16)) ""
  end.

(** [uuid.uuid4().hex]: 128 random bits with the version and variant set. *)
Definition uuid4_hex (g : rng) : string * rng :=
  let raw := rng_bits g (rng_nbits g) mod 2 ^ 128 in
  let v1 := Z.lor (Z.land raw (Z.lnot (Z.shiftl 0xc000 48))) (Z.shiftl 0x8000 48) in
  let v2 := Z.lor (Z.land v1 (Z.lnot (Z.shiftl 0xf000 64))) (Z.shiftl 4 76) in
  (hex_digits 32 v2, rng_step_bits g).

Record plan : Type := {
  force_ids : list (option string);
  malformed_flags : list bool
}.

(** Lines 116-129 of [run_test]. *)
Definition scenario_setup (num_miners : Z) (duplicate_ratio : Qc)
           (test_malformed : bool) (g : rng) : pyres plan :=
  let force_ids0 : list (option string) := replicate (Z.to_nat num_miners) None in
  let malformed_flags0 := replicate (Z.to_nat num_miners) false in
  pyres_bind
    (if decide (0 < duplicate_ratio)%Qc then
       let num_dupes := py_int (Zc num_miners * duplicate_ratio)%Qc in
       pyres_bind (load_global "uuid") (fun _ =>
       let (h, _) := uuid4_hex g in
       let base_id := "duplicate-miner-" ++ substring 0 4 h in
       assign_all (seq 0 (Z.to_nat num_dupes)) (Some base_id) force_ids0)
     else Ok force_ids0)
    (fun fids =>
  pyres_bind
    (if test_malformed then
       assign_all (py_range_step num_miners 5) true malformed_flags0
     else Ok malformed_flags0)
    (fun mflags => Ok {| force_ids := fids; malformed_flags := mflags |})).

(** ** print_summary *)

(** [sorted(l)] and [l.sort()] on floats *)
Definition py_sorted (l : list Qc) : list Qc := merge_sort Qcle l.

(** [statistics.median] *)
Definition py_median (data : list Qc) : pyres Qc :=
  let data := py_sorted data in
  let n := length data in
  if (n =? 0)%nat then Raise (Exn "StatisticsError" "no median for empty data")
  else if (n mod 2 =? 1)%nat then Ok (nth (n / 2) data 0%Qc)
  else let i := (n / 2)%nat in
       Ok ((nth (i - 1) data 0%Qc + nth i data 0%Qc) / Zc 2)%Qc.

(** [l[i]] for [0 <= i] *)
Definition py_index (l : list Qc) (i : Z) : pyres Qc :=
  match l !! Z.to_nat i with
  | Some x => Ok x
  | None => Raise (IndexError "list index out of range")
  end.

(** [a / b] *)
Definition py_div (msg : string) (a b : Qc) : pyres Qc :=
  if decide (b = 0%Qc) then Raise (ZeroDivisionError msg)
  else Ok (a / b)%Qc.

Definition len_c {A : Type} (l : list A) : Qc := Zc (Z.of_nat (length l)).

(** The float literals [0.95] and [0.99], read as exact decimals. *)
Definition c095 : Qc := Q2Qc (95 # 100).
Definition c099 : Qc := Q2Qc (99 # 100).

(** [error_counts[err] = error_counts.get(err, 0) + 1] *)
Fixpoint bump (err : string) (counts : list (string * nat)) : list (string * nat) :=
  match counts with
  | [] => [(err, 1%nat)]
  | (e, c) :: counts' =>
      if String.eqb err e then (e, S c) :: counts' else (e, c) :: bump err counts'
  end.

(** [sorted(items, key=count, reverse=True)]: stable, largest count first. *)
Fixpoint insert_by_count (x : string * nat) (l : list (string * nat))
  : list (string * nat) :=
  match l with
  | [] => [x]
  | y :: l' => if (snd y <=? snd x)%nat then x :: y :: l'
               else y :: insert_by_count x l'
  end.

Definition sort_by_count (l : list (string * nat)) : list (string * nat) :=
  fold_right insert_by_count [] l.

Record summary : Type := {
  sum_total_miners : Z;
  sum_successes : nat;
  sum_success_rate : Qc;               (* in percent *)
  sum_duration : Qc;
  sum_throughput : Qc;                 (* miners per second *)
  sum_p50 : option Qc;
  sum_p95 : option Qc;
  sum_p99 : option Qc;
  sum_step_avgs : list (string * Qc);
  sum_top_errors : list (string * nat)
}.

(** The percentile lines: nothing for no data, the median alone for one
    session, the three values otherwise. *)
Definition latency_lines (total_times : list Qc)
  : pyres (option Qc * option Qc * option Qc) :=
  match total_times with
  | [] => Ok (None, None, None)
  | _ =>
      pyres_bind (py_median total_times) (fun p50 =>
      if (1 <? length total_times)%nat then
        let sorted_times := py_sorted total_times in
        pyres_bind (py_index sorted_times (py_int (len_c sorted_times * c095)%Qc))
          (fun p95 =>
        pyres_bind (py_index sorted_times (py_int (len_c sorted_times * c099)%Qc))
          (fun p99 => Ok (Some p50, Some p95, Some p99)))
      else Ok (Some p50, None, None))
  end.

Definition step_avgs (results : list stats) : list (string * Qc) :=
  omap (fun step =>
          let step_times := omap (fun r => steps r !! step) results in
          match step_times with
          | [] => None
          | _ => Some (step, (py_sum step_times / len_c step_times)%Qc)
          end)
       ["challenge"; "submit"; "enroll"].

Definition top_errors (failures : list stats) : list (string * nat) :=
  let error_counts :=
    fold_left (fun counts r => bump (default "Unknown error" (error r)) counts)
              failures [] in
  take 5 (sort_by_count error_counts).

Definition print_summary (results : list stats) (total_miners : Z)
           (duration : Qc) : pyres summary :=
  let successes := filter (fun r => success r = true) results in
  let failures := filter (fun r => success r = false) results in
  (* every [stats] dict has the key "total_time" *)
  let total_times := map total_time results in
  pyres_bind (py_div "division by zero"
                     (len_c successes) (Zc total_miners)) (fun rate =>
  pyres_bind (py_div "float division by zero"
                     (len_c successes) duration) (fun throughput =>
  pyres_bind (latency_lines total_times) (fun '(p50, p95, p99) =>
  Ok {| sum_total_miners := total_miners;
        sum_successes := length successes;
        sum_success_rate := (rate * Zc 100)%Qc;
        sum_duration := duration;
        sum_throughput := throughput;
        sum_p50 := p50; sum_p95 := p95; sum_p99 := p99;
        sum_step_avgs := step_avgs results;
        sum_top_errors := top_errors failures |}))).

(** ** run_test

    Each launched session has its simulator (made by line 114), the time it
    waits for the gate, its share of the random source and its view of the
    node; the outcomes are collected in launch order. The epoch-boundary
    delay precedes the session's clock and leaves its outcome unchanged. *)

Record launch : Type := {
  l_simulator : MinerSimulator;
  l_gate_wait : Qc;
  l_rng : rng;
  l_world : world
}.

Section RunTest.

Variable sha256_hex : string -> string.
Variable json_dumps_sorted : pyval -> string.
Variable py_str : pyval -> string.
Variable node_url : string.

(** [self.results]: what [asyncio.gather] collects from the tasks *)
Definition gather_sessions (launches : nat -> launch) (p : plan) (n : nat)
  : list stats :=
  map (fun i =>
         let l := launches i in
         fst (fst (fst (run_miner_session sha256_hex json_dumps_sorted py_str
                          node_url (l_simulator l)
                          (default None (force_ids p !! i))
                          (default false (malformed_flags p !! i))
                          (l_gate_wait l) (l_rng l) (l_world l)))))
      (seq 0 n).

(** [duration] is the wall-clock time of the gather. *)
Definition run_test (launches : nat -> launch) (num_miners : Z)
           (duplicate_ratio : Qc) (test_malformed : bool) (g : rng)
           (duration : Qc) : pyres (list stats * summary) :=
  pyres_bind (scenario_setup num_miners duplicate_ratio test_malformed g)
    (fun p =>
  let results := gather_sessions launches p (Z.to_nat num_miners) in
  pyres_bind (print_summary results num_miners duration)
    (fun sm => Ok (results, sm))).

End RunTest.

(** ** The concurrency gate

    Every session runs [_delayed_session]: an optional sleep, then
    [run_miner_session], whose three steps all sit inside
    [async with self.semaphore]. A session is therefore delayed, queued on the
    semaphore, or holds a permit (idle between requests, with a request in
    flight, or asleep in a back-off), or has released it. *)

Inductive phase : Type :=
| Delayed
| Queued
| Idle
| InFlight
| Backoff
| Finished.

#[local] Instance phase_eq_dec : EqDecision phase.
Proof. solve_decision. Defined.

Record gate : Type := { permits : nat; phases : list phase }.

Definition holds_permit (p : phase) : bool :=
  match p with Idle | InFlight | Backoff => true | _ => false end.

Definition in_flight (p : phase) : bool :=
  match p with InFlight => true | _ => false end.

Definition count_where (f : phase -> bool) (l : list phase) : nat :=
  length (filter (fun p => f p = true) l).

(** The run starts with all [N] sessions launched and [C] free permits
    ([asyncio.Semaphore(concurrency)]). *)
Definition gate_init (C N : nat) : gate :=
  {| permits := C; phases := replicate N Delayed |}.

Definition set_phase (i : nat) (p : phase) (s : gate) (free : nat) : gate :=
  {| permits := free; phases := <[i := p]> (phases s) |}.

Inductive gate_step : gate -> gate -> Prop :=
| step_wake s i :
    phases s !! i = Some Delayed ->
    gate_step s (set_phase i Queued s (permits s))
| step_acquire s i free :
    phases s !! i = Some Queued -> permits s = S free ->
    gate_step s (set_phase i Idle s free)
| step_send s i :
    phases s !! i = Some Idle ->
    gate_step s (set_phase i InFlight s (permits s))
| step_answer s i :
    phases s !! i = Some InFlight ->
    gate_step s (set_phase i Idle s (permits s))
| step_throttled s i :
    phases s !! i = Some InFlight ->
    gate_step s (set_phase i Backoff s (permits s))
| step_resume s i :
    phases s !! i = Some Backoff ->
    gate_step s (set_phase i Idle s (permits s))
| step_release s i :
    phases s !! i = Some Idle ->
    gate_step s (set_phase i Finished s (S (permits s))).

Definition reachable (C N : nat) (s : gate) : Prop :=
  rtc gate_step (gate_init C N) s.

(** ** What the node can check on a submitted payload

    A dict is serialised by the client, so what arrives always parses; a
    string is sent as it is and parses only if it is a JSON text. The
    recogniser follows the JSON grammar that [json.loads] accepts (RFC 8259
    with the literals NaN, Infinity and -Infinity). *)

Definition chr (n : nat) : ascii := ascii_of_nat n.

Definition is_ws (c : ascii) : bool :=
  let n := nat_of_ascii c in
  ((n =? 32) || (n =? 9) || (n =? 10) || (n =? 13))%nat.

Definition is_digit (c : ascii) : bool :=
  let n := nat_of_ascii c in ((48 <=? n) && (n <=? 57))%nat.

Definition is_hex (c : ascii) : bool :=
  let n := nat_of_ascii c in
  (is_digit c || ((97 <=? n) && (n <=? 102)) || ((65 <=? n) && (n <=? 70)))%nat.

(** The characters that may follow a backslash, [u] apart. *)
Definition is_escape (c : ascii) : bool :=
  existsb (Ascii.eqb c) (list_ascii_of_string (dquote ++ "\/bfnrt")).

Fixpoint skip_ws (s : list ascii) : list ascii :=
  match s with
  | c :: s' => if is_ws c then skip_ws s' else s
  | [] => []
  end.

Fixpoint skip_digits (s : list ascii) : list ascii :=
  match s with
  | c :: s' => if is_digit c then skip_digits s' else s
  | [] => []
  end.

Fixpoint strip_prefix (p s : list ascii) : option (list ascii) :=
  match p, s with
  | [], _ => Some s
  | a :: p', b :: s' => if Ascii.eqb a b then strip_prefix p' s' else None
  | _ :: _, [] => None
  end.

(** The rest of the input after the closing quote of a string. *)
Fixpoint scan_string (s : list ascii) : option (list ascii) :=
  match s with
  | [] => None
  | c :: s' =>
      if Ascii.eqb c (chr 34) then Some s'
      else if Ascii.eqb c (chr 92) then
        match s' with
        | e :: s'' =>
            if Ascii.eqb e "u"%char then
              match s'' with
              | h1 :: h2 :: h3 :: h4 :: s3 =>
                  if is_hex h1 && is_hex h2 && is_hex h3 && is_hex h4
                  then scan_string s3 else None
              | _ => None
              end
            else if is_escape e then scan_string s'' else None
        | [] => None
        end
      else if (nat_of_ascii c <? 32)%nat then None
      else scan_string s'
  end.

Definition scan_exponent (s : list ascii) : option (list ascii) :=
  match s with
  | e :: r =>
      if Ascii.eqb e "e"%char || Ascii.eqb e "E"%char then
        let r1 := match r with
                  | sg :: r' => if Ascii.eqb sg "+"%char || Ascii.eqb sg "-"%char
                                then r' else r
                  | [] => r
                  end in
        match r1 with
        | d :: r2 => if is_digit d then Some (skip_digits r2) else None
        | [] => None
        end
      else Some s
  | [] => Some s
  end.

Definition scan_fraction (s : list ascii) : option (list ascii) :=
  match s with
  | p :: r =>
      if Ascii.eqb p "."%char then
        match r with
        | d :: r' => if is_digit d then scan_exponent (skip_digits r') else None
        | [] => None
        end
      else scan_exponent s
  | [] => Some s
  end.

Definition scan_number (s : list ascii) : option (list ascii) :=
  let s1 := match s with
            | m :: r => if Ascii.eqb m "-"%char then r else s
            | [] => s
            end in
  match s1 with
  | c :: r =>
      if Ascii.eqb c "0"%char then scan_fraction r
      else if is_digit c then scan_fraction (skip_digits r)
      else None
  | [] => None
  end.

Definition scan_literal (s : list ascii) : option (list ascii) :=
  let try (lit : string) := strip_prefix (list_ascii_of_string lit) s in
  match try "true", try "false", try "null", try "NaN", try "Infinity",
        try "-Infinity" with
  | Some r, _, _, _, _, _ | _, Some r, _, _, _, _ | _, _, Some r, _, _, _
  | _, _, _, Some r, _, _ | _, _, _, _, Some r, _ | _, _, _, _, _, Some r => Some r
  | _, _, _, _, _, _ => scan_number s
  end.

Fixpoint scan_value (fuel : nat) (s : list ascii) : option (list ascii) :=
  match fuel with
  | O => None
  | S fuel' =>
      match skip_ws s with
      | [] => None
      | c :: r =>
          if Ascii.eqb c "{"%char then
            match skip_ws r with
            | c2 :: r2 => if Ascii.eqb c2 "}"%char then Some r2
                          else scan_members fuel' (c2 :: r2)
            | [] => None
            end
          else if Ascii.eqb c "["%char then
            match skip_ws r with
            | c2 :: r2 => if Ascii.eqb c2 "]"%char then Some r2
                          else scan_elements fuel' (c2 :: r2)
            | [] => None
            end
          else if Ascii.eqb c (chr 34) then scan_string r
          else scan_literal (c :: r)
      end
  end
with scan_members (fuel : nat) (s : list ascii) : option (list ascii) :=
  match fuel with
  | O => None
  | S fuel' =>
      match skip_ws s with
      | q :: r =>
          if Ascii.eqb q (chr 34) then
            match scan_string r with
            | Some r1 =>
                match skip_ws r1 with
                | colon :: r2 =>
                    if Ascii.eqb colon ":"%char then
                      match scan_value fuel' r2 with
                      | Some r3 =>
                          match skip_ws r3 with
                          | c3 :: r4 =>
                              if Ascii.eqb c3 ","%char then scan_members fuel' r4
                              else if Ascii.eqb c3 "}"%char then Some r4
                              else None
                          | [] => None
                          end
                      | None => None
                      end
                    else None
                | [] => None
                end
            | None => None
            end
          else None
      | [] => None
      end
  end
with scan_elements (fuel : nat) (s : list ascii) : option (list ascii) :=
  match fuel with
  | O => None
  | S fuel' =>
      match scan_value fuel' s with
      | Some r1 =>
          match skip_ws r1 with
          | c :: r2 =>
              if Ascii.eqb c ","%char then scan_elements fuel' r2
              else if Ascii.eqb c "]"%char then Some r2
              else None
          | [] => None
          end
      | None => None
      end
  end.

Definition json_ok (s : string) : bool :=
  match scan_value (2 * String.length s + 2) (list_ascii_of_string s) with
  | Some r => match skip_ws r with [] => true | _ => false end
  | None => false
  end.

(** [v[k1][k2]...] through nested dicts *)
Fixpoint get_path (ks : list string) (v : pyval) : option pyval :=
  match ks with
  | [] => Some v
  | k :: ks' =>
      match v with
      | PDict d => match dict_get k d with
                   | Some x => get_path ks' x
                   | None => None
                   end
      | _ => None
      end
  end.

Inductive invariant : Type :=
| Parsable               (* the body is a JSON text *)
| NoncePresent           (* the payload has its [nonce] field *)
| CommitmentReproducible (* the commitment is the hash of the embedded fields *)
| ArchMatchesFamily      (* the device arch belongs to the declared family *)
| ChecksPass.            (* every fingerprint check is marked passed *)

Section Invariants.

Variable sha256_hex : string -> string.
Variable json_dumps_sorted : pyval -> string.

Definition wire_parsable (v : pyval) : bool :=
  match v with
  | PStr s => json_ok s
  | _ => true
  end.

Definition nonce_present (d : pydict) : bool := dict_has "nonce" d.

(** The commitment is recomputed from the report's nonce and entropy and
    the payload's wallet. *)
Definition commitment_reproducible (d : pydict) : bool :=
  match get_path ["report"; "commitment"] (PDict d),
        get_path ["report"; "nonce"] (PDict d),
        dict_get "miner" d,
        get_path ["report"; "derived"] (PDict d) with
  | Some (PStr c), Some (PStr n), Some (PStr w), Some e =>
      String.eqb c (sha256_hex (n ++ w ++ json_dumps_sorted e))
  | _, _, _, _ => false
  end.

Definition arch_matches_family (d : pydict) : bool :=
  match get_path ["device"; "arch"] (PDict d),
        get_path ["device"; "family"] (PDict d) with
  | Some (PStr a), Some (PStr f) =>
      match assoc a ARCH_PROFILES with
      | Some p => String.eqb (prof_family p) f
      | None => false
      end
  | _, _ => false
  end.

Definition check_passed (c : pyval) : bool :=
  match get_path ["passed"] c with
  | Some (PBool true) => true
  | _ => false
  end.

Definition checks_pass (d : pydict) : bool :=
  match get_path ["fingerprint"; "all_passed"] (PDict d),
        get_path ["fingerprint"; "checks"] (PDict d) with
  | Some (PBool true), Some (PDict cs) =>
      forallb (fun kv => check_passed (snd kv)) cs
  | _, _ => false
  end.

Definition field_holds (i : invariant) (d : pydict) : bool :=
  match i with
  | Parsable => true
  | NoncePresent => nonce_present d
  | CommitmentReproducible => commitment_reproducible d
  | ArchMatchesFamily => arch_matches_family d
  | ChecksPass => checks_pass d
  end.

(** The invariants a payload breaks: whether its encoding parses, and, on
    a structured payload, each invariant of its fields. *)
Definition violations (v : pyval) : list invariant :=
  (if wire_parsable v then [] else [Parsable]) ++
  match v with
  | PDict d =>
      List.filter (fun i => negb (field_holds i d))
             [NoncePresent; CommitmentReproducible; ArchMatchesFamily; ChecksPass]
  | _ => []
  end.

(** The invariant each corruption is aimed at, in the order of
    [corruptions]. *)
Definition targets : list invariant :=
  [NoncePresent; CommitmentReproducible; ArchMatchesFamily; Parsable].

End Invariants.

(** ** Reading a trace *)

Fixpoint sum_c (l : list Qc) : Qc :=
  match l with
  | [] => 0%Qc
  | x :: l' => (x + sum_c l')%Qc
  end.

(** Round-trip time of a request that was answered. *)
Definition answered_rtt (ev : event) : option Qc :=
  match ev with
  | EvPost _ (Answered d _) => Some d
  | _ => None
  end.

Definition sleep_secs (ev : event) : option Z :=
  match ev with
  | EvSleep b => Some b
  | _ => None
  end.

Definition answered_time (evs : list event) : Qc := sum_c (omap answered_rtt evs).
Definition sleeps (evs : list event) : list Z := omap sleep_secs evs.
Definition sleep_time (evs : list event) : Qc := sum_c (map Zc (sleeps evs)).
Definition elapsed (evs : list event) : Qc := sum_c (map event_time evs).

Definition posted_urls (evs : list event) : list string :=
  omap (fun ev => match ev with
                  | EvPost rq _ => Some (req_url rq)
                  | EvSleep _ => None
                  end) evs.

(** A request answered with HTTP 429. *)
Definition throttle (a : attempt) : Prop :=
  match a with
  | Answered _ r => status_code r = 429
  | Failed _ _ => False
  end.

(** The trace of [atts], all answered 429, from the back-off [backoff]:
    each request is followed by its sleep. *)
Fixpoint throttled (rq : request) (atts : list attempt) (backoff : Z)
  : list event :=
  match atts with
  | [] => []
  | a :: atts' => EvPost rq a :: EvSleep backoff :: throttled rq atts' (backoff * 2)
  end.

(** The node answers the next requests of [w] for [rq] with [atts]. *)
Definition answers (w : world) (rq : request) (atts : list attempt) : Prop :=
  forall i a, atts !! i = Some a -> server w (posts_sent w + i)%nat rq = a.

(** [b, 2b, 4b, ...]: [n] back-offs *)
Fixpoint doubling (n : nat) (b : Z) : list Z :=
  match n with
  | O => []
  | S n' => b :: doubling n' (b * 2)
  end.

(** ** Effects on the session state *)

Definition with_stats (f : stats -> stats) (s : sess) : sess :=
  {| st := f (st s); gen := gen s; wld := wld s |}.

Definition with_world (f : world -> world) (s : sess) : sess :=
  {| st := st s; gen := gen s; wld := f (wld s) |}.

(** The state after a request was answered and its round trip recorded. *)
Definition answered_state (name : string) (rq : request) (a : attempt)
           (d : Qc) (s : sess) : sess :=
  {| st := set_steps (<[name := (step_time (st s) name
                                 + (now (wld s) + d - now (wld s)))%Qc]>
                        (steps (st s))) (st s);
     gen := gen s;
     wld := advance (EvPost rq a) (wld s) |}.

(** Every request among [evs] is [rq]. *)
Definition only_posts (rq : request) (evs : list event) : Prop :=
  Forall (fun ev => match ev with
                    | EvPost rq' _ => rq' = rq
                    | EvSleep _ => True
                    end) evs.

(** What a step named [name] changes in a session while it adds the events
    [evs] to the trace. *)
Record step_effect (name : string) (evs : list event) (s s' : sess) : Prop := {
  eff_trace : trace (wld s') = (trace (wld s) ++ evs)%list;
  eff_server : server (wld s') = server (wld s);
  eff_now : now (wld s') = (now (wld s) + elapsed evs)%Qc;
  eff_gen : gen s' = gen s;
  eff_step : step_time (st s') name = (step_time (st s) name + answered_time evs)%Qc;
  eff_other : forall k, k <> name -> steps (st s') !! k = steps (st s) !! k;
  eff_none : omap answered_rtt evs = [] -> steps (st s') = steps (st s);
  eff_retries : retries (st s') = retries (st s) + Z.of_nat (length (sleeps evs));
  eff_success : success (st s') = success (st s);
  eff_notes : notes (st s') = notes (st s)
}.

(** The error string of a request that ends a step in failure. *)
Definition failure_text (a : attempt) : string :=
  match a with
  | Answered _ r =>
      "HTTP " ++ pretty (status_code r) ++ ": " ++ substring 0 50 (resp_text r)
  | Failed _ e => exn_str e
  end.


(** Round-trip time of a request to [url] that was answered. *)
Definition answered_rtt_at (url : string) (ev : event) : option Qc :=
  match ev with
  | EvPost rq (Answered d _) => if String.eqb (req_url rq) url then Some d else None
  | _ => None
  end.

Definition answered_at (url : string) (evs : list event) : Qc :=
  sum_c (omap (answered_rtt_at url) evs).

Definition failed_elapsed (ev : event) : option Qc :=
  match ev with
  | EvPost _ (Failed d _) => Some d
  | _ => None
  end.

Definition failed_time (evs : list event) : Qc := sum_c (omap failed_elapsed evs).

(** The three protocol steps: the key under [stats["steps"]] and the
    endpoint. *)
Definition step_table (node_url : string) : list (string * string) :=
  [ ("challenge", url_challenge node_url);
    ("submit", url_submit node_url);
    ("enroll", url_enroll node_url) ].

(** What a piece of a session changes while it adds [evs] to the trace. *)
Record session_effect (node_url : string) (evs : list event) (s s' : sess)
  : Prop := {
  se_trace : trace (wld s') = (trace (wld s) ++ evs)%list;
  se_server : server (wld s') = server (wld s);
  se_now : now (wld s') = (now (wld s) + elapsed evs)%Qc;
  se_steps : forall name url, In (name, url) (step_table node_url) ->
      step_time (st s') name = (step_time (st s) name + answered_at url evs)%Qc;
  se_absent : forall name url, In (name, url) (step_table node_url) ->
      omap (answered_rtt_at url) evs = [] ->
      steps (st s') !! name = steps (st s) !! name
}.

Definition tracked {A : Type} (node_url : string) (m : M A) : Prop :=
  forall s, exists evs, session_effect node_url evs s (snd (m s)).

(** ** Statements about malformed sessions *)




(** ** Sample inputs *)

Definition demo_sim : MinerSimulator :=
  {| arch_key := "g4";
     sim_profile := {| prof_model := "PowerPC G4 (7447A)";
                       prof_family := "PowerPC";
                       prof_multiplier := Q2Qc (5 # 2) |};
     miner_id := "sim-g4-0a1b2c3d";
     wallet := "5f2d8c1e9a7b4c3d2e1f0a9b8c7d6e5f4a3b2cRTC";
     serial := "SN-0123456789AB";
     hostname := "host-sim-g4-0a1b2c3d";
     mac_address := "02:1a:2b:3c:4d:5e" |}.

Definition demo_rng : rng :=
  {| rng_bits := fun n => Z.of_nat n * 7919 + 4;
     rng_normals := fun n => Q2Qc (Z.of_nat n - 5 # 7);
     rng_nbits := 0; rng_nnormals := 0 |}.

(** A stand-in for the hash: 64 hexadecimal digits, whatever the input. *)
Definition demo_sha256 (s : string) : string :=
  hex_digits 64 (Z.of_nat (String.length s)).

Definition demo_dumps (v : pyval) : string := py_type_name v.
Definition demo_str (v : pyval) : string := py_type_name v.
Definition demo_url : string := "https://node.example".

Definition answer (status : Z) (rtt : Qc) (v : pyval) : attempt :=
  Answered rtt {| status_code := status; resp_text := ""; resp_json := Ok v |}.

Definition demo_world (srv : nat -> request -> attempt) : world :=
  {| now := 0%Qc; server := srv; trace := [] |}.


(** A node that answers 429 twice and then 200. *)
Definition busy_node (n : nat) (rq : request) : attempt :=
  match n with
  | O | S O => answer 429 (Zc 1) (PDict [])
  | _ => answer 200 (Zc 3) (PDict [("nonce", PStr "abc")])
  end.


Definition demo_start (srv : nat -> request -> attempt) : sess :=
  session_start demo_sim None true 0%Qc demo_rng (demo_world srv).





(** The outcome of a successful session that took [t] seconds. *)
Definition demo_outcome (t : Z) : stats :=
  {| st_miner_id := "sim-g4-0a1b2c3d"; success := true; steps := ∅;
     total_time := Zc t; retries := 0; is_duplicate := false;
     is_malformed := false; error := None; notes := None |}.

Definition demo_results : list stats := map demo_outcome [1; 2; 3; 4; 5].

Definition throttled_twice : list attempt :=
  [answer 429 (Zc 1) (PDict []); answer 429 (Zc 1) (PDict [])].

(** ** Reading the draws of the random source *)

(** The [k]-th next result of [random.random()] and of the normal
    deviates. *)
Definition unit_draw (g : rng) (k : nat) : Qc :=
  Q2Qc (Qmake (rng_bits g (rng_nbits g + k) mod 2 ^ 53) (2 ^ 53)).

Definition normal_draw (g : rng) (k : nat) : Qc :=
  rng_normals g (rng_nnormals g + k).

(** The source after [nb] integer draws and [nn] normal draws. *)
Definition rng_after (nb nn : nat) (g : rng) : rng :=
  {| rng_bits := rng_bits g; rng_normals := rng_normals g;
     rng_nbits := rng_nbits g + nb; rng_nnormals := rng_nnormals g + nn |}.

(** What [generate_entropy_report] draws, in the order it draws it. *)
Definition entropy_base (g : rng) : Qc :=
  (Zc 20000 + (Zc 30000 - Zc 20000) * unit_draw g 0)%Qc.

Definition entropy_samples (g : rng) : list Qc :=
  map (fun i => (entropy_base g + (0 + normal_draw g i * Zc 500))%Qc) (seq 0 12).

Definition entropy_variance (g : rng) : Qc :=
  (Zc 100000 + (Zc 500000 - Zc 100000) * unit_draw g 1)%Qc.



(** The invariant of the gate: free permits and sessions holding one add up
    to the capacity. *)
Definition gate_inv (C N : nat) (s : gate) : Prop :=
  (permits s + count_where holds_permit (phases s))%nat = C
  /\ length (phases s) = N.

(** Three sessions on a gate of capacity 2, the first with a request in
    flight. *)
Definition demo_gate : gate :=
  set_phase 0 InFlight
    (set_phase 0 Idle (set_phase 0 Queued (gate_init 2 3) 2) 1) 1.

(** ** Well-formed payloads in closed form *)

(** The commitment of a report with nonce [n] over the entropy [e]. *)
Definition commitment_over (sha256_hex : string -> string)
           (json_dumps_sorted : pyval -> string) (sim : MinerSimulator)
           (n : string) (e : pydict) : string :=
  sha256_hex (n ++ wallet sim ++ json_dumps_sorted (PDict e)).

(** The report of a well-formed payload. *)
Definition report_over (sha256_hex : string -> string)
           (json_dumps_sorted : pyval -> string) (sim : MinerSimulator)
           (n : string) (e : pydict) (score : pyval) : pyval :=
  PDict [ ("nonce", PStr n);
          ("commitment",
           PStr (commitment_over sha256_hex json_dumps_sorted sim n e));
          ("derived", PDict e);
          ("entropy_score", score) ].

(** A well-formed payload. *)
Definition wellformed_fields (sha256_hex : string -> string)
           (json_dumps_sorted : pyval -> string) (sim : MinerSimulator)
           (n : string) (e : pydict) (score : pyval)
           (cores memory_gb p95_ns : Z) : pydict :=
  attestation_fields sim (PStr n)
    (report_over sha256_hex json_dumps_sorted sim n e score)
    cores memory_gb p95_ns.

(** ** Statements about sessions in either mode *)

(** A session in which the challenge step returned [nonce_data] with the
    nonce [nonce], the payload [payload] was built, and the submit step
    returned [res], leaving the session in [s3]. *)
Definition reaches_submit_in (sha256_hex : string -> string)
           (json_dumps_sorted : pyval -> string) (node_url : string)
           (sim : MinerSimulator) (fid : option string) (malformed : bool)
           (gate_wait : Qc) (g : rng) (w : world) (res : pyval) (s3 : sess)
  : Prop :=
  exists nonce_data nonce payload s1 s2,
    _perform_step_with_retry "challenge" (url_challenge node_url) (PDict [])
      (session_start sim fid malformed gate_wait g w) = (Ok nonce_data, s1)
    /\ truthy nonce_data = true
    /\ py_get nonce_data "nonce" = Ok nonce
    /\ build_payload sha256_hex json_dumps_sorted (override_id sim fid) malformed
         nonce s1 = (Ok payload, s2)
    /\ _perform_step_with_retry "submit" (url_submit node_url) payload s2
       = (Ok res, s3).

(** The [ok] field of a response object, None when absent. *)
Definition ok_field (d : pydict) : pyval := default PNone (dict_get "ok" d).

(** The session record once the [try] block has ended with [r]: the handler
    records a raised exception. *)
Definition after_try {A : Type} (r : pyres A) (s : sess) : sess :=
  match r with
  | Ok _ => s
  | Raise e => with_stats (set_error (exn_str e)) s
  end.

(** ** Further sample nodes *)

(** A node that refuses every request with HTTP 403 and the body [reply]. *)
Definition refusing_node (reply : pyval) (n : nat) (rq : request) : attempt :=
  answer 403 (Zc 2) reply.

(** A node whose answers are HTTP 200 with a body that is not JSON. *)
Definition garbled_reply : response :=
  {| status_code := 200; resp_text := "<html>";
     resp_json := Raise (Exn "JSONDecodeError"
                             "Expecting value: line 1 column 1 (char 0)") |}.

Definition garbled_node (n : nat) (rq : request) : attempt :=
  Answered (Zc 1) garbled_reply.

(** A node that hands out a nonce and accepts what follows. *)
Definition accepting_node (n : nat) (rq : request) : attempt :=
  match n with
  | O => answer 200 (Zc 1) (PDict [("nonce", PStr "abc")])
  | _ => answer 200 (Zc 2) (PDict [("ok", PBool true)])
  end.

(** A node whose challenge reply carries no nonce. *)
Definition nonceless_node (n : nat) (rq : request) : attempt :=
  answer 200 (Zc 1) (PDict [("ok", PBool true)]).

(** ** The labels of a session record *)

(** [stats["miner_id"]], [stats["is_duplicate"]] and
    [stats["is_malformed"]], set once when the record is made. *)
Definition labels (s : stats) : string * bool * bool :=
  (st_miner_id s, is_duplicate s, is_malformed s).

Definition keeps_labels {A : Type} (m : M A) : Prop :=
  forall s, labels (st (snd (m s))) = labels (st s).

(** The states a well-formed sample session passes through on
    [accepting_node]. *)
Definition accepted_s1 : sess :=
  snd (_perform_step_with_retry "challenge" (url_challenge demo_url) (PDict [])
         (session_start demo_sim None false 0%Qc demo_rng
                        (demo_world accepting_node))).

Definition accepted_build : pyres pyval * sess :=
  build_payload demo_sha256 demo_dumps demo_sim false (PStr "abc") accepted_s1.

Definition accepted_s3 : sess :=
  snd (_perform_step_with_retry "submit" (url_submit demo_url)
         (match fst accepted_build with Ok p => p | Raise _ => PNone end)
         (snd accepted_build)).

Definition accepted_s5 : sess :=
  snd (_perform_step_with_retry "enroll" (url_enroll demo_url)
         (build_enroll_payload demo_sim) accepted_s3).

(** ** Reading the error table *)

(** [r.get("error", "Unknown error")] *)
Definition error_text (r : stats) : string :=
  default "Unknown error" (error r).

(** How many of [failures] carry the error text [e]. *)
Definition occurrences (e : string) (failures : list stats) : nat :=
  length (filter (fun r => error_text r = e) failures).

(** The order of the error table: larger counts first. *)
Definition by_count (x y : string * nat) : Prop := (snd y <= snd x)%nat.

(** ** Reading the draws of a payload *)






(** ** run_test: the staggered start *)

(** Lines 136-140 of [run_test]: the delay of the session launched at
    index [i]. *)
Definition launch_delay (test_epoch_boundary : bool) (num_miners i : Z) : Qc :=
  if test_epoch_boundary && (num_miners / 2 <? i)%Z then Zc 5 else 0%Qc.

(** The delays of all sessions, in launch order. *)
Definition launch_delays (test_epoch_boundary : bool) (num_miners : nat)
  : list Qc :=
  map (fun i => launch_delay test_epoch_boundary (Z.of_nat num_miners)
                             (Z.of_nat i))
      (seq 0 num_miners).

(** [_delayed_session]: a session sleeps first only if its delay is
    positive. *)
Definition sleeps_first (delay : Qc) : Prop := (0 < delay)%Qc.

(** A state of the gate in which every session has finished. *)
Definition all_finished (s : gate) : Prop :=
  Forall (fun p => p = Finished) (phases s).

(** ** Reading the requests of a session *)

(** The events [evs] hold between [lo] and five requests, all to [url]. *)
Definition requests_to (url : string) (lo : nat) (evs : list event) : Prop :=
  Forall (fun u => u = url) (posted_urls evs)
  /\ (lo <= length (posted_urls evs) <= 5)%nat.

(** ** MinerSimulator.__init__ *)

(** [s.upper()] on ASCII text *)
Definition upper_char (c : ascii) : ascii :=
  let n := nat_of_ascii c in
  if ((97 <=? n) && (n <=? 122))%nat then ascii_of_nat (n - 32) else c.

Fixpoint str_upper (s : string) : string :=
  match s with
  | EmptyString => EmptyString
  | String c s' => String (upper_char c) (str_upper s')
  end.

(** [sep.join(l)] *)
Fixpoint str_join (sep : string) (l : list string) : string :=
  match l with
  | [] => ""
  | x :: l' =>
      match l' with
      | [] => x
      | _ :: _ => x ++ sep ++ str_join sep l'
      end
  end.

Section Init.

(** [hashlib.sha256(s.encode()).hexdigest()] and [str] of a float, as an
    f-string renders it, are library functions. *)
Variable sha256_hex : string -> string.
Variable float_str : Qc -> string.

(** [time_now] is what [time.time()] returns. *)
Definition _generate_wallet (id : string) (time_now : Qc) (g : rng)
  : string * rng :=
  let (u, g1) := random_random g in
  let raw := id ++ "-" ++ float_str time_now ++ "-" ++ float_str u in
  (substring 0 38 (sha256_hex raw) ++ "RTC", g1).

(** [MinerSimulator(miner_id, arch)]; the identifiers of [uuid.uuid4()] are
    taken from the same source of bits as the other draws. *)
Definition MinerSimulator_init (miner_id_arg arch : option string)
           (time_now : Qc) (g : rng) : pyres MinerSimulator * rng :=
  let (key, g1) :=
    match arch with
    | Some a =>
        if negb (String.eqb a "") then (a, g)
        else random_choice "g4" (map fst ARCH_PROFILES) g
    | None => random_choice "g4" (map fst ARCH_PROFILES) g
    end in
  match assoc key ARCH_PROFILES with
  | None => (Raise (KeyError key), g1)
  | Some prof =>
      let (h1, g2) := uuid4_hex g1 in
      let unique_suffix := substring 0 8 h1 in
      let id :=
        match miner_id_arg with
        | Some m => if negb (String.eqb m "") then m
                    else "sim-" ++ key ++ "-" ++ unique_suffix
        | None => "sim-" ++ key ++ "-" ++ unique_suffix
        end in
      let (w, g3) := _generate_wallet id time_now g2 in
      let (h2, g4) := uuid4_hex g3 in
      let (bytes, g5) := draw_list (random_randint 0 255) 6 g4 in
      (Ok {| arch_key := key; sim_profile := prof; miner_id := id;
             wallet := w;
             serial := "SN-" ++ str_upper (substring 0 12 h2);
             hostname := "host-" ++ id;
             mac_address := str_join ":" (map (hex_digits 2) bytes) |}, g5)
  end.

End Init.

(** An argument that is given: not None and not the empty string. *)
Definition given (a : option string) : option string :=
  match a with
  | Some s => if String.eqb s "" then None else Some s
  | None => None
  end.

(** ** rustchain_dashboard_v2.py: the alert manager *)


Record AlertManager : Type := {
  mayday_triggered : bool;
  high_value_triggered : bool
}.

(** [AlertManager()] *)
Definition AlertManager_init : AlertManager :=
  {| mayday_triggered := false; high_value_triggered := false |}.




Section Alerts.

(** How an f-string renders [{enrolled}] and [{balance:.2f}]. *)
Variable py_str : pyval -> string.
Variable format_2f : pyval -> string.





End Alerts.


(** ** StressHarness.__init__ *)

(** [s.rstrip("/")] *)
Fixpoint rstrip_slash (s : string) : string :=
  match s with
  | EmptyString => EmptyString
  | String c s' =>
      match rstrip_slash s' with
      | EmptyString =>
          if Ascii.eqb c "/"%char then EmptyString else String c EmptyString
      | t => String c t
      end
  end.

(** The attributes of the harness that the run reads. *)
Record StressHarness : Type := {
  h_node_url : string;
  h_concurrency : nat;
  h_timeout : Z
}.

Definition StressHarness_init (url : string) (concurrency : nat) (timeout : Z)
  : StressHarness :=
  {| h_node_url := rstrip_slash url; h_concurrency := concurrency;
     h_timeout := timeout |}.

(** The endpoints a harness posts to. *)
Definition endpoints (h : StressHarness) : list string :=
  map snd (step_table (h_node_url h)).

(** [k] slashes *)
Fixpoint slashes (k : nat) : string :=
  match k with
  | O => ""
  | S k' => String "/"%char (slashes k')
  end.

(** ** Reading a corruption *)

(** The path of the field a corruption rewrites or removes. *)
Definition corruption_path (choice : string) : option (list string) :=
  if String.eqb choice "missing_nonce" then Some ["nonce"]
  else if String.eqb choice "bad_commitment" then Some ["report"; "commitment"]
  else if String.eqb choice "wrong_arch" then Some ["device"; "arch"]
  else None.

(** One path leads through the other: reading [p] sees a change at [q]. *)
Definition overlaps (p q : list string) : Prop :=
  p `prefix_of` q \/ q `prefix_of` p.

(** ** Orders used on the summary *)

#[local] Instance Qcle_total : Total Qcle.
Proof.
intros x y. destruct (Qclt_le_dec x y) as [H|H]; [left|right]; auto.
by apply Qclt_le_weak.
Defined.

#[local] Instance Qcle_transitive : Transitive Qcle.
Proof. intros x y z. apply Qcle_trans. Defined.

#[local] Instance Qcle_reflexive : Reflexive Qcle.
Proof. intros x. apply Qcle_refl. Defined.

#[local] Instance by_count_refl : Reflexive by_count.
Proof. intros x. unfold by_count. lia. Defined.

(** * Properties *)

Ltac fold_omap :=
  repeat match goal with
         | |- context [list_omap ?A ?B ?f ?l] =>
             change (list_omap A B f l) with (omap f l)
         end.

(** ** Arithmetic on [Qc] *)

Lemma Zc_0 : Zc 0 = 0%Qc.
Proof. apply Qc_is_canon. reflexivity. Qed.

Lemma Zc_eq_0 (z : Z) : Zc z = 0%Qc -> z = 0.
Proof.
  intros H. apply Q2Qc_eq_iff in H. unfold Qeq in H. simpl in H. lia.
Qed.

Lemma sum_c_app (l1 l2 : list Qc) : sum_c (l1 ++ l2) = (sum_c l1 + sum_c l2)%Qc.
Proof. induction l1 as [|x l1 IH]; simpl; [ring | rewrite IH; ring]. Qed.

(** ** Reading traces *)

Lemma answered_time_app (e1 e2 : list event) :
  answered_time (e1 ++ e2) = (answered_time e1 + answered_time e2)%Qc.
Proof. unfold answered_time. rewrite omap_app. apply sum_c_app. Qed.

Lemma elapsed_app (e1 e2 : list event) :
  elapsed (e1 ++ e2) = (elapsed e1 + elapsed e2)%Qc.
Proof. unfold elapsed. rewrite map_app. apply sum_c_app. Qed.

Lemma sleeps_app (e1 e2 : list event) : sleeps (e1 ++ e2) = (sleeps e1 ++ sleeps e2)%list.
Proof. unfold sleeps. apply omap_app. Qed.

Lemma posted_urls_app (e1 e2 : list event) :
  posted_urls (e1 ++ e2) = (posted_urls e1 ++ posted_urls e2)%list.
Proof. unfold posted_urls. apply omap_app. Qed.

Lemma posts_sent_post (w : world) (rq : request) (a : attempt) :
  posts_sent (advance (EvPost rq a) w) = S (posts_sent w).
Proof.
  unfold posts_sent, advance. simpl. rewrite filter_app, length_app. simpl. lia.
Qed.

Lemma posts_sent_sleep (w : world) (b : Z) :
  posts_sent (advance (EvSleep b) w) = posts_sent w.
Proof.
  unfold posts_sent, advance. simpl. rewrite filter_app, length_app. simpl. lia.
Qed.

(** ** The retry loop *)

Lemma step_effect_refl (name : string) (s : sess) : step_effect name [] s s.
Proof.
  split; simpl; auto.
  - by rewrite app_nil_r.
  - unfold elapsed. simpl. ring.
  - unfold answered_time. simpl. ring.
  - lia.
Qed.

Lemma step_effect_trans (name : string) (e1 e2 : list event) (s1 s2 s3 : sess) :
  step_effect name e1 s1 s2 -> step_effect name e2 s2 s3 ->
  step_effect name (e1 ++ e2) s1 s3.
Proof.
  intros [T1 S1 N1 G1 P1 O1 Z1 R1 U1 M1] [T2 S2 N2 G2 P2 O2 Z2 R2 U2 M2]. split.
  - rewrite T2, T1. by rewrite app_assoc.
  - congruence.
  - rewrite N2, N1, elapsed_app. ring.
  - congruence.
  - rewrite P2, P1, answered_time_app. ring.
  - intros k Hk. rewrite O2, O1; auto.
  - rewrite omap_app. intros H. apply app_eq_nil in H as [H1 H2].
    rewrite Z2, Z1; auto.
  - rewrite R2, R1, sleeps_app, length_app. lia.
  - congruence.
  - congruence.
Qed.

Ltac effect_by_computation :=
  split; simpl; auto; try lia; try discriminate;
  try (unfold elapsed, answered_time, step_time; simpl;
       rewrite ?lookup_insert_eq; simpl; ring);
  try (intros; by rewrite lookup_insert_ne).

Lemma step_time_insert (m : gmap string Qc) (name : string) (t : Qc) (s : stats) :
  step_time (set_steps (<[name := t]> m) s) name = t.
Proof. unfold step_time. simpl. by rewrite lookup_insert_eq. Qed.

Lemma answered_state_effect name rq d r s :
  step_effect name [EvPost rq (Answered d r)] s
              (answered_state name rq (Answered d r) d s).
Proof. effect_by_computation. Qed.

Lemma set_error_effect name evs e s s' :
  step_effect name evs s s' -> step_effect name evs s (with_stats (set_error e) s').
Proof. intros []. split; simpl; auto. Qed.

Section Attempt.

Variables (name url : string) (payload : pyval) (backoff : Z) (s : sess).

Local Abbreviation rq := (mk_request url payload).
Local Abbreviation a := (server (wld s) (posts_sent (wld s)) rq).

Lemma attempt_failed d e :
  a = Failed d e ->
  attempt_once name url payload backoff s =
  (Ok (Return PNone),
   with_stats (set_error (exn_str e)) (with_world (advance (EvPost rq a)) s)).
Proof.
  intros Ha. unfold attempt_once, bind, try_except, perf_counter, client_post.
  simpl. rewrite Ha. reflexivity.
Qed.

Lemma attempt_answered d r :
  a = Answered d r ->
  attempt_once name url payload backoff s =
  let s1 := answered_state name rq a d s in
  if ((status_code r =? 200) || (status_code r =? 400) || (status_code r =? 403))%Z
  then match resp_json r with
       | Ok v => (Ok (Return v), s1)
       | Raise e => (Ok (Return PNone), with_stats (set_error (exn_str e)) s1)
       end
  else if (status_code r =? 429)%Z
  then (Ok Continue,
        with_world (advance (EvSleep backoff))
                   (with_stats (fun t => set_retries (retries t + 1) t) s1))
  else (Ok (Return PNone),
        with_stats (set_error ("HTTP " ++ pretty (status_code r) ++ ": "
                                 ++ substring 0 50 (resp_text r))) s1).
Proof.
  intros Ha. unfold attempt_once, bind, try_except, perf_counter, client_post.
  simpl. rewrite Ha. simpl.
  destruct (status_code r =? 200)%Z eqn:E200; simpl.
  { destruct (resp_json r); reflexivity. }
  destruct (status_code r =? 400)%Z eqn:E400; simpl.
  { destruct (resp_json r); reflexivity. }
  destruct (status_code r =? 403)%Z eqn:E403; simpl.
  { destruct (resp_json r); reflexivity. }
  destruct (status_code r =? 429)%Z eqn:E429; reflexivity.
Qed.

End Attempt.

Lemma failed_state_effect name rq d e s :
  step_effect name [EvPost rq (Failed d e)] s
              (with_world (advance (EvPost rq (Failed d e))) s).
Proof. effect_by_computation. Qed.

Lemma throttled_state_effect name b s :
  step_effect name [EvSleep b] s
    (with_world (advance (EvSleep b))
                (with_stats (fun t => set_retries (retries t + 1) t) s)).
Proof. effect_by_computation. Qed.

Lemma only_posts_app rq e1 e2 :
  only_posts rq e1 -> only_posts rq e2 -> only_posts rq (e1 ++ e2).
Proof. unfold only_posts. intros. by apply Forall_app. Qed.

(** Whatever the node answers, the loop returns, and it accounts for every
    event it adds. *)
Lemma retry_loop_effect (name url : string) (payload : pyval) :
  forall (n : nat) (b : Z) (s : sess),
  exists v s' evs,
    retry_loop n b name url payload s = (Ok v, s')
    /\ step_effect name evs s s'
    /\ only_posts (mk_request url payload) evs.
Proof.
  induction n as [|n IH]; intros b s.
  - exists PNone, (with_stats (set_error "Max retries exceeded (429)") s), [].
    split; [reflexivity|]. split; [|constructor].
    apply set_error_effect, step_effect_refl.
  - simpl. unfold bind at 1.
    destruct (server (wld s) (posts_sent (wld s)) (mk_request url payload))
      as [d r|d e] eqn:Ha.
    + rewrite (attempt_answered name url payload b s d r Ha). cbv zeta.
      rewrite Ha.
      pose proof (answered_state_effect name (mk_request url payload) d r s) as E1.
      assert (O1 : only_posts (mk_request url payload)
                     [EvPost (mk_request url payload) (Answered d r)])
        by (repeat constructor).
      destruct ((status_code r =? 200) || (status_code r =? 400)
                || (status_code r =? 403))%Z.
      { destruct (resp_json r) as [v|e]; do 3 eexists; (split; [reflexivity|]);
          split; eauto using set_error_effect. }
      destruct (status_code r =? 429)%Z.
      * destruct (IH (b * 2) (with_world (advance (EvSleep b))
                   (with_stats (fun t => set_retries (retries t + 1) t)
                      (answered_state name (mk_request url payload)
                         (Answered d r) d s)))) as (v & s' & evs & Hrun & E3 & O3).
        exists v, s', ([EvPost (mk_request url payload) (Answered d r)]
                         ++ [EvSleep b] ++ evs)%list.
        split; [exact Hrun|]. split.
        -- eapply step_effect_trans; [exact E1|].
           eapply step_effect_trans; [apply throttled_state_effect | exact E3].
        -- apply only_posts_app; [exact O1|].
           apply only_posts_app; [repeat constructor | exact O3].
      * do 3 eexists. split; [reflexivity|]. split; eauto using set_error_effect.
    + rewrite (attempt_failed name url payload b s d e Ha). rewrite Ha.
      do 3 eexists. split; [reflexivity|]. split.
      * apply set_error_effect, failed_state_effect.
      * repeat constructor.
Qed.

Lemma answers_cons (w w' : world) (rq : request) (a : attempt) (atts : list attempt) :
  answers w rq (a :: atts) ->
  server w' = server w -> posts_sent w' = S (posts_sent w) ->
  server w (posts_sent w) rq = a /\ answers w' rq atts.
Proof.
  intros H Hs Hp. split.
  - specialize (H 0%nat a eq_refl). by rewrite Nat.add_0_r in H.
  - intros i x Hi. rewrite Hs, Hp.
    specialize (H (S i) x Hi). by rewrite Nat.add_succ_r in H.
Qed.

Lemma answers_app_l (w : world) (rq : request) (l1 l2 : list attempt) :
  answers w rq (l1 ++ l2) -> answers w rq l1.
Proof. intros H i a Hi. apply H. by apply lookup_app_l_Some. Qed.

Lemma posts_sent_effect name evs s s' :
  step_effect name evs s s' ->
  posts_sent (wld s') = (posts_sent (wld s) + length (posted_urls evs))%nat.
Proof.
  intros E. unfold posts_sent. rewrite (eff_trace _ _ _ _ E).
  rewrite filter_app, length_app. f_equal.
  clear. induction evs as [|[rq a|b] evs IH]; simpl; auto.
Qed.

Lemma posted_urls_throttled rq atts b :
  length (posted_urls (throttled rq atts b)) = length atts.
Proof. revert b. induction atts as [|a atts IH]; intros b; simpl; auto. Qed.

Lemma sleeps_throttled rq atts b :
  sleeps (throttled rq atts b) = doubling (length atts) b.
Proof.
  revert b. induction atts as [|a atts IH]; intros b; simpl; auto.
  unfold sleeps in *. simpl. by rewrite IH.
Qed.

Lemma length_doubling (n : nat) (b : Z) : length (doubling n b) = n.
Proof. revert b. induction n as [|n IH]; intros b; simpl; auto. Qed.

(** Each back-off is twice the one before it. *)
Lemma doubling_lookup (n : nat) (b : Z) (i : nat) :
  (i < n)%nat -> doubling n b !! i = Some (b * 2 ^ Z.of_nat i).
Proof.
  revert b i. induction n as [|n IH]; intros b i Hi; [lia|].
  destruct i as [|i]; simpl.
  - f_equal. lia.
  - rewrite IH by lia. f_equal.
    rewrite Nat2Z.inj_succ, Z.pow_succ_r by lia. lia.
Qed.

(** A run of 429 answers: the loop records each round trip, counts a retry,
    sleeps the current back-off and doubles it. *)
Lemma retry_loop_throttled (name url : string) (payload : pyval) :
  forall (atts : list attempt) (n : nat) (b : Z) (s : sess),
  Forall throttle atts ->
  answers (wld s) (mk_request url payload) atts ->
  exists s1,
    retry_loop (length atts + n) b name url payload s
    = retry_loop n (b * 2 ^ Z.of_nat (length atts)) name url payload s1
    /\ step_effect name (throttled (mk_request url payload) atts b) s s1
    /\ error (st s1) = error (st s).
Proof.
  induction atts as [|a atts IH]; intros n b s Hall Hans.
  - exists s. simpl. rewrite Z.mul_1_r.
    split; [reflexivity|]. split; [apply step_effect_refl | reflexivity].
  - apply Forall_cons in Hall as [Ha Hall].
    destruct a as [d r|d e]; [simpl in Ha | contradiction].
    set (rq := mk_request url payload) in *.
    set (s2 := with_world (advance (EvSleep b))
                 (with_stats (fun t => set_retries (retries t + 1) t)
                    (answered_state name rq (Answered d r) d s))).
    destruct (answers_cons (wld s) (wld s2) rq _ _ Hans) as [Hhd Htl].
    { reflexivity. }
    { subst s2. simpl. by rewrite posts_sent_sleep, posts_sent_post. }
    destruct (IH n (b * 2) s2 Hall Htl) as (s1 & Hrun & E & Herr).
    exists s1. split; [|split].
    + assert (Hb : b * 2 ^ Z.of_nat (length (Answered d r :: atts))
                   = b * 2 * 2 ^ Z.of_nat (length atts)).
      { simpl length. rewrite Nat2Z.inj_succ, Z.pow_succ_r by lia. lia. }
      rewrite Hb.
      change (length (Answered d r :: atts) + n)%nat with (S (length atts + n)).
      simpl. unfold bind at 1.
      rewrite (attempt_answered name url payload b s d r Hhd). cbv zeta.
      fold rq. rewrite Hhd, Ha. simpl. fold s2. exact Hrun.
    + change (throttled rq (Answered d r :: atts) b)
        with ([EvPost rq (Answered d r)] ++ [EvSleep b]
                ++ throttled rq atts (b * 2))%list.
      eapply step_effect_trans; [apply answered_state_effect|].
      eapply step_effect_trans; [apply throttled_state_effect | exact E].
    + rewrite Herr. reflexivity.
Qed.

(** After a run of 429 answers with attempts left, the loop makes one more
    request and the node's next answer decides. *)
Lemma retry_loop_last (name url : string) (payload : pyval)
      (atts : list attempt) (a : attempt) (n : nat) (b : Z) (s : sess) :
  Forall throttle atts ->
  answers (wld s) (mk_request url payload) (atts ++ [a]) ->
  exists s1,
    retry_loop (length atts + S n) b name url payload s
    = retry_loop (S n) (b * 2 ^ Z.of_nat (length atts)) name url payload s1
    /\ step_effect name (throttled (mk_request url payload) atts b) s s1
    /\ error (st s1) = error (st s)
    /\ server (wld s1) (posts_sent (wld s1)) (mk_request url payload) = a.
Proof.
  intros Hall Hans.
  destruct (retry_loop_throttled name url payload atts (S n) b s Hall
              (answers_app_l _ _ _ _ Hans)) as (s1 & Hrun & E & Herr).
  exists s1. split; [exact Hrun|]. split; [exact E|]. split; [exact Herr|].
  rewrite (eff_server _ _ _ _ E), (posts_sent_effect _ _ _ _ E),
    posted_urls_throttled.
  apply Hans. rewrite lookup_app_r by lia. by rewrite Nat.sub_diag.
Qed.

Lemma max_retries_split (k : nat) :
  (k < 5)%nat -> max_retries = (k + S (4 - k))%nat.
Proof. unfold max_retries. lia. Qed.

(** C3: against a node that answers 429 exactly k times (k < 5) and then 200,
    the step returns the parsed body, counts k retries, and its trace is the k
    throttled requests, each followed by a sleep that starts at the base delay
    and doubles, then the request that succeeds; when all 5 attempts are
    answered 429 the step returns None and records the retry-exhaustion error,
    which no HTTP-status error equals. *)
Theorem retry_policy (name url : string) (payload : pyval) (s : sess)
        (atts : list attempt) :
  Forall throttle atts ->
  let rq := mk_request url payload in
  (forall d r body,
      (length atts < 5)%nat ->
      answers (wld s) rq (atts ++ [Answered d r]) ->
      status_code r = 200 -> resp_json r = Ok body ->
      exists s',
        _perform_step_with_retry name url payload s = (Ok body, s')
        /\ retries (st s') = retries (st s) + Z.of_nat (length atts)
        /\ trace (wld s')
           = (trace (wld s) ++ throttled rq atts base_backoff
                ++ [EvPost rq (Answered d r)])%list
        /\ sleeps (throttled rq atts base_backoff)
           = doubling (length atts) base_backoff
        /\ (forall i, (i < length atts)%nat ->
              doubling (length atts) base_backoff !! i
              = Some (base_backoff * 2 ^ Z.of_nat i))
        /\ error (st s') = error (st s))
  /\ (length atts = 5%nat ->
      answers (wld s) rq atts ->
      exists s',
        _perform_step_with_retry name url payload s = (Ok PNone, s')
        /\ error (st s') = Some "Max retries exceeded (429)"
        /\ retries (st s') = retries (st s) + 5
        /\ trace (wld s') = (trace (wld s) ++ throttled rq atts base_backoff)%list
        /\ sleeps (throttled rq atts base_backoff) = [2; 4; 8; 16; 32]
        /\ forall d r, failure_text (Answered d r) <> "Max retries exceeded (429)").
Proof.
  intros Hall rq. subst rq. split.
  - intros d r body Hk Hans H200 Hbody.
    destruct (retry_loop_last name url payload atts (Answered d r)
                (4 - length atts) base_backoff s Hall Hans)
      as (s1 & Hrun & E & Herr & Hnext).
    exists (answered_state name (mk_request url payload) (Answered d r) d s1).
    unfold _perform_step_with_retry.
    rewrite (max_retries_split (length atts) Hk), Hrun.
    repeat split.
    + simpl. unfold bind at 1.
      rewrite (attempt_answered name url payload _ s1 d r Hnext). cbv zeta.
      rewrite Hnext, H200, Hbody. reflexivity.
    + simpl. rewrite (eff_retries _ _ _ _ E), sleeps_throttled.
      by rewrite length_doubling.
    + simpl. rewrite (eff_trace _ _ _ _ E). by rewrite <- app_assoc.
    + apply sleeps_throttled.
    + intros i Hi. by apply doubling_lookup.
    + simpl. exact Herr.
  - intros H5 Hans.
    destruct (retry_loop_throttled name url payload atts 0 base_backoff s
                Hall Hans) as (s1 & Hrun & E & Herr).
    exists (with_stats (set_error "Max retries exceeded (429)") s1).
    unfold _perform_step_with_retry.
    replace max_retries with (length atts + 0)%nat
      by (unfold max_retries; lia).
    rewrite Hrun. repeat split.
    + simpl. rewrite (eff_retries _ _ _ _ E), sleeps_throttled, length_doubling.
      lia.
    + simpl. apply (eff_trace _ _ _ _ E).
    + rewrite sleeps_throttled, H5. reflexivity.
    + intros d r. simpl. discriminate.
Qed.

Section SessionFacts.

Variable sha256_hex : string -> string.
Variable json_dumps_sorted : pyval -> string.
Variable py_str : pyval -> string.
Variable node_url : string.



End SessionFacts.

(** ** Accounting of time over a session *)

Lemma append_inj_l (p a b : string) : p ++ a = p ++ b -> a = b.
Proof. induction p as [|c p IH]; simpl; intros H; [exact H | injection H; auto]. Qed.

Lemma step_table_inj (node_url n1 u1 n2 u2 : string) :
  In (n1, u1) (step_table node_url) -> In (n2, u2) (step_table node_url) ->
  (n1 = n2 <-> u1 = u2).
Proof.
  unfold step_table, url_challenge, url_submit, url_enroll. simpl.
  intros [H1|[H1|[H1|[]]]] [H2|[H2|[H2|[]]]];
    injection H1 as <- <-; injection H2 as <- <-;
    split; intros H; try reflexivity; try discriminate H;
    apply append_inj_l in H; discriminate H.
Qed.

Lemma answered_at_app url e1 e2 :
  answered_at url (e1 ++ e2) = (answered_at url e1 + answered_at url e2)%Qc.
Proof. unfold answered_at. rewrite omap_app. apply sum_c_app. Qed.

Lemma elapsed_split (evs : list event) :
  elapsed evs = (answered_time evs + failed_time evs + sleep_time evs)%Qc.
Proof.
  unfold elapsed, answered_time, failed_time, sleep_time, sleeps.
  induction evs as [|[rq [d r|d e]|b] evs IH]; simpl; try rewrite IH;
    fold_omap; ring.
Qed.

(** The answered requests of a step all go to its endpoint. *)
Lemma only_posts_same url payload evs :
  only_posts (mk_request url payload) evs ->
  omap (answered_rtt_at url) evs = omap answered_rtt evs.
Proof.
  induction 1 as [|[rq [d r|d e]|b] evs Hx _ IH]; simpl; fold_omap; auto.
  rewrite Hx. simpl. rewrite String.eqb_refl. by rewrite IH.
Qed.

Lemma only_posts_other url url' payload evs :
  url <> url' ->
  only_posts (mk_request url payload) evs ->
  omap (answered_rtt_at url') evs = [].
Proof.
  intros Hne. induction 1 as [|[rq [d r|d e]|b] evs Hx _ IH]; simpl; fold_omap; auto.
  rewrite Hx. simpl. apply String.eqb_neq in Hne. by rewrite Hne.
Qed.

Section Tracking.

Variable node_url : string.

Lemma session_effect_refl (s : sess) : session_effect node_url [] s s.
Proof.
  split; simpl; auto.
  - by rewrite app_nil_r.
  - unfold elapsed. simpl. ring.
  - intros. unfold answered_at. simpl. ring.
Qed.

Lemma session_effect_trans e1 e2 s1 s2 s3 :
  session_effect node_url e1 s1 s2 -> session_effect node_url e2 s2 s3 ->
  session_effect node_url (e1 ++ e2) s1 s3.
Proof.
  intros [T1 S1 N1 P1 Z1] [T2 S2 N2 P2 Z2]. split.
  - rewrite T2, T1. by rewrite app_assoc.
  - congruence.
  - rewrite N2, N1, elapsed_app. ring.
  - intros name url Hin. rewrite (P2 _ _ Hin), (P1 _ _ Hin), answered_at_app. ring.
  - intros name url Hin. rewrite omap_app. intros H.
    apply app_eq_nil in H as [H1 H2]. rewrite (Z2 _ _ Hin H2).
    exact (Z1 _ _ Hin H1).
Qed.

(** A change of the stats that leaves the steps alone. *)
Lemma session_effect_stats (f : stats -> stats) (s : sess) :
  (forall t, steps (f t) = steps t) ->
  session_effect node_url [] s (with_stats f s).
Proof.
  intros Hf. split; simpl; auto.
  - by rewrite app_nil_r.
  - unfold elapsed. simpl. ring.
  - intros. unfold answered_at, step_time. simpl. rewrite Hf. ring.
  - intros. by rewrite Hf.
Qed.

Lemma tracked_ret {A} (a : A) : tracked node_url (ret a).
Proof. intros s. exists []. apply session_effect_refl. Qed.

Lemma tracked_lift {A} (r : pyres A) : tracked node_url (lift r).
Proof. intros s. exists []. apply session_effect_refl. Qed.

Lemma tracked_bind {A B} (m : M A) (f : A -> M B) :
  tracked node_url m -> (forall a, tracked node_url (f a)) ->
  tracked node_url (bind m f).
Proof.
  intros Hm Hf s. destruct (Hm s) as [e1 E1]. unfold bind.
  destruct (m s) as [[a|e] s1]; simpl in *.
  - destruct (Hf a s1) as [e2 E2]. exists (e1 ++ e2)%list.
    eapply session_effect_trans; eauto.
  - by exists e1.
Qed.

Lemma tracked_try_except {A} (m : M A) (h : exn -> M A) :
  tracked node_url m -> (forall e, tracked node_url (h e)) ->
  tracked node_url (try_except m h).
Proof.
  intros Hm Hh s. destruct (Hm s) as [e1 E1]. unfold try_except.
  destruct (m s) as [[a|e] s1]; simpl in *.
  - by exists e1.
  - destruct (Hh e s1) as [e2 E2]. exists (e1 ++ e2)%list.
    eapply session_effect_trans; eauto.
Qed.

Lemma tracked_modify (f : stats -> stats) :
  (forall t, steps (f t) = steps t) -> tracked node_url (modify_stats f).
Proof. intros Hf s. exists []. by apply session_effect_stats. Qed.

Lemma tracked_with_rng {A} (f : rng -> pyres A * rng) :
  tracked node_url (with_rng f).
Proof.
  intros s. exists []. unfold with_rng. destruct (f (gen s)) as [r g'].
  simpl. split; simpl; auto.
  - by rewrite app_nil_r.
  - unfold elapsed. simpl. ring.
  - intros. unfold answered_at. simpl. ring.
Qed.

Lemma tracked_step (name url : string) (payload : pyval) :
  In (name, url) (step_table node_url) ->
  tracked node_url (_perform_step_with_retry name url payload).
Proof.
  intros Hin s. unfold _perform_step_with_retry.
  destruct (retry_loop_effect name url payload max_retries base_backoff s)
    as (v & s' & evs & Hrun & E & O).
  exists evs. rewrite Hrun. simpl. split.
  - apply (eff_trace _ _ _ _ E).
  - apply (eff_server _ _ _ _ E).
  - apply (eff_now _ _ _ _ E).
  - intros name' url' Hin'.
    destruct (decide (name' = name)) as [->|Hne].
    + assert (url' = url) as -> by (by apply (step_table_inj node_url name url' name url)).
      rewrite (eff_step _ _ _ _ E). unfold answered_at, answered_time.
      by rewrite (only_posts_same _ _ _ O).
    + assert (url <> url').
      { intros ->. apply Hne. by apply (step_table_inj node_url name' url' name url'). }
      unfold step_time. rewrite (eff_other _ _ _ _ E) by done.
      unfold answered_at. rewrite (only_posts_other url url' payload evs) by done.
      simpl. ring.
  - intros name' url' Hin' Hnone.
    destruct (decide (name' = name)) as [->|Hne].
    + assert (url' = url) as -> by (by apply (step_table_inj node_url name url' name url)).
      rewrite (only_posts_same _ _ _ O) in Hnone.
      by rewrite (eff_none _ _ _ _ E).
    + by apply (eff_other _ _ _ _ E).
Qed.

End Tracking.

Ltac track :=
  repeat first
    [ apply tracked_ret
    | apply tracked_lift
    | apply tracked_with_rng
    | apply tracked_modify; reflexivity
    | apply tracked_step; simpl; tauto
    | apply tracked_bind; [|intros ?]
    | apply tracked_try_except; [|intros ?]
    | match goal with
      | |- tracked _ (if ?b then _ else _) => destruct b
      end ].

Section SessionTime.

Variable sha256_hex : string -> string.
Variable json_dumps_sorted : pyval -> string.
Variable py_str : pyval -> string.
Variable node_url : string.

Lemma tracked_session_try (sim : MinerSimulator) (malformed : bool) :
  tracked node_url
    (session_try sha256_hex json_dumps_sorted py_str node_url sim malformed).
Proof.
  unfold session_try, after_challenge, build_payload, after_submit,
    after_enroll, and_get, and_not_get, not_or_not_get.
  track.
Qed.

(** C10: in the outcome of a session, the time under a step's name is the
    sum of the round trips of the answered requests to that step's endpoint
    (429 answers included), with no entry when none was answered; sleeps
    and failed requests add nothing to it, and the total time is the wait
    for the gate plus every round trip, failed request and sleep. *)
Theorem step_times_accounted (sim : MinerSimulator) (fid : option string)
        (malformed : bool) (gate_wait : Qc) (g : rng) (w : world) :
  let '(outcome, _, _, w') :=
    run_miner_session sha256_hex json_dumps_sorted py_str node_url
                      sim fid malformed gate_wait g w in
  exists evs,
    trace w' = (trace w ++ evs)%list
    /\ (forall name url, In (name, url) (step_table node_url) ->
          step_time outcome name = answered_at url evs
          /\ (omap (answered_rtt_at url) evs = [] ->
              steps outcome !! name = None))
    /\ total_time outcome = (gate_wait + elapsed evs)%Qc
    /\ elapsed evs = (answered_time evs + failed_time evs + sleep_time evs)%Qc.
Proof.
  unfold run_miner_session.
  set (s0 := session_start sim fid malformed gate_wait g w).
  set (m := try_except _ _).
  assert (Hm : tracked node_url m).
  { subst m. apply tracked_try_except; [apply tracked_session_try|].
    intros e. apply tracked_modify. reflexivity. }
  destruct (Hm s0) as [evs E]. destruct (m s0) as [r s1]. simpl in E.
  exists evs. split; [apply (se_trace _ _ _ _ E)|]. split; [|split].
  - intros name url Hin. split.
    + change (step_time (set_total_time _ (st s1)) name)
        with (step_time (st s1) name).
      rewrite (se_steps _ _ _ _ E name url Hin).
      unfold step_time at 1. simpl. rewrite lookup_empty. simpl. ring.
    + intros Hnone. simpl. rewrite (se_absent _ _ _ _ E name url Hin Hnone).
      simpl. apply lookup_empty.
  - simpl. rewrite (se_now _ _ _ _ E). simpl. ring.
  - apply elapsed_split.
Qed.

End SessionTime.

(** ** Malformed sessions *)

Lemma only_posts_urls url payload evs :
  only_posts (mk_request url payload) evs ->
  Forall (fun u => u = url) (posted_urls evs).
Proof.
  induction 1 as [|[rq a|b] evs Hx _ IH]; simpl; fold_omap; auto.
  constructor; [by rewrite Hx | exact IH].
Qed.

Lemma step_run_effect name url payload s v s' :
  _perform_step_with_retry name url payload s = (Ok v, s') ->
  exists evs, step_effect name evs s s'
              /\ Forall (fun u => u = url) (posted_urls evs).
Proof.
  intros Hrun. unfold _perform_step_with_retry in Hrun.
  destruct (retry_loop_effect name url payload max_retries base_backoff s)
    as (v' & s'' & evs & Hrun' & E & O).
  rewrite Hrun in Hrun'. injection Hrun' as <- <-.
  exists evs. split; [exact E | by apply only_posts_urls in O].
Qed.

Lemma py_get_dict (d : pydict) (k : string) :
  py_get (PDict d) k = Ok (default PNone (dict_get k d)).
Proof. simpl. by destruct (dict_get k d). Qed.

Lemma bind_ok {A B} (m : M A) (f : A -> M B) (s : sess) (a : A) (s' : sess) :
  m s = (Ok a, s') -> bind m f s = f a s'.
Proof. unfold bind. by intros ->. Qed.

Section MalformedSession.

Variable sha256_hex : string -> string.
Variable json_dumps_sorted : pyval -> string.
Variable py_str : pyval -> string.
Variable node_url : string.


Lemma build_payload_world sim malformed nonce s r s' :
  build_payload sha256_hex json_dumps_sorted sim malformed nonce s = (r, s') ->
  wld s' = wld s /\ st s' = st s.
Proof.
  unfold build_payload, with_rng.
  destruct (if malformed then _ else _) as [r0 g']. intros [= <- <-]. auto.
Qed.


End MalformedSession.

(** ** Scenario set-up *)








(** ** Duplicate identities *)

(** [uuid] is not among the names harness.py binds, so the branch that
    forces duplicate identities stops at its second statement. *)
Lemma duplicates_raise_name_error (N : Z) (r : Qc) (test_malformed : bool) (g : rng) :
  (0 < r)%Qc ->
  scenario_setup N r test_malformed g = Raise (NameError "uuid").
Proof.
  intros Hr. unfold scenario_setup. rewrite decide_True by exact Hr. reflexivity.
Qed.

(** C1 (the code fails it): for 10 miners and a duplicate ratio of 0.2 the
    scenario set-up of [run_test] raises NameError on [uuid], whatever the
    random source and the malformed flag; so [run_test] raises it too: no
    identity is forced, no session is launched and no summary is made. *)
Theorem duplicate_run_raises (sha256_hex : string -> string)
        (json_dumps_sorted py_str : pyval -> string) (node_url : string)
        (launches : nat -> launch) (test_malformed : bool) (g : rng)
        (duration : Qc) :
  scenario_setup 10 (Q2Qc (2 # 10)) test_malformed g
  = Raise (Exn "NameError" "name 'uuid' is not defined")
  /\ run_test sha256_hex json_dumps_sorted py_str node_url launches
              10 (Q2Qc (2 # 10)) test_malformed g duration
     = Raise (Exn "NameError" "name 'uuid' is not defined").
Proof.
  assert (Hr : (0 < Q2Qc (2 # 10))%Qc) by reflexivity.
  unfold run_test. rewrite (duplicates_raise_name_error _ _ _ _ Hr).
  split; reflexivity.
Qed.

(** ** The summary *)

(** C8 (the code fails it): with zero miners, and also with a run of zero
    duration, [print_summary] raises ZeroDivisionError instead of returning
    a summary, whatever the results; a run of zero miners therefore ends in
    that exception. *)
Theorem summary_divides_by_zero (sha256_hex : string -> string)
        (json_dumps_sorted py_str : pyval -> string) (node_url : string)
        (launches : nat -> launch) (g : rng)
        (results : list stats) (N : Z) (d : Qc) :
  (exists e, print_summary results 0 d = Raise e
             /\ exn_kind e = "ZeroDivisionError")
  /\ (exists e, print_summary results N 0%Qc = Raise e
                /\ exn_kind e = "ZeroDivisionError")
  /\ (exists e, run_test sha256_hex json_dumps_sorted py_str node_url launches
                         0 0%Qc false g d = Raise e
                /\ exn_kind e = "ZeroDivisionError").
Proof.
  assert (H0 : forall rs, print_summary rs 0 d
                          = Raise (ZeroDivisionError "division by zero")).
  { intros rs. unfold print_summary, py_div.
    rewrite Zc_0. rewrite decide_True by reflexivity. reflexivity. }
  split; [|split].
  - rewrite H0. eexists. split; reflexivity.
  - unfold print_summary, py_div.
    destruct (decide (Zc N = 0%Qc)) as [|Hn]; [eexists; split; reflexivity|].
    unfold pyres_bind at 1. rewrite decide_True by reflexivity.
    eexists. split; reflexivity.
  - unfold run_test, scenario_setup.
    rewrite decide_False by (intros H; discriminate H).
    unfold pyres_bind at 1 2 3. unfold pyres_bind at 1. rewrite H0.
    eexists. split; reflexivity.
Qed.

Lemma length_py_sorted (l : list Qc) : length (py_sorted l) = length l.
Proof. unfold py_sorted. apply Permutation_length, merge_sort_Permutation. Qed.

(** [int(n * c)] for a non-negative decimal [c = k/100] is the floor of the
    exact product. *)
Lemma py_int_scaled (n : nat) (k : Z) :
  0 <= k ->
  py_int (Zc (Z.of_nat n) * Q2Qc (k # 100))%Qc = Z.of_nat n * k / 100.
Proof.
  intros Hk. unfold py_int.
  set (q := this (Zc (Z.of_nat n) * Q2Qc (k # 100))%Qc).
  assert (Hq : (q == inject_Z (Z.of_nat n) * (k # 100))%Q).
  { subst q. unfold Zc. simpl. rewrite !Qred_correct. reflexivity. }
  assert (Hpos : 0 <= Qnum q).
  { assert (H0 : (0 <= q)%Q).
    { rewrite Hq. apply Qmult_le_0_compat.
      - unfold Qle. simpl. lia.
      - unfold Qle. simpl. lia. }
    unfold Qle in H0. simpl in H0. lia. }
  rewrite Z.quot_div_nonneg by lia.
  clearbody q. destruct q as [qn qd]. simpl Qnum. simpl Qden.
  change (qn / Z.pos qd) with (Qfloor (qn # qd)).
  rewrite Hq. unfold Qfloor. simpl. f_equal.
Qed.

Lemma scaled_index_in_range (n : nat) (k : Z) :
  (0 < n)%nat -> 0 <= k < 100 -> (Z.to_nat (Z.of_nat n * k / 100) < n)%nat.
Proof.
  intros Hn Hk.
  assert (Z.of_nat n * k / 100 < Z.of_nat n).
  { apply Z.div_lt_upper_bound; nia. }
  assert (0 <= Z.of_nat n * k / 100) by (apply Z.div_pos; nia).
  lia.
Qed.

Lemma py_median_ok (l : list Qc) : l <> [] -> exists m, py_median l = Ok m.
Proof.
  intros Hl. unfold py_median. rewrite length_py_sorted.
  destruct l as [|x l]; [contradiction|]. simpl length.
  change (S (length l) =? 0)%nat with false. cbv iota.
  destruct (S (length l) mod 2 =? 1)%nat; eauto.
Qed.


(** ** The theorems at sample inputs *)


Lemma retry_policy_witness :
  exists s',
    _perform_step_with_retry "challenge" (url_challenge demo_url) (PDict [])
      (demo_start busy_node) = (Ok (PDict [("nonce", PStr "abc")]), s')
    /\ retries (st s') = 2
    /\ sleeps (throttled (mk_request (url_challenge demo_url) (PDict []))
                 throttled_twice base_backoff) = [2; 4].
Proof.
  assert (Hall : Forall throttle throttled_twice)
    by (repeat constructor).
  destruct (retry_policy "challenge" (url_challenge demo_url) (PDict [])
              (demo_start busy_node) throttled_twice Hall) as [H _].
  destruct (H (Zc 3) {| status_code := 200; resp_text := "";
                        resp_json := Ok (PDict [("nonce", PStr "abc")]) |}
              (PDict [("nonce", PStr "abc")]))
    as (s' & Hrun & Hret & _ & Hsl & _).
  - simpl. lia.
  - intros i a Hi. destruct i as [|[|[|i]]]; simpl in Hi; inversion Hi;
      reflexivity.
  - reflexivity.
  - reflexivity.
  - exists s'. split; [exact Hrun|]. split; [exact Hret | exact Hsl].
Defined.


(** ** The entropy report *)

Lemma rng_after_0 (g : rng) : rng_after 0 0 g = g.
Proof.
  destruct g. unfold rng_after. simpl. f_equal; lia.
Qed.

Lemma rng_after_bits (nb nn : nat) (g : rng) :
  rng_step_bits (rng_after nb nn g) = rng_after (S nb) nn g.
Proof. unfold rng_step_bits, rng_after. simpl. f_equal. lia. Qed.

Lemma rng_after_normals (nb nn : nat) (g : rng) :
  rng_step_normals (rng_after nb nn g) = rng_after nb (S nn) g.
Proof. unfold rng_step_normals, rng_after. simpl. f_equal. lia. Qed.

Lemma random_uniform_after (a b : Qc) (nb nn : nat) (g : rng) :
  random_uniform a b (rng_after nb nn g)
  = ((a + (b - a) * unit_draw g nb)%Qc, rng_after (S nb) nn g).
Proof.
  unfold random_uniform, random_random. by rewrite rng_after_bits.
Qed.

Lemma draw_gauss_after (mu sigma : Qc) (n : nat) :
  forall (nb nn : nat) (g : rng),
  draw_list (random_gauss mu sigma) n (rng_after nb nn g)
  = (map (fun i => (mu + normal_draw g i * sigma)%Qc) (seq nn n),
     rng_after nb (nn + n) g).
Proof.
  induction n as [|n IH]; intros nb nn g; simpl.
  - by rewrite Nat.add_0_r.
  - unfold random_gauss at 1. rewrite rng_after_normals, IH.
    f_equal. f_equal. lia.
Qed.

Lemma randbelow_after (n nb nn : nat) (g : rng) :
  randbelow n (rng_after nb nn g)
  = (Z.to_nat (rng_bits g (rng_nbits g + nb) mod Z.of_nat n),
     rng_after (S nb) nn g).
Proof. unfold randbelow. by rewrite rng_after_bits. Qed.

(** The report in closed form, for a nonce that is a string. *)
Lemma generate_entropy_report_eq (sha256_hex : string -> string)
      (json_dumps_sorted : pyval -> string) (sim : MinerSimulator)
      (n : string) (g : rng) :
  generate_entropy_report sha256_hex json_dumps_sorted sim (PStr n) g
  = (Ok (PDict
       [ ("nonce", PStr n);
         ("commitment",
          PStr (sha256_hex
                  (n ++ wallet sim
                     ++ json_dumps_sorted
                          (PDict (entropy_of (entropy_samples g)
                                             (entropy_variance g))))));
         ("derived", PDict (entropy_of (entropy_samples g) (entropy_variance g)));
         ("entropy_score", PFloat (entropy_variance g)) ]),
     rng_after 2 12 g).
Proof.
  unfold generate_entropy_report.
  rewrite <- (rng_after_0 g) at 1. rewrite random_uniform_after.
  rewrite draw_gauss_after, random_uniform_after.
  rewrite map_map. reflexivity.
Qed.










(** ** Well-formed and malformed payloads *)

Lemma random_choice_after {A : Type} (d : A) (l : list A) (nb nn : nat) (g : rng) :
  random_choice d l (rng_after nb nn g)
  = (nth (Z.to_nat (rng_bits g (rng_nbits g + nb) mod Z.of_nat (length l))) l d,
     rng_after (S nb) nn g).
Proof. unfold random_choice. by rewrite randbelow_after. Qed.

Lemma random_randint_after (a b : Z) (nb nn : nat) (g : rng) :
  random_randint a b (rng_after nb nn g)
  = (a + Z.of_nat (Z.to_nat (rng_bits g (rng_nbits g + nb)
                             mod Z.of_nat (Z.to_nat (b - a + 1)))),
     rng_after (S nb) nn g).
Proof. unfold random_randint. by rewrite randbelow_after. Qed.

Section Payloads.

Variable sha256_hex : string -> string.
Variable json_dumps_sorted : pyval -> string.

(** A hexadecimal digest of SHA-256 has 64 characters. *)
Hypothesis sha256_hex_length : forall s, String.length (sha256_hex s) = 64%nat.

Variable sim : MinerSimulator.
Hypothesis sim_ok : simulator_ok sim.

Lemma build_attestation_payload_eq (n : string) (g : rng) :
  exists e score cores memory_gb p95_ns,
    build_attestation_payload sha256_hex json_dumps_sorted sim (PStr n) g
    = (Ok (PDict (wellformed_fields sha256_hex json_dumps_sorted sim n e
                                    score cores memory_gb p95_ns)),
       rng_after 5 12 g).
Proof.
  unfold build_attestation_payload. rewrite generate_entropy_report_eq.
  rewrite !random_choice_after, random_randint_after.
  do 5 eexists. reflexivity.
Qed.

Lemma not_the_invalid_hash (s : string) :
  String.eqb "invalid_hash_value" (sha256_hex s) = false.
Proof.
  apply String.eqb_neq. intros H.
  pose proof (sha256_hex_length s) as Hl. rewrite <- H in Hl. discriminate Hl.
Qed.

Variables (n : string) (e : pydict) (score : pyval) (cores memory_gb p95_ns : Z).

Local Abbreviation payload :=
  (wellformed_fields sha256_hex json_dumps_sorted sim n e score
                     cores memory_gb p95_ns).
Local Abbreviation commitment :=
  (commitment_over sha256_hex json_dumps_sorted sim n e).

Lemma arch_lookup :
  match assoc (arch_key sim) ARCH_PROFILES with
  | Some p => String.eqb (prof_family p) (prof_family (sim_profile sim))
  | None => false
  end = true.
Proof. rewrite sim_ok. apply String.eqb_refl. Qed.

Lemma violations_of (d : pydict) (b1 b2 b3 b4 : bool) :
  nonce_present d = b1 ->
  commitment_reproducible sha256_hex json_dumps_sorted d = b2 ->
  arch_matches_family d = b3 ->
  checks_pass d = b4 ->
  violations sha256_hex json_dumps_sorted (PDict d)
  = ((if b1 then [] else [NoncePresent])
       ++ (if b2 then [] else [CommitmentReproducible])
       ++ (if b3 then [] else [ArchMatchesFamily])
       ++ (if b4 then [] else [ChecksPass]))%list.
Proof.
  intros <- <- <- <-. unfold violations. simpl.
  destruct (nonce_present d), (commitment_reproducible _ _ d),
    (arch_matches_family d), (checks_pass d); reflexivity.
Qed.

Lemma wellformed_no_violation :
  violations sha256_hex json_dumps_sorted (PDict payload) = [].
Proof.
  rewrite (violations_of payload true true true true); try reflexivity.
  - transitivity (String.eqb commitment commitment);
      [reflexivity | apply String.eqb_refl].
  - apply arch_lookup.
Qed.

Lemma missing_nonce_violation :
  exists r, corrupt "missing_nonce" payload = Ok r
            /\ violations sha256_hex json_dumps_sorted r = [NoncePresent].
Proof.
  exists (PDict (default [] (dict_del "nonce" payload))).
  split; [reflexivity|].
  rewrite (violations_of _ false true true true); try reflexivity.
  - transitivity (String.eqb commitment commitment);
      [reflexivity | apply String.eqb_refl].
  - apply arch_lookup.
Qed.

Lemma bad_commitment_violation :
  exists r, corrupt "bad_commitment" payload = Ok r
            /\ violations sha256_hex json_dumps_sorted r
               = [CommitmentReproducible].
Proof.
  eexists. split; [reflexivity|].
  rewrite (violations_of _ true false true true); try reflexivity.
  - transitivity (String.eqb "invalid_hash_value" commitment);
      [reflexivity | apply not_the_invalid_hash].
  - apply arch_lookup.
Qed.

Lemma wrong_arch_violation :
  exists r, corrupt "wrong_arch" payload = Ok r
            /\ violations sha256_hex json_dumps_sorted r = [ArchMatchesFamily].
Proof.
  eexists. split; [reflexivity|].
  rewrite (violations_of _ true true false true); try reflexivity.
  transitivity (String.eqb commitment commitment);
    [reflexivity | apply String.eqb_refl].
Qed.

Lemma corrupt_json_violation :
  exists r, corrupt "corrupt_json" payload = Ok r
            /\ violations sha256_hex json_dumps_sorted r = [Parsable].
Proof. eexists. split; reflexivity. Qed.

End Payloads.

Ltac nodup_by_cases :=
  repeat constructor;
  let H := fresh in
  intros H;
  repeat (apply elem_of_cons in H as [H|H]; [discriminate H|]);
  by apply elem_of_nil in H.

(** C2: a well-formed payload breaks no invariant: its encoding parses, its
    nonce is present, its commitment is the hash recomputed from its own
    fields, its arch belongs to its family and all its checks pass. Every
    malformed payload breaks exactly one invariant, the one its corruption
    targets; the corruption is the entry of the four-entry list at the drawn
    index (the draw modulo 4), and distinct indices target distinct
    invariants. *)
Theorem payload_invariants (sha256_hex : string -> string)
        (json_dumps_sorted : pyval -> string) (sim : MinerSimulator)
        (n : string) (g : rng) :
  (forall s, String.length (sha256_hex s) = 64%nat) ->
  simulator_ok sim ->
  let k := Z.to_nat (rng_bits g (rng_nbits g + 5) mod 4) in
  (exists p,
      fst (build_attestation_payload sha256_hex json_dumps_sorted sim (PStr n) g)
      = Ok p
      /\ violations sha256_hex json_dumps_sorted p = [])
  /\ (exists r choice target,
         fst (build_malformed_payload sha256_hex json_dumps_sorted sim (PStr n) g)
         = Ok r
         /\ corruptions !! k = Some choice
         /\ targets !! k = Some target
         /\ violations sha256_hex json_dumps_sorted r = [target]
         /\ length (violations sha256_hex json_dumps_sorted r) = 1%nat)
  /\ (k < 4)%nat
  /\ NoDup targets /\ NoDup corruptions
  /\ length corruptions = 4%nat /\ length targets = 4%nat.
Proof.
  intros Hlen Hsim k.
  destruct (build_attestation_payload_eq sha256_hex json_dumps_sorted sim n g)
    as (e & score & cores & memory_gb & p95_ns & Heq).
  assert (Hk : 0 <= rng_bits g (rng_nbits g + 5) mod 4 < 4)
    by (apply Z.mod_pos_bound; lia).
  split; [|split; [|split; [|split; [|split; [|split]]]]].
  - eexists. rewrite Heq. split; [reflexivity|].
    by apply wellformed_no_violation.
  - unfold build_malformed_payload. rewrite Heq, random_choice_after.
    change (Z.of_nat (length corruptions)) with 4. fold k. simpl fst.
    assert (Hcase : k = 0%nat \/ k = 1%nat \/ k = 2%nat \/ k = 3%nat)
      by (subst k; lia).
    destruct Hcase as [Hc|[Hc|[Hc|Hc]]]; rewrite Hc.
    + destruct (missing_nonce_violation sha256_hex json_dumps_sorted sim Hsim
                  n e score cores memory_gb p95_ns) as (r & Hr & Hv).
      exists r, "missing_nonce", NoncePresent. rewrite Hv. repeat split. exact Hr.
    + destruct (bad_commitment_violation sha256_hex json_dumps_sorted Hlen sim
                  Hsim n e score cores memory_gb p95_ns) as (r & Hr & Hv).
      exists r, "bad_commitment", CommitmentReproducible. rewrite Hv.
      repeat split. exact Hr.
    + destruct (wrong_arch_violation sha256_hex json_dumps_sorted sim
                  n e score cores memory_gb p95_ns) as (r & Hr & Hv).
      exists r, "wrong_arch", ArchMatchesFamily. rewrite Hv. repeat split. exact Hr.
    + destruct (corrupt_json_violation sha256_hex json_dumps_sorted sim
                  n e score cores memory_gb p95_ns) as (r & Hr & Hv).
      exists r, "corrupt_json", Parsable. rewrite Hv. repeat split. exact Hr.
  - subst k. lia.
  - unfold targets. nodup_by_cases.
  - unfold corruptions. nodup_by_cases.
  - reflexivity.
  - reflexivity.
Qed.

Lemma length_append (s1 s2 : string) :
  String.length (s1 ++ s2) = (String.length s1 + String.length s2)%nat.
Proof. induction s1 as [|c s1 IH]; simpl; auto. Qed.

Lemma length_hex_digits (n : nat) (z : Z) : String.length (hex_digits n z) = n.
Proof.
  revert z. induction n as [|n IH]; intros z; simpl; auto.
  rewrite length_append, IH. simpl. lia.
Qed.

Lemma payload_invariants_witness :
  (exists p,
      fst (build_attestation_payload demo_sha256 demo_dumps demo_sim
             (PStr "abc") demo_rng) = Ok p
      /\ violations demo_sha256 demo_dumps p = [])
  /\ exists r,
      fst (build_malformed_payload demo_sha256 demo_dumps demo_sim
             (PStr "abc") demo_rng) = Ok r
      /\ length (violations demo_sha256 demo_dumps r) = 1%nat.
Proof.
  assert (Hlen : forall s, String.length (demo_sha256 s) = 64%nat)
    by (intros s; apply length_hex_digits).
  assert (Hsim : simulator_ok demo_sim) by reflexivity.
  destruct (payload_invariants demo_sha256 demo_dumps demo_sim "abc" demo_rng
              Hlen Hsim) as (Hwell & (r & c & t & Hr & _ & _ & _ & Hone) & _).
  split; [exact Hwell|]. exists r. split; [exact Hr | exact Hone].
Defined.

(** ** The concurrency gate *)

Lemma count_where_app f l1 l2 :
  count_where f (l1 ++ l2) = (count_where f l1 + count_where f l2)%nat.
Proof. unfold count_where. by rewrite filter_app, length_app. Qed.

Lemma count_where_cons f p l :
  count_where f (p :: l) = ((if f p then 1 else 0) + count_where f l)%nat.
Proof.
  unfold count_where. rewrite filter_cons.
  destruct (decide (f p = true)) as [H|H];
    [rewrite H | apply not_true_is_false in H; rewrite H]; reflexivity.
Qed.

Lemma count_where_insert f l i q p :
  l !! i = Some q ->
  (count_where f (<[i := p]> l) + (if f q then 1 else 0))%nat
  = (count_where f l + (if f p then 1 else 0))%nat.
Proof.
  intros Hi.
  rewrite <- (take_drop_middle l i q Hi) at 2.
  rewrite insert_take_drop by (by eapply lookup_lt_Some).
  rewrite !count_where_app, !count_where_cons. lia.
Qed.

Lemma count_where_replicate_delayed f n :
  f Delayed = false -> count_where f (replicate n Delayed) = 0%nat.
Proof.
  intros Hf. induction n as [|n IH]; [reflexivity|].
  simpl replicate. rewrite count_where_cons, Hf, IH. reflexivity.
Qed.

Lemma in_flight_le_holding (l : list phase) :
  (count_where in_flight l <= count_where holds_permit l)%nat.
Proof.
  induction l as [|p l IH]; [reflexivity|].
  rewrite !count_where_cons. destruct p; simpl; lia.
Qed.

Lemma gate_inv_init (C N : nat) : gate_inv C N (gate_init C N).
Proof.
  split; simpl.
  - rewrite count_where_replicate_delayed by reflexivity. lia.
  - apply length_replicate.
Qed.

Lemma gate_inv_step (C N : nat) (s s' : gate) :
  gate_step s s' -> gate_inv C N s -> gate_inv C N s'.
Proof.
  intros Hstep [Hsum Hlen].
  destruct Hstep as [s i Hi|s i free Hi Hfree|s i Hi|s i Hi|s i Hi|s i Hi|s i Hi];
    (split; [|simpl; by rewrite length_insert]); simpl;
    pose proof (count_where_insert holds_permit _ _ _ Delayed Hi) as Hd;
    pose proof (count_where_insert holds_permit _ _ _ Queued Hi) as Hq;
    pose proof (count_where_insert holds_permit _ _ _ Idle Hi) as Hidle;
    pose proof (count_where_insert holds_permit _ _ _ InFlight Hi) as Hfl;
    pose proof (count_where_insert holds_permit _ _ _ Backoff Hi) as Hb;
    pose proof (count_where_insert holds_permit _ _ _ Finished Hi) as Hfin;
    simpl in *; lia.
Qed.

Lemma gate_inv_reachable (C N : nat) (s : gate) :
  reachable C N s -> gate_inv C N s.
Proof.
  unfold reachable. revert s.
  apply (rtc_ind_r (gate_inv C N)); [apply gate_inv_init|].
  intros y z _ Hstep IH. by eapply gate_inv_step.
Qed.

(** C9: in every state the run can reach, with any number of sessions, the
    sessions with a request in flight all hold a permit, and free permits plus
    holders equal the capacity C; so at most C requests are in flight. *)
Theorem in_flight_bounded (C N : nat) (s : gate) :
  reachable C N s ->
  (count_where in_flight (phases s) <= count_where holds_permit (phases s))%nat
  /\ (permits s + count_where holds_permit (phases s))%nat = C
  /\ (count_where in_flight (phases s) <= C)%nat
  /\ length (phases s) = N.
Proof.
  intros H. destruct (gate_inv_reachable C N s H) as [Hsum Hlen].
  pose proof (in_flight_le_holding (phases s)). repeat split; auto; lia.
Qed.

Lemma demo_gate_reachable : reachable 2 3 demo_gate.
Proof.
  unfold reachable, demo_gate.
  eapply rtc_l; [apply (step_wake _ 0%nat); reflexivity|].
  eapply rtc_l; [apply (step_acquire _ 0%nat 1%nat); reflexivity|].
  eapply rtc_l; [apply (step_send _ 0%nat); reflexivity|].
  apply rtc_refl.
Qed.

Lemma in_flight_bounded_witness :
  (count_where in_flight (phases demo_gate) <= 2)%nat.
Proof.
  destruct (in_flight_bounded 2 3 demo_gate demo_gate_reachable)
    as (_ & _ & H & _).
  exact H.
Defined.

(** * Further properties of the harness *)

(** ** The retry loop, whatever the node answers *)

(** The loop returns; it sends at least one and at most [n] requests; its
    sleeps are the first back-offs of the doubling sequence, one per retry;
    and a truthy result comes from an answered request, whose round trip is
    recorded. *)
Lemma retry_loop_bounds (name url : string) (payload : pyval) :
  forall (n : nat) (b : Z) (s : sess),
  exists v s' evs,
    retry_loop n b name url payload s = (Ok v, s')
    /\ step_effect name evs s s'
    /\ only_posts (mk_request url payload) evs
    /\ (length (posted_urls evs) <= n)%nat
    /\ (0 < n -> 0 < length (posted_urls evs))%nat
    /\ sleeps evs = doubling (length (sleeps evs)) b
    /\ (length (sleeps evs) <= length (posted_urls evs))%nat
    /\ (truthy v = true -> is_Some (steps (st s') !! name))
    /\ (is_Some (steps (st s) !! name) -> is_Some (steps (st s') !! name))
    /\ (truthy v = true -> error (st s') = error (st s)).
Proof.
  induction n as [|n IH]; intros b s.
  - exists PNone, (with_stats (set_error "Max retries exceeded (429)") s), [].
    split; [reflexivity|]. split; [apply set_error_effect, step_effect_refl|].
    split; [constructor|]. simpl. repeat split; auto; try lia; try discriminate.
  - simpl. unfold bind at 1.
    set (rq := mk_request url payload).
    destruct (server (wld s) (posts_sent (wld s)) rq) as [d r|d e] eqn:Ha.
    + rewrite (attempt_answered name url payload b s d r Ha). cbv zeta.
      fold rq. rewrite Ha.
      pose proof (answered_state_effect name rq d r s) as E1.
      assert (O1 : only_posts rq [EvPost rq (Answered d r)])
        by (repeat constructor).
      assert (Hins : is_Some (steps (st (answered_state name rq (Answered d r) d s))
                              !! name)).
      { simpl. rewrite lookup_insert_eq. eauto. }
      destruct ((status_code r =? 200) || (status_code r =? 400)
                || (status_code r =? 403))%Z.
      { destruct (resp_json r) as [v|e].
        - exists v, (answered_state name rq (Answered d r) d s),
            [EvPost rq (Answered d r)].
          split; [reflexivity|]. split; [exact E1|]. split; [exact O1|].
          simpl. repeat split; auto; try lia; try discriminate.
        - exists PNone,
            (with_stats (set_error (exn_str e))
                        (answered_state name rq (Answered d r) d s)),
            [EvPost rq (Answered d r)].
          split; [reflexivity|]. split; [by apply set_error_effect|].
          split; [exact O1|]. simpl. repeat split; auto; try lia; try discriminate. }
      destruct (status_code r =? 429)%Z.
      * set (s2 := with_world (advance (EvSleep b))
                     (with_stats (fun t => set_retries (retries t + 1) t)
                        (answered_state name rq (Answered d r) d s))).
        destruct (IH (b * 2) s2)
          as (v & s' & evs & Hrun & E3 & O3 & Hle & _ & Hsl & Hsp & Hv & Hkeep & Herr).
        exists v, s', ([EvPost rq (Answered d r)] ++ [EvSleep b] ++ evs)%list.
        split; [exact Hrun|]. split.
        { eapply step_effect_trans; [exact E1|].
          eapply step_effect_trans; [apply throttled_state_effect | exact E3]. }
        split.
        { apply only_posts_app; [exact O1|].
          apply only_posts_app; [repeat constructor | exact O3]. }
        rewrite !posted_urls_app, !sleeps_app, !length_app. simpl.
        split; [lia|]. split; [lia|]. split.
        { change (sleeps [EvPost rq (Answered d r)]) with (@nil Z).
          change (sleeps [EvSleep b]) with [b]. simpl. f_equal. exact Hsl. }
        split.
        { change (sleeps [EvPost rq (Answered d r)]) with (@nil Z).
          change (sleeps [EvSleep b]) with [b].
          change (posted_urls [EvPost rq (Answered d r)]) with [req_url rq].
          change (posted_urls [EvSleep b]) with (@nil string).
          simpl. lia. }
        split; [exact Hv|]. split; [intros _; apply Hkeep; exact Hins|].
        intros T. rewrite (Herr T). reflexivity.
      * exists PNone,
          (with_stats (set_error ("HTTP " ++ pretty (status_code r) ++ ": "
                                    ++ substring 0 50 (resp_text r)))
                      (answered_state name rq (Answered d r) d s)),
          [EvPost rq (Answered d r)].
        split; [reflexivity|]. split; [by apply set_error_effect|].
        split; [exact O1|]. simpl. repeat split; auto; try lia; try discriminate.
    + rewrite (attempt_failed name url payload b s d e Ha). fold rq. rewrite Ha.
      exists PNone,
        (with_stats (set_error (exn_str e))
                    (with_world (advance (EvPost rq (Failed d e))) s)),
        [EvPost rq (Failed d e)].
      split; [reflexivity|].
      split; [apply set_error_effect, failed_state_effect|].
      split; [repeat constructor|]. simpl. repeat split; auto; try lia; try discriminate.
Qed.

(** X1: whatever the node answers, a step returns without raising; it sends
    between one and five requests, all with the same URL and body; it sleeps
    at most once per request sent, the sleeps being the first of 2, 4, 8, 16,
    32 in that order; the retry counter grows by the number of sleeps; and a
    truthy result has its round trip recorded under the step's name. *)
Theorem step_requests_bounded (name url : string) (payload : pyval) (s : sess) :
  exists v s' evs k,
    _perform_step_with_retry name url payload s = (Ok v, s')
    /\ trace (wld s') = (trace (wld s) ++ evs)%list
    /\ only_posts (mk_request url payload) evs
    /\ (1 <= length (posted_urls evs) <= 5)%nat
    /\ (k <= length (posted_urls evs))%nat
    /\ sleeps evs = take k [2; 4; 8; 16; 32]
    /\ retries (st s') = retries (st s) + Z.of_nat k
    /\ (truthy v = true -> is_Some (steps (st s') !! name)).
Proof.
  destruct (retry_loop_bounds name url payload max_retries base_backoff s)
    as (v & s' & evs & Hrun & E & O & Hle & Hpos & Hsl & Hsp & Hv & _).
  exists v, s', evs, (length (sleeps evs)).
  split; [exact Hrun|]. split; [apply (eff_trace _ _ _ _ E)|].
  split; [exact O|]. unfold max_retries in *.
  split; [split; [apply Hpos; lia | exact Hle]|].
  split; [exact Hsp|]. split.
  - rewrite Hsl at 1. assert (Hk : (length (sleeps evs) <= 5)%nat) by lia.
    revert Hk. generalize (length (sleeps evs)). intros k Hk.
    do 6 (destruct k as [|k]; [reflexivity|]). lia.
  - split; [apply (eff_retries _ _ _ _ E) | exact Hv].
Qed.

(** X2: an answer 400 or 403 with a parsable body, after any run of 429s
    that leaves attempts, is returned as the step's result at once: no
    further request, no sleep after it, and no error is recorded. *)
Theorem rejection_not_retried (name url : string) (payload : pyval) (s : sess)
        (atts : list attempt) (d : Qc) (r : response) (body : pyval) :
  Forall throttle atts ->
  (length atts < 5)%nat ->
  answers (wld s) (mk_request url payload) (atts ++ [Answered d r]) ->
  status_code r = 400 \/ status_code r = 403 ->
  resp_json r = Ok body ->
  exists s',
    _perform_step_with_retry name url payload s = (Ok body, s')
    /\ trace (wld s')
       = (trace (wld s) ++ throttled (mk_request url payload) atts base_backoff
            ++ [EvPost (mk_request url payload) (Answered d r)])%list
    /\ error (st s') = error (st s)
    /\ retries (st s') = retries (st s) + Z.of_nat (length atts)
    /\ step_time (st s') name
       = (step_time (st s) name
          + answered_time (throttled (mk_request url payload) atts base_backoff)
          + d)%Qc.
Proof.
  intros Hall Hk Hans Hst Hbody.
  destruct (retry_loop_last name url payload atts (Answered d r)
              (4 - length atts) base_backoff s Hall Hans)
    as (s1 & Hrun & E & Herr & Hnext).
  exists (answered_state name (mk_request url payload) (Answered d r) d s1).
  unfold _perform_step_with_retry.
  rewrite (max_retries_split (length atts) Hk), Hrun.
  split; [|split; [|split; [|split]]].
  - simpl. unfold bind at 1.
    rewrite (attempt_answered name url payload _ s1 d r Hnext). cbv zeta.
    rewrite Hnext, Hbody.
    destruct Hst as [-> | ->]; reflexivity.
  - simpl. rewrite (eff_trace _ _ _ _ E). by rewrite <- app_assoc.
  - simpl. exact Herr.
  - simpl. rewrite (eff_retries _ _ _ _ E), sleeps_throttled.
    by rewrite length_doubling.
  - unfold answered_state. simpl st.
    rewrite step_time_insert, (eff_step _ _ _ _ E). ring.
Qed.

(** X3: when the body of a 200, 400 or 403 answer does not parse
    ([resp.json()] raises), the step returns None at once and records the
    exception's text as the error; the round trip of that answer is still
    counted in the step's time. *)
Theorem unparsable_body_fails (name url : string) (payload : pyval) (s : sess)
        (atts : list attempt) (d : Qc) (r : response) (e : exn) :
  Forall throttle atts ->
  (length atts < 5)%nat ->
  answers (wld s) (mk_request url payload) (atts ++ [Answered d r]) ->
  status_code r = 200 \/ status_code r = 400 \/ status_code r = 403 ->
  resp_json r = Raise e ->
  exists s',
    _perform_step_with_retry name url payload s = (Ok PNone, s')
    /\ error (st s') = Some (exn_str e)
    /\ trace (wld s')
       = (trace (wld s) ++ throttled (mk_request url payload) atts base_backoff
            ++ [EvPost (mk_request url payload) (Answered d r)])%list
    /\ step_time (st s') name
       = (step_time (st s) name
          + answered_time (throttled (mk_request url payload) atts base_backoff)
          + d)%Qc.
Proof.
  intros Hall Hk Hans Hst Hbody.
  destruct (retry_loop_last name url payload atts (Answered d r)
              (4 - length atts) base_backoff s Hall Hans)
    as (s1 & Hrun & E & Herr & Hnext).
  exists (with_stats (set_error (exn_str e))
            (answered_state name (mk_request url payload) (Answered d r) d s1)).
  unfold _perform_step_with_retry.
  rewrite (max_retries_split (length atts) Hk), Hrun.
  split; [|split; [|split]].
  - simpl. unfold bind at 1.
    rewrite (attempt_answered name url payload _ s1 d r Hnext). cbv zeta.
    rewrite Hnext, Hbody.
    destruct Hst as [-> | [-> | ->]]; reflexivity.
  - reflexivity.
  - simpl. rewrite (eff_trace _ _ _ _ E). by rewrite <- app_assoc.
  - unfold answered_state, with_stats, step_time. simpl.
    rewrite lookup_insert_eq. simpl.
    pose proof (eff_step _ _ _ _ E) as Hs. unfold step_time in Hs.
    rewrite Hs. ring.
Qed.

(** ** Sessions *)

Lemma step_facts (name url : string) (payload : pyval) (s : sess) :
  exists v s',
    _perform_step_with_retry name url payload s = (Ok v, s')
    /\ success (st s') = success (st s)
    /\ notes (st s') = notes (st s)
    /\ (forall k, k <> name -> steps (st s') !! k = steps (st s) !! k)
    /\ (truthy v = true -> is_Some (steps (st s') !! name))
    /\ (truthy v = true -> error (st s') = error (st s)).
Proof.
  destruct (retry_loop_bounds name url payload max_retries base_backoff s)
    as (v & s' & evs & Hrun & E & _ & _ & _ & _ & _ & Hv & _ & Herr).
  exists v, s'. split; [exact Hrun|].
  split; [apply (eff_success _ _ _ _ E)|].
  split; [apply (eff_notes _ _ _ _ E)|].
  split; [apply (eff_other _ _ _ _ E)|]. split; assumption.
Qed.

Lemma bind_raise {A B} (m : M A) (f : A -> M B) (s : sess) (e : exn)
      (s' : sess) :
  m s = (Raise e, s') -> bind m f s = (Raise e, s').
Proof. unfold bind. by intros ->. Qed.

Lemma bind_lift {A B} (r : pyres A) (f : A -> M B) (s : sess) :
  bind (lift r) f s = match r with Ok a => f a s | Raise e => (Raise e, s) end.
Proof. unfold bind, lift. by destruct r. Qed.

Lemma run_session_eq (sha256_hex : string -> string)
      (json_dumps_sorted py_str : pyval -> string) (node_url : string)
      (sim : MinerSimulator) (fid : option string) (malformed : bool)
      (gate_wait : Qc) (g : rng) (w : world) :
  run_miner_session sha256_hex json_dumps_sorted py_str node_url
                    sim fid malformed gate_wait g w
  = let '(r, s) := session_try sha256_hex json_dumps_sorted py_str node_url
                     (override_id sim fid) malformed
                     (session_start sim fid malformed gate_wait g w) in
    let s1 := after_try r s in
    (set_total_time (now (wld s1) - now w)%Qc (st s1),
     override_id sim fid, gen s1, wld s1).
Proof.
  unfold run_miner_session, try_except.
  destruct (session_try _ _ _ _ _ _ _) as [[u|e] s]; reflexivity.
Qed.

Section SessionOutcomes.

Variable sha256_hex : string -> string.
Variable json_dumps_sorted : pyval -> string.
Variable py_str : pyval -> string.
Variable node_url : string.

(** The [try] block sets success only after the steps it needs were
    answered, and then ends without an exception and without an error. *)
Lemma session_try_success (sim : MinerSimulator) (malformed : bool)
      (s0 : sess) (r : pyres unit) (s : sess) :
  success (st s0) = false -> steps (st s0) = ∅ ->
  session_try sha256_hex json_dumps_sorted py_str node_url sim malformed s0
  = (r, s) ->
  success (st s) = true ->
  r = Ok tt
  /\ error (st s) = error (st s0)
  /\ is_Some (steps (st s) !! "challenge")
  /\ is_Some (steps (st s) !! "submit")
  /\ (if malformed
      then steps (st s) !! "enroll" = None
           /\ notes (st s) = Some "Correctly rejected malformed payload"
      else is_Some (steps (st s) !! "enroll")
           /\ notes (st s) = notes (st s0)).
Proof.
  intros Hs0 Hsteps. unfold session_try.
  destruct (step_facts "challenge" (url_challenge node_url) (PDict []) s0)
    as (v1 & s1 & R1 & S1 & N1 & O1 & V1 & E1).
  rewrite (bind_ok _ _ _ _ _ R1). unfold after_challenge.
  destruct (truthy v1) eqn:T1; cbn [negb];
    [|unfold ret; intros [= <- <-]; congruence].
  rewrite bind_lift.
  destruct (py_get v1 "nonce") as [nonce|e]; [|intros [= <- <-]; congruence].
  destruct (build_payload sha256_hex json_dumps_sorted sim malformed nonce s1)
    as [[payload|e] s2] eqn:B;
    destruct (build_payload_world _ _ _ _ _ _ _ _ B) as [_ Hst];
    [|rewrite (bind_raise _ _ _ _ _ B); intros [= <- <-]; congruence].
  rewrite (bind_ok _ _ _ _ _ B).
  destruct (step_facts "submit" (url_submit node_url) payload s2)
    as (v3 & s3 & R3 & S3 & N3 & O3 & V3 & E3).
  rewrite (bind_ok _ _ _ _ _ R3).
  assert (Hch : is_Some (steps (st s3) !! "challenge")).
  { rewrite O3 by discriminate. rewrite Hst. by apply V1. }
  assert (Hen : steps (st s3) !! "enroll" = None).
  { rewrite O3 by discriminate. rewrite Hst, O1 by discriminate.
    rewrite Hsteps. apply lookup_empty. }
  assert (Hs3 : success (st s3) = false) by congruence.
  unfold after_submit. destruct malformed.
  - unfold and_not_get.
    destruct (truthy v3) eqn:T3;
      [|unfold bind, ret; intros [= <- <-]; congruence].
    assert (Her : error (st s3) = error (st s0))
      by (rewrite (E3 eq_refl), Hst; auto).
    unfold bind at 1. rewrite bind_lift.
    destruct (py_get v3 "ok") as [ok|e]; [|intros [= <- <-]; congruence].
    unfold ret. destruct (negb (truthy ok));
      [|intros [= <- <-]; congruence].
    unfold bind, modify_stats. intros [= <- <-] _. simpl.
    split; [reflexivity|]. split; [exact Her|]. split; [exact Hch|].
    split; [by apply V3|]. split; [exact Hen|reflexivity].
  - unfold not_or_not_get.
    destruct (truthy v3) eqn:T3; cbn [negb];
      [|unfold bind, ret; intros [= <- <-]; congruence].
    assert (Her : error (st s3) = error (st s0))
      by (rewrite (E3 eq_refl), Hst; auto).
    unfold bind at 1. rewrite bind_lift.
    destruct (py_get v3 "ok") as [ok|e]; [|intros [= <- <-]; congruence].
    unfold ret. destruct (negb (truthy ok)).
    { unfold modify_stats. intros [= <- <-]; simpl; congruence. }
    destruct (step_facts "enroll" (url_enroll node_url)
                (build_enroll_payload sim) s3)
      as (v5 & s5 & R5 & S5 & N5 & O5 & V5 & E5).
    rewrite (bind_ok _ _ _ _ _ R5). unfold after_enroll, and_get.
    destruct (truthy v5) eqn:T5;
      [|unfold bind, ret; intros [= <- <-]; congruence].
    unfold bind at 1. rewrite bind_lift.
    destruct (py_get v5 "ok") as [ok5|e]; [|intros [= <- <-]; congruence].
    unfold ret. destruct (truthy ok5).
    + unfold modify_stats. intros [= <- <-] _. simpl.
      rewrite !O5 by discriminate.
      split; [reflexivity|]. split; [rewrite (E5 eq_refl); exact Her|].
      split; [exact Hch|]. split; [by apply V3|]. split; [by apply V5|].
      rewrite N5, N3, Hst. exact N1.
    + unfold modify_stats. intros [= <- <-]. simpl. congruence.
Qed.

(** X4: a session reports success only after the node answered its
    challenge and its submission, and, outside malformed mode, its
    enrollment: each of these steps then has a recorded time, and no error
    is recorded. A malformed session that succeeds has no enroll entry and
    carries the note of a correct rejection; a well-formed one carries no
    note. *)
Theorem success_needs_answers (sim : MinerSimulator) (fid : option string)
        (malformed : bool) (gate_wait : Qc) (g : rng) (w : world) :
  let outcome :=
    fst (fst (fst (run_miner_session sha256_hex json_dumps_sorted py_str
                     node_url sim fid malformed gate_wait g w))) in
  success outcome = true ->
  is_Some (steps outcome !! "challenge")
  /\ is_Some (steps outcome !! "submit")
  /\ (if malformed
      then steps outcome !! "enroll" = None
           /\ notes outcome = Some "Correctly rejected malformed payload"
      else is_Some (steps outcome !! "enroll") /\ notes outcome = None)
  /\ error outcome = None.
Proof.
  intros outcome. subst outcome. rewrite run_session_eq.
  destruct (session_try _ _ _ _ _ _ _) as [r s] eqn:Hrun. cbv zeta.
  cbn [fst]. intros Hsucc.
  assert (Hs : success (st s) = true) by (destruct r; exact Hsucc).
  destruct (session_try_success _ _
              (session_start sim fid malformed gate_wait g w) _ _
              eq_refl eq_refl Hrun Hs)
    as (-> & He & H1 & H2 & H3).
  simpl. split; [exact H1|]. split; [exact H2|]. split; [|exact He].
  destruct malformed; exact H3.
Qed.

End SessionOutcomes.

Lemma rejection_not_retried_witness :
  exists s',
    _perform_step_with_retry "challenge" (url_challenge demo_url) (PDict [])
      (demo_start (refusing_node (PDict [("ok", PBool false)])))
    = (Ok (PDict [("ok", PBool false)]), s')
    /\ error (st s') = None
    /\ retries (st s') = 0.
Proof.
  destruct (rejection_not_retried "challenge" (url_challenge demo_url)
              (PDict []) (demo_start (refusing_node (PDict [("ok", PBool false)])))
              [] (Zc 2)
              {| status_code := 403; resp_text := "";
                 resp_json := Ok (PDict [("ok", PBool false)]) |}
              (PDict [("ok", PBool false)]))
    as (s' & Hrun & _ & Herr & Hret & _).
  - constructor.
  - simpl. lia.
  - intros i a Hi. destruct i as [|i]; simpl in Hi; inversion Hi. reflexivity.
  - right. reflexivity.
  - reflexivity.
  - exists s'. split; [exact Hrun|]. split; [exact Herr | exact Hret].
Defined.

Lemma unparsable_body_fails_witness :
  exists s',
    _perform_step_with_retry "challenge" (url_challenge demo_url) (PDict [])
      (demo_start garbled_node) = (Ok PNone, s')
    /\ error (st s')
       = Some "Expecting value: line 1 column 1 (char 0)".
Proof.
  destruct (unparsable_body_fails "challenge" (url_challenge demo_url)
              (PDict []) (demo_start garbled_node) [] (Zc 1) garbled_reply
              (Exn "JSONDecodeError" "Expecting value: line 1 column 1 (char 0)"))
    as (s' & Hrun & Herr & _).
  - constructor.
  - simpl. lia.
  - intros i a Hi. destruct i as [|i]; simpl in Hi; inversion Hi. reflexivity.
  - left. reflexivity.
  - reflexivity.
  - exists s'. split; [exact Hrun | exact Herr].
Defined.

Lemma success_needs_answers_witness :
  let outcome :=
    fst (fst (fst (run_miner_session demo_sha256 demo_dumps demo_str demo_url
                     demo_sim None false 0%Qc demo_rng
                     (demo_world accepting_node)))) in
  is_Some (steps outcome !! "enroll") /\ error outcome = None.
Proof.
  intros outcome.
  destruct (success_needs_answers demo_sha256 demo_dumps demo_str demo_url
              demo_sim None false 0%Qc demo_rng (demo_world accepting_node))
    as (_ & _ & [He _] & Herr).
  - vm_compute. reflexivity.
  - split; [exact He | exact Herr].
Defined.

(** ** Well-formed sessions after the submit step *)

Section AfterSubmit.

Variable sha256_hex : string -> string.
Variable json_dumps_sorted : pyval -> string.
Variable py_str : pyval -> string.
Variable node_url : string.

Lemma session_after_submit (sim : MinerSimulator) (fid : option string)
      (malformed : bool) (gate_wait : Qc) (g : rng) (w : world)
      (res : pyval) (s3 : sess) :
  reaches_submit_in sha256_hex json_dumps_sorted node_url sim fid malformed
                    gate_wait g w res s3 ->
  run_miner_session sha256_hex json_dumps_sorted py_str node_url
                    sim fid malformed gate_wait g w
  = (let '(r, s) := after_submit py_str node_url (override_id sim fid)
                      malformed res s3 in
     let s1 := after_try r s in
     (set_total_time (now (wld s1) - now w)%Qc (st s1),
      override_id sim fid, gen s1, wld s1))
  /\ success (st s3) = false.
Proof.
  intros (nonce_data & nonce & payload & s1 & s2 & H1 & Ht & Hn & Hp & H3).
  split.
  - rewrite run_session_eq. unfold session_try.
    rewrite (bind_ok _ _ _ _ _ H1). unfold after_challenge.
    rewrite Ht. cbn [negb]. rewrite bind_lift, Hn.
    rewrite (bind_ok _ _ _ _ _ Hp), (bind_ok _ _ _ _ _ H3). reflexivity.
  - destruct (step_run_effect _ _ _ _ _ _ H1) as (e1 & E1 & _).
    destruct (step_run_effect _ _ _ _ _ _ H3) as (e3 & E3 & _).
    destruct (build_payload_world _ _ _ _ _ _ _ _ Hp) as [_ Hst].
    rewrite (eff_success _ _ _ _ E3), Hst, (eff_success _ _ _ _ E1).
    reflexivity.
Qed.

(** X5: a well-formed session whose submit step returned a response object.
    If the object is empty or its ok field is not truthy, the session ends
    there: no enroll request is sent, success stays false, and a non-empty
    object is quoted in the error after the words Submit rejected. If ok is
    truthy the enroll step runs, and when it returns a response object the
    session succeeds exactly if that object's ok field is truthy; a
    non-empty object without it is quoted after Enroll failed. *)
Theorem wellformed_session_outcome (sim : MinerSimulator) (fid : option string)
        (gate_wait : Qc) (g : rng) (w : world) (d : pydict) (s3 : sess) :
  reaches_submit_in sha256_hex json_dumps_sorted node_url sim fid false
                    gate_wait g w (PDict d) s3 ->
  let '(outcome, _, _, w') :=
    run_miner_session sha256_hex json_dumps_sorted py_str node_url
                      sim fid false gate_wait g w in
  (truthy (ok_field d) = false ->
     success outcome = false
     /\ trace w' = trace (wld s3)
     /\ error outcome
        = if truthy (PDict d)
          then Some ("Submit rejected: " ++ py_str (PDict d))
          else error (st s3))
  /\ (truthy (ok_field d) = true ->
      forall (d5 : pydict) (s5 : sess),
        _perform_step_with_retry "enroll" (url_enroll node_url)
          (build_enroll_payload (override_id sim fid)) s3 = (Ok (PDict d5), s5) ->
        success outcome = truthy (ok_field d5)
        /\ trace w' = trace (wld s5)
        /\ error outcome
           = if truthy (ok_field d5) then error (st s5)
             else if truthy (PDict d5)
                  then Some ("Enroll failed: " ++ py_str (PDict d5))
                  else error (st s5)).
Proof.
  intros Hreach.
  destruct (session_after_submit sim fid false gate_wait g w (PDict d) s3 Hreach)
    as [Heq Hs3].
  rewrite Heq. clear Heq.
  destruct (after_submit py_str node_url (override_id sim fid) false
                         (PDict d) s3) as [r s] eqn:Hafter.
  cbv zeta. cbv iota beta.
  unfold after_submit, not_or_not_get in Hafter. split.
  - intros Hok. destruct d as [|kv d].
    + injection Hafter as <- <-. simpl. auto.
    + change (truthy (PDict (kv :: d))) with true in *. cbn [negb] in Hafter.
      unfold bind at 1 in Hafter. rewrite bind_lift, py_get_dict in Hafter.
      fold (ok_field (kv :: d)) in Hafter. rewrite Hok in Hafter.
      injection Hafter as <- <-. simpl. auto.
  - intros Hok d5 s5 H5.
    assert (Hd : truthy (PDict d) = true).
    { destruct d; [discriminate Hok | reflexivity]. }
    rewrite Hd in Hafter. cbn [negb] in Hafter.
    unfold bind at 1 in Hafter. rewrite bind_lift, py_get_dict in Hafter.
    fold (ok_field d) in Hafter. rewrite Hok in Hafter. unfold ret in Hafter.
    cbn [negb] in Hafter. rewrite (bind_ok _ _ _ _ _ H5) in Hafter.
    destruct (step_run_effect _ _ _ _ _ _ H5) as (e5 & E5 & _).
    pose proof (eff_success _ _ _ _ E5) as Hs5. rewrite Hs3 in Hs5.
    unfold after_enroll, and_get in Hafter. destruct d5 as [|kv d5].
    + injection Hafter as <- <-. simpl. auto.
    + change (truthy (PDict (kv :: d5))) with true in *.
      unfold bind at 1 in Hafter. rewrite bind_lift, py_get_dict in Hafter.
      fold (ok_field (kv :: d5)) in Hafter. unfold ret in Hafter.
      destruct (truthy (ok_field (kv :: d5)));
        injection Hafter as <- <-; simpl; auto.
Qed.

End AfterSubmit.

Lemma accepting_node_reaches_submit :
  reaches_submit_in demo_sha256 demo_dumps demo_url demo_sim None false 0%Qc
    demo_rng (demo_world accepting_node) (PDict [("ok", PBool true)])
    accepted_s3.
Proof.
  exists (PDict [("nonce", PStr "abc")]), (PStr "abc"),
    (match fst accepted_build with Ok p => p | Raise _ => PNone end),
    accepted_s1, (snd accepted_build).
  repeat split; vm_compute; reflexivity.
Qed.

Lemma wellformed_session_outcome_witness :
  success (fst (fst (fst (run_miner_session demo_sha256 demo_dumps demo_str
     demo_url demo_sim None false 0%Qc demo_rng (demo_world accepting_node)))))
  = true.
Proof.
  pose proof (wellformed_session_outcome demo_sha256 demo_dumps demo_str
                demo_url demo_sim None 0%Qc demo_rng
                (demo_world accepting_node) [("ok", PBool true)] accepted_s3
                accepting_node_reaches_submit) as H.
  destruct (run_miner_session _ _ _ _ _ _ _ _ _ _) as [[[outcome sim'] g'] w'].
  destruct H as [_ H].
  destruct (H eq_refl [("ok", PBool true)] accepted_s5) as [Hs _].
  - vm_compute. reflexivity.
  - simpl. exact Hs.
Defined.

(** ** A challenge reply without a usable nonce *)

Section BadNonce.

Variable sha256_hex : string -> string.
Variable json_dumps_sorted : pyval -> string.
Variable py_str : pyval -> string.
Variable node_url : string.

(** [nonce + self.wallet] needs a string on the left. *)
Lemma entropy_report_needs_text (sim : MinerSimulator) (nonce : pyval) (g : rng) :
  (forall n, nonce <> PStr n) ->
  exists e, fst (generate_entropy_report sha256_hex json_dumps_sorted sim nonce g)
            = Raise e
            /\ exn_kind e = "TypeError".
Proof.
  intros Hn. unfold generate_entropy_report.
  destruct (random_uniform (Zc 20000) (Zc 30000) g) as [b g1].
  destruct (draw_list (random_gauss 0%Qc (Zc 500)) 12 g1) as [j g2].
  destruct (random_uniform (Zc 100000) (Zc 500000) g2) as [v g3].
  destruct nonce; try (eexists; split; reflexivity).
  by destruct (Hn s).
Qed.

Lemma build_payload_needs_text (sim : MinerSimulator) (malformed : bool)
      (nonce : pyval) (s : sess) :
  (forall n, nonce <> PStr n) ->
  exists e s',
    build_payload sha256_hex json_dumps_sorted sim malformed nonce s
    = (Raise e, s')
    /\ exn_kind e = "TypeError" /\ st s' = st s /\ wld s' = wld s.
Proof.
  intros Hn.
  destruct (entropy_report_needs_text sim nonce (gen s) Hn) as (e & He & Hk).
  assert (Ha : exists g1,
             build_attestation_payload sha256_hex json_dumps_sorted sim nonce
               (gen s) = (Raise e, g1)).
  { unfold build_attestation_payload.
    destruct (generate_entropy_report _ _ _ _ _) as [[r|e0] g1];
      simpl in He; [discriminate He|].
    injection He as ->. by exists g1. }
  destruct Ha as [g1 Ha].
  exists e, {| st := st s; gen := g1; wld := wld s |}.
  split; [|auto].
  unfold build_payload, with_rng, build_malformed_payload.
  destruct malformed; rewrite Ha; reflexivity.
Qed.

(** X6: when the challenge reply is truthy but holds no string under the
    key nonce (the key is absent, its value is not a string, or the reply is
    not an object), the session stops before the submit step in either mode:
    no further request is sent, success stays false, and the error is the
    text of the TypeError or AttributeError raised. *)
Theorem nonce_must_be_text (sim : MinerSimulator) (fid : option string)
        (malformed : bool) (gate_wait : Qc) (g : rng) (w : world)
        (nonce_data : pyval) (s1 : sess) :
  _perform_step_with_retry "challenge" (url_challenge node_url) (PDict [])
    (session_start sim fid malformed gate_wait g w) = (Ok nonce_data, s1) ->
  truthy nonce_data = true ->
  (forall n, py_get nonce_data "nonce" <> Ok (PStr n)) ->
  let '(outcome, _, _, w') :=
    run_miner_session sha256_hex json_dumps_sorted py_str node_url
                      sim fid malformed gate_wait g w in
  success outcome = false
  /\ trace w' = trace (wld s1)
  /\ steps outcome !! "submit" = None
  /\ exists e, error outcome = Some (exn_str e)
               /\ (exn_kind e = "TypeError" \/ exn_kind e = "AttributeError").
Proof.
  intros H1 Ht Hn. rewrite run_session_eq. unfold session_try.
  rewrite (bind_ok _ _ _ _ _ H1). unfold after_challenge.
  rewrite Ht. cbn [negb]. rewrite bind_lift.
  destruct (step_run_effect _ _ _ _ _ _ H1) as (e1 & E1 & _).
  assert (Hsub : steps (st s1) !! "submit" = None).
  { rewrite (eff_other _ _ _ _ E1) by discriminate. apply lookup_empty. }
  pose proof (eff_success _ _ _ _ E1) as Hs1.
  destruct (py_get nonce_data "nonce") as [nonce|e] eqn:Hget.
  - destruct (build_payload_needs_text (override_id sim fid) malformed nonce s1)
      as (e & s2 & Hb & Hk & Hst & Hw).
    { intros n ->. by apply (Hn n). }
    rewrite (bind_raise _ _ _ _ _ Hb). simpl. rewrite Hst, Hw.
    split; [exact Hs1|]. split; [reflexivity|]. split; [exact Hsub|].
    exists e. auto.
  - simpl. split; [exact Hs1|]. split; [reflexivity|]. split; [exact Hsub|].
    exists e. split; [reflexivity|]. right.
    destruct nonce_data; simpl in Hget; try (injection Hget as <-; reflexivity).
    discriminate Hget.
Qed.

End BadNonce.

Lemma nonce_must_be_text_witness :
  let outcome :=
    fst (fst (fst (run_miner_session demo_sha256 demo_dumps demo_str demo_url
                     demo_sim None false 0%Qc demo_rng
                     (demo_world nonceless_node)))) in
  success outcome = false /\ steps outcome !! "submit" = None.
Proof.
  pose proof (nonce_must_be_text demo_sha256 demo_dumps demo_str demo_url
                demo_sim None false 0%Qc demo_rng (demo_world nonceless_node)
                (PDict [("ok", PBool true)])
                (snd (_perform_step_with_retry "challenge"
                        (url_challenge demo_url) (PDict [])
                        (session_start demo_sim None false 0%Qc demo_rng
                                       (demo_world nonceless_node))))) as H.
  destruct (run_miner_session _ _ _ _ _ _ _ _ _ _) as [[[outcome sim'] g'] w'].
  destruct H as (Hs & _ & Hsub & _).
  - vm_compute. reflexivity.
  - reflexivity.
  - intros n. simpl. discriminate.
  - simpl. split; [exact Hs | exact Hsub].
Defined.

(** ** The labels of a session record *)

Lemma keeps_ret {A} (a : A) : keeps_labels (ret a).
Proof. by intros s. Qed.

Lemma keeps_lift {A} (r : pyres A) : keeps_labels (lift r).
Proof. by intros s. Qed.

Lemma keeps_bind {A B} (m : M A) (f : A -> M B) :
  keeps_labels m -> (forall a, keeps_labels (f a)) -> keeps_labels (bind m f).
Proof.
  intros Hm Hf s. specialize (Hm s). unfold bind.
  destruct (m s) as [[a|e] s1]; simpl in *; [|exact Hm].
  by rewrite (Hf a s1).
Qed.

Lemma keeps_try_except {A} (m : M A) (h : exn -> M A) :
  keeps_labels m -> (forall e, keeps_labels (h e)) ->
  keeps_labels (try_except m h).
Proof.
  intros Hm Hh s. specialize (Hm s). unfold try_except.
  destruct (m s) as [[a|e] s1]; simpl in *; [exact Hm|].
  by rewrite (Hh e s1).
Qed.

Lemma keeps_modify (f : stats -> stats) :
  (forall t, labels (f t) = labels t) -> keeps_labels (modify_stats f).
Proof. intros Hf s. apply Hf. Qed.

Lemma keeps_with_rng {A} (f : rng -> pyres A * rng) : keeps_labels (with_rng f).
Proof. intros s. unfold with_rng. by destruct (f (gen s)). Qed.

Lemma keeps_perf_counter : keeps_labels perf_counter.
Proof. by intros s. Qed.

Lemma keeps_sleep (b : Z) : keeps_labels (sleep b).
Proof. by intros s. Qed.

Lemma keeps_client_post (url : string) (payload : pyval) :
  keeps_labels (client_post url payload).
Proof.
  intros s. unfold client_post.
  by destruct (server (wld s) (posts_sent (wld s)) (mk_request url payload)).
Qed.

Ltac keep :=
  repeat first
    [ apply keeps_ret
    | apply keeps_lift
    | apply keeps_with_rng
    | apply keeps_perf_counter
    | apply keeps_sleep
    | apply keeps_client_post
    | apply keeps_modify; reflexivity
    | apply keeps_bind; [|intros ?]
    | apply keeps_try_except; [|intros ?]
    | match goal with
      | |- keeps_labels (if ?b then _ else _) => destruct b
      | |- keeps_labels (match ?c with Return _ => _ | Continue => _ end) =>
          destruct c
      end ].

Lemma keeps_retry_loop (name url : string) (payload : pyval) :
  forall (n : nat) (b : Z), keeps_labels (retry_loop n b name url payload).
Proof.
  induction n as [|n IH]; intros b; simpl.
  - keep.
  - apply keeps_bind.
    + unfold attempt_once. keep.
    + intros [v|]; [keep | apply IH].
Qed.

Section Labels.

Variable sha256_hex : string -> string.
Variable json_dumps_sorted : pyval -> string.
Variable py_str : pyval -> string.
Variable node_url : string.

Lemma keeps_session_try (sim : MinerSimulator) (malformed : bool) :
  keeps_labels
    (session_try sha256_hex json_dumps_sorted py_str node_url sim malformed).
Proof.
  unfold session_try, after_challenge, build_payload, after_submit,
    after_enroll, and_get, and_not_get, not_or_not_get,
    _perform_step_with_retry.
  repeat first [ apply keeps_retry_loop | progress keep ].
Qed.

Lemma session_labels (sim : MinerSimulator) (fid : option string)
      (malformed : bool) (gate_wait : Qc) (g : rng) (w : world) :
  let '(outcome, sim', _, _) :=
    run_miner_session sha256_hex json_dumps_sorted py_str node_url
                      sim fid malformed gate_wait g w in
  sim' = override_id sim fid
  /\ labels outcome
     = (miner_id (override_id sim fid),
        match fid with Some _ => true | None => false end, malformed).
Proof.
  rewrite run_session_eq.
  pose proof (keeps_session_try (override_id sim fid) malformed
                (session_start sim fid malformed gate_wait g w)) as H.
  destruct (session_try _ _ _ _ _ _ _) as [[u|e] s]; simpl in *;
    (split; [reflexivity|]); exact H.
Qed.

(** X7: whatever the node answers, the record a session returns keeps the
    labels it was created with: the simulator's identifier after the
    override, the duplicate flag and the malformed flag. A forced
    identifier replaces only the simulator's miner_id: wallet, serial, host
    name and MAC address stay the simulator's own; and an empty forced
    identifier is not applied although the record is flagged duplicate. *)
Theorem session_keeps_labels (sim : MinerSimulator) (fid : option string)
        (malformed : bool) (gate_wait : Qc) (g : rng) (w : world) :
  let '(outcome, sim', _, _) :=
    run_miner_session sha256_hex json_dumps_sorted py_str node_url
                      sim fid malformed gate_wait g w in
  st_miner_id outcome = miner_id sim'
  /\ miner_id sim' = match fid with
                     | Some id => if String.eqb id "" then miner_id sim else id
                     | None => miner_id sim
                     end
  /\ is_duplicate outcome = bool_decide (fid <> None)
  /\ is_malformed outcome = malformed
  /\ wallet sim' = wallet sim /\ serial sim' = serial sim
  /\ hostname sim' = hostname sim /\ mac_address sim' = mac_address sim
  /\ arch_key sim' = arch_key sim /\ sim_profile sim' = sim_profile sim.
Proof.
  pose proof (session_labels sim fid malformed gate_wait g w) as H.
  destruct (run_miner_session _ _ _ _ _ _ _ _ _ _) as [[[outcome sim'] g'] w'].
  destruct H as [-> H]. unfold labels in H. injection H as H1 H2 H3.
  split; [exact H1|]. split.
  { destruct fid as [id|]; [|reflexivity]. simpl.
    by destruct (String.eqb id ""). }
  split; [rewrite H2; by destruct fid|]. split; [exact H3|].
  destruct fid as [id|]; [|by repeat split]. simpl.
  destruct (String.eqb id ""); by repeat split.
Qed.

End Labels.

(** ** The summary, for any results *)

Lemma py_sorted_sorted (l : list Qc) : StronglySorted Qcle (py_sorted l).
Proof. unfold py_sorted. apply StronglySorted_merge_sort; apply _. Qed.

Lemma py_sorted_elem (l : list Qc) (i : nat) (x : Qc) :
  py_sorted l !! i = Some x -> In x l.
Proof.
  intros H. apply list_elem_of_In.
  rewrite <- (merge_sort_Permutation Qcle l).
  by apply list_elem_of_lookup_2 in H.
Qed.

Lemma strongly_sorted_lookup {A : Type} (R : relation A) `{!Reflexive R}
      (l : list A) :
  StronglySorted R l ->
  forall (i j : nat) (x y : A),
    (i <= j)%nat -> l !! i = Some x -> l !! j = Some y -> R x y.
Proof.
  induction 1 as [|a l Hs IH Hall]; intros i j x y Hij Hi Hj.
  - discriminate Hi.
  - destruct i as [|i], j as [|j]; simpl in *.
    + injection Hi as <-. injection Hj as <-. reflexivity.
    + injection Hi as <-.
      rewrite List.Forall_forall in Hall. apply Hall.
      apply list_elem_of_In. by apply list_elem_of_lookup_2 in Hj.
    + lia.
    + apply (IH i j); auto. lia.
Qed.

Lemma half_between (a b : Qc) :
  (a <= b)%Qc -> (a <= (a + b) / Zc 2)%Qc /\ ((a + b) / Zc 2 <= b)%Qc.
Proof.
  intros Hab.
  assert (H2 : (Q2Qc 0 < Zc 2)%Qc) by reflexivity.
  assert (Hm : ((a + b) / Zc 2 * Zc 2 = a + b)%Qc).
  { field. intros H. discriminate H. }
  assert (Htwo : Zc 2 = (1 + 1)%Qc) by (apply Qc_is_canon; reflexivity).
  split; apply (Qcmult_le_mono_pos_r _ _ (Zc 2) H2); rewrite Hm.
  - replace (a * Zc 2)%Qc with (a + a)%Qc by (rewrite Htwo; ring).
    apply Qcplus_le_compat; [apply Qcle_refl | exact Hab].
  - replace (b * Zc 2)%Qc with (b + b)%Qc by (rewrite Htwo; ring).
    apply Qcplus_le_compat; [exact Hab | apply Qcle_refl].
Qed.

(** The median lies between the two middle elements of the sorted data. *)
Lemma py_median_between (l : list Qc) (m : Qc) :
  py_median l = Ok m ->
  exists a b,
    py_sorted l !! ((length l - 1) / 2)%nat = Some a
    /\ py_sorted l !! (length l / 2)%nat = Some b
    /\ (a <= m)%Qc /\ (m <= b)%Qc.
Proof.
  unfold py_median. rewrite length_py_sorted.
  set (n := length l). set (s := py_sorted l).
  assert (Hlen : length s = n) by apply length_py_sorted.
  destruct (n =? 0)%nat eqn:H0; [discriminate|].
  apply Nat.eqb_neq in H0.
  assert (Hhalf : (n / 2 < n)%nat) by (apply Nat.div_lt; lia).
  destruct (lookup_lt_is_Some_2 s (n / 2)) as [b Hb]; [lia|].
  destruct (n mod 2 =? 1)%nat eqn:Hodd.
  - apply Nat.eqb_eq in Hodd. intros Hm.
    apply (f_equal (fun r => match r with Ok v => v | Raise _ => 0%Qc end)) in Hm.
    cbv beta iota in Hm. subst m.
    assert (Heq : ((n - 1) / 2 = n / 2)%nat).
    { pose proof (Nat.div_mod_eq n 2). pose proof (Nat.div_mod_eq (n - 1) 2).
      pose proof (Nat.mod_upper_bound (n - 1) 2). lia. }
    rewrite nth_lookup, Hb. exists b, b. rewrite Heq.
    split; [exact Hb|]. split; [reflexivity|]. split; apply Qcle_refl.
  - apply Nat.eqb_neq in Hodd. cbv zeta. intros Hm.
    apply (f_equal (fun r => match r with Ok v => v | Raise _ => 0%Qc end)) in Hm.
    cbv beta iota in Hm. subst m.
    assert (Heq : ((n - 1) / 2 = n / 2 - 1)%nat).
    { pose proof (Nat.div_mod_eq n 2). pose proof (Nat.div_mod_eq (n - 1) 2).
      pose proof (Nat.mod_upper_bound (n - 1) 2).
      pose proof (Nat.mod_upper_bound n 2). lia. }
    destruct (lookup_lt_is_Some_2 s (n / 2 - 1)) as [a Ha]; [lia|].
    rewrite !nth_lookup, Ha, Hb. exists a, b. rewrite Heq.
    split; [exact Ha|]. split; [reflexivity|].
    change (default 0%Qc (Some a)) with a. change (default 0%Qc (Some b)) with b.
    apply half_between.
    apply (strongly_sorted_lookup Qcle s (py_sorted_sorted l) (n / 2 - 1) (n / 2));
      auto; lia.
Qed.

(** What the percentile lines hold, for any list of total times. *)
Lemma latency_lines_spec (times : list Qc) :
  (times = [] /\ latency_lines times = Ok (None, None, None))
  \/ exists m,
       py_median times = Ok m
       /\ ((length times = 1%nat
            /\ latency_lines times = Ok (Some m, None, None))
           \/ exists p95 p99,
                (1 < length times)%nat
                /\ py_sorted times
                   !! Z.to_nat (Z.of_nat (length times) * 95 / 100) = Some p95
                /\ py_sorted times
                   !! Z.to_nat (Z.of_nat (length times) * 99 / 100) = Some p99
                /\ latency_lines times = Ok (Some m, Some p95, Some p99)).
Proof.
  destruct times as [|t ts] eqn:Et; [left; auto|]. right.
  rewrite <- Et. assert (Hne : times <> []) by (rewrite Et; discriminate).
  assert (Hpos : (0 < length times)%nat) by (rewrite Et; simpl; lia).
  clear Et. destruct (py_median_ok times Hne) as [m Hm]. exists m.
  split; [exact Hm|].
  assert (Hlat : latency_lines times
                 = pyres_bind (py_median times) (fun p50 =>
                     if (1 <? length times)%nat then
                       let sorted_times := py_sorted times in
                       pyres_bind (py_index sorted_times
                                     (py_int (len_c sorted_times * c095)%Qc))
                         (fun p95 =>
                       pyres_bind (py_index sorted_times
                                     (py_int (len_c sorted_times * c099)%Qc))
                         (fun p99 => Ok (Some p50, Some p95, Some p99)))
                     else Ok (Some p50, None, None))).
  { destruct times; [contradiction | reflexivity]. }
  rewrite Hlat, Hm. unfold pyres_bind at 1.
  destruct (1 <? length times)%nat eqn:H1.
  - apply Nat.ltb_lt in H1. right.
    assert (H95 : py_int (len_c (py_sorted times) * c095)%Qc
                  = Z.of_nat (length times) * 95 / 100).
    { unfold len_c, c095. rewrite length_py_sorted. by apply py_int_scaled. }
    assert (H99 : py_int (len_c (py_sorted times) * c099)%Qc
                  = Z.of_nat (length times) * 99 / 100).
    { unfold len_c, c099. rewrite length_py_sorted. by apply py_int_scaled. }
    destruct (lookup_lt_is_Some_2 (py_sorted times)
                (Z.to_nat (Z.of_nat (length times) * 95 / 100))) as [p95 Hp95].
    { rewrite length_py_sorted. apply scaled_index_in_range; lia. }
    destruct (lookup_lt_is_Some_2 (py_sorted times)
                (Z.to_nat (Z.of_nat (length times) * 99 / 100))) as [p99 Hp99].
    { rewrite length_py_sorted. apply scaled_index_in_range; lia. }
    exists p95, p99. split; [exact H1|]. split; [exact Hp95|].
    split; [exact Hp99|]. cbv zeta. unfold py_index.
    rewrite H95, H99, Hp95, Hp99. reflexivity.
  - apply Nat.ltb_ge in H1. left. split; [lia | reflexivity].
Qed.

Lemma latency_lines_ok (times : list Qc) :
  exists p, latency_lines times = Ok p.
Proof.
  destruct (latency_lines_spec times)
    as [[_ H]|(m & _ & [[_ H]|(p95 & p99 & _ & _ & _ & H)])]; eauto.
Qed.

Lemma print_summary_ok (results : list stats) (N : Z) (d : Qc) :
  N <> 0 -> d <> 0%Qc -> exists sm, print_summary results N d = Ok sm.
Proof.
  intros HN Hd. unfold print_summary, py_div.
  destruct (decide (Zc N = 0%Qc)) as [HN'|_].
  { by apply Zc_eq_0 in HN'. }
  destruct (decide (d = 0%Qc)) as [|_]; [contradiction|].
  unfold pyres_bind at 1 2.
  destruct (latency_lines_ok (map total_time results)) as [[[p50 p95] p99] ->].
  eexists. reflexivity.
Qed.

(** X8: print_summary produces a summary exactly when the miner count and
    the duration are both non-zero, whatever the results are (also for no
    result at all). *)
Theorem summary_defined_iff (results : list stats) (N : Z) (d : Qc) :
  (exists sm, print_summary results N d = Ok sm) <-> (N <> 0 /\ d <> 0%Qc).
Proof.
  split.
  - unfold print_summary, py_div. intros [sm H].
    destruct (decide (Zc N = 0%Qc)) as [HN|HN]; [discriminate H|].
    destruct (decide (d = 0%Qc)) as [Hd|Hd]; [discriminate H|].
    split; [|exact Hd]. intros ->. by apply HN.
  - intros [HN Hd]. by apply print_summary_ok.
Qed.



(** The fields of a summary that was produced. *)
Lemma print_summary_fields (results : list stats) (N : Z) (d : Qc) (sm : summary) :
  print_summary results N d = Ok sm ->
  N <> 0 /\ d <> 0%Qc
  /\ latency_lines (map total_time results)
     = Ok (sum_p50 sm, sum_p95 sm, sum_p99 sm)
  /\ sum_successes sm = length (filter (fun r => success r = true) results)
  /\ sum_success_rate sm
     = (len_c (filter (fun r => success r = true) results) / Zc N * Zc 100)%Qc
  /\ sum_throughput sm
     = (len_c (filter (fun r => success r = true) results) / d)%Qc
  /\ sum_step_avgs sm = step_avgs results
  /\ sum_top_errors sm
     = top_errors (filter (fun r => success r = false) results).
Proof.
  unfold print_summary, py_div. intros H.
  destruct (decide (Zc N = 0%Qc)) as [HN|HN]; [discriminate H|].
  destruct (decide (d = 0%Qc)) as [Hd|Hd]; [discriminate H|].
  unfold pyres_bind at 1 2 in H.
  destruct (latency_lines (map total_time results)) as [[[p50 p95] p99]|e];
    [|discriminate H].
  unfold pyres_bind in H. injection H as <-. simpl.
  split; [intros ->; by apply HN|]. split; [exact Hd|]. repeat split.
Qed.

Lemma half_le_scaled (n : nat) (k : Z) :
  50 <= k ->
  (n / 2 <= Z.to_nat (Z.of_nat n * k / 100))%nat.
Proof.
  intros Hk.
  assert (H : Z.of_nat (n / 2) <= Z.of_nat n * k / 100).
  { rewrite Nat2Z.inj_div. change (Z.of_nat 2) with 2.
    rewrite <- (Z.div_mul_cancel_r (Z.of_nat n) 2 50) by lia.
    apply Z.div_le_mono; nia. }
  lia.
Qed.

(** X9: the percentiles of a summary are ordered, p50 <= p95 <= p99; p95
    and p99 are total times of sessions of the run, and p50 lies between
    two of them. *)
Theorem percentiles_ordered (results : list stats) (N : Z) (d : Qc)
        (sm : summary) (p50 p95 p99 : Qc) :
  print_summary results N d = Ok sm ->
  sum_p50 sm = Some p50 -> sum_p95 sm = Some p95 -> sum_p99 sm = Some p99 ->
  (p50 <= p95)%Qc /\ (p95 <= p99)%Qc
  /\ In p95 (map total_time results) /\ In p99 (map total_time results)
  /\ exists lo hi, In lo (map total_time results)
                   /\ In hi (map total_time results)
                   /\ (lo <= p50)%Qc /\ (p50 <= hi)%Qc.
Proof.
  intros Hsm H50 H95 H99.
  destruct (print_summary_fields _ _ _ _ Hsm) as (_ & _ & Hlat & _).
  rewrite H50, H95, H99 in Hlat.
  set (times := map total_time results) in *.
  destruct (latency_lines_spec times)
    as [[_ H]|(m & Hm & [[_ H]|(q95 & q99 & Hlen & Hq95 & Hq99 & H)])];
    rewrite H in Hlat; try discriminate Hlat.
  injection Hlat as -> -> ->.
  destruct (py_median_between times p50 Hm) as (a & b & Ha & Hb & Hlo & Hhi).
  pose proof (py_sorted_sorted times) as Hs.
  assert (Hb95 : (b <= p95)%Qc).
  { apply (strongly_sorted_lookup Qcle _ Hs _ _ _ _ (half_le_scaled (length times) 95
                                            ltac:(lia)) Hb Hq95). }
  assert (H9599 : (p95 <= p99)%Qc).
  { refine (strongly_sorted_lookup Qcle _ Hs _ _ _ _ _ Hq95 Hq99).
    apply Z2Nat.inj_le; try (apply Z.div_pos; lia).
    apply Z.div_le_mono; lia. }
  split; [by apply Qcle_trans with b|]. split; [exact H9599|].
  split; [by apply py_sorted_elem in Hq95|].
  split; [by apply py_sorted_elem in Hq99|].
  exists a, b. split; [by apply py_sorted_elem in Ha|].
  split; [by apply py_sorted_elem in Hb|]. auto.
Qed.

Lemma percentiles_ordered_witness :
  exists sm, print_summary demo_results 5 (Zc 2) = Ok sm
             /\ (Zc 3 <= Zc 5)%Qc.
Proof.
  destruct (print_summary_ok demo_results 5 (Zc 2)) as [sm Hsm];
    [discriminate | discriminate |].
  exists sm. split; [exact Hsm|].
  apply (percentiles_ordered demo_results 5 (Zc 2) sm (Zc 3) (Zc 5) (Zc 5) Hsm);
    vm_compute in Hsm; injection Hsm as <-; reflexivity.
Defined.




(** ** The error table *)

Lemma assoc_bump (e e' : string) (c : list (string * nat)) :
  assoc e (bump e' c)
  = if String.eqb e e' then Some (S (default 0%nat (assoc e c)))
    else assoc e c.
Proof.
  induction c as [|[k n] c IH]; simpl.
  - by destruct (String.eqb e e').
  - destruct (String.eqb e' k) eqn:E1; simpl.
    + apply String.eqb_eq in E1. subst k.
      by destruct (String.eqb e e').
    + destruct (String.eqb e k) eqn:E2; [|exact IH].
      apply String.eqb_eq in E2. subst k.
      by rewrite String.eqb_sym, E1.
Qed.

Lemma bump_keys (e : string) (c : list (string * nat)) :
  map fst (bump e c)
  = if decide (e ∈ map fst c) then map fst c else (map fst c ++ [e])%list.
Proof.
  induction c as [|[k n] c IH].
  - destruct (decide (e ∈ map fst [])) as [Hin|_]; [|reflexivity].
    by apply elem_of_nil in Hin.
  - cbn [bump map fst]. destruct (String.eqb e k) eqn:E1.
    + apply String.eqb_eq in E1. subst k.
      destruct (decide (e ∈ e :: map fst c)) as [_|Hn]; [reflexivity|].
      exfalso. apply Hn, elem_of_cons. by left.
    + apply String.eqb_neq in E1. cbn [map fst]. rewrite IH.
      destruct (decide (e ∈ map fst c)) as [Hin|Hin];
        destruct (decide (e ∈ k :: map fst c)) as [Hin'|Hin'];
        try reflexivity.
      * exfalso. apply Hin', elem_of_cons. by right.
      * apply elem_of_cons in Hin' as [?|?]; contradiction.
Qed.

Lemma bump_nodup (e : string) (c : list (string * nat)) :
  NoDup (map fst c) -> NoDup (map fst (bump e c)).
Proof.
  intros H. rewrite bump_keys. destruct (decide (e ∈ map fst c)); [exact H|].
  apply NoDup_app. split; [exact H|]. split.
  - intros x Hx [->|[]%elem_of_nil]%elem_of_cons. contradiction.
  - apply NoDup_singleton.
Qed.

Lemma assoc_elem (c : list (string * nat)) (e : string) (n : nat) :
  NoDup (map fst c) -> (e, n) ∈ c <-> assoc e c = Some n.
Proof.
  induction c as [|[k m] c IH]; simpl; intros Hnd.
  - split; [intros []%elem_of_nil | discriminate].
  - apply NoDup_cons in Hnd as [Hk Hnd]. rewrite elem_of_cons.
    destruct (String.eqb e k) eqn:E1.
    + apply String.eqb_eq in E1. subst k. split.
      * intros [[= ->]|Hin]; [reflexivity|].
        exfalso. apply Hk. apply list_elem_of_fmap. by exists (e, n).
      * intros [= ->]. by left.
    + apply String.eqb_neq in E1. rewrite <- (IH Hnd). split.
      * intros [[= -> ->]|Hin]; [contradiction | exact Hin].
      * by right.
Qed.

(** The table [error_counts] after the loop over the failures. *)
Lemma error_counts_spec (failures : list stats) :
  forall acc : list (string * nat),
  let counts :=
    fold_left (fun counts r => bump (error_text r) counts) failures acc in
  NoDup (map fst acc) ->
  (forall e n, assoc e acc = Some n -> (0 < n)%nat) ->
  NoDup (map fst counts)
  /\ (forall e n, assoc e counts = Some n -> (0 < n)%nat)
  /\ forall e, default 0%nat (assoc e counts)
               = (default 0%nat (assoc e acc) + occurrences e failures)%nat.
Proof.
  induction failures as [|r rs IH]; intros acc counts Hnd Hpos.
  - subst counts. simpl. split; [exact Hnd|]. split; [exact Hpos|].
    intros e. unfold occurrences. simpl. lia.
  - subst counts. simpl.
    destruct (IH (bump (error_text r) acc)) as (H1 & H2 & H3).
    { by apply bump_nodup. }
    { intros e n. rewrite assoc_bump.
      destruct (String.eqb e (error_text r)); [intros [= <-]; lia | apply Hpos]. }
    split; [exact H1|]. split; [exact H2|].
    intros e. rewrite H3, assoc_bump. unfold occurrences.
    rewrite filter_cons.
    destruct (String.eqb e (error_text r)) eqn:E1.
    + apply String.eqb_eq in E1. rewrite decide_True by done. simpl. lia.
    + apply String.eqb_neq in E1. rewrite decide_False by done. lia.
Qed.

Lemma insert_by_count_perm (x : string * nat) (l : list (string * nat)) :
  insert_by_count x l ≡ₚ x :: l.
Proof.
  induction l as [|y l IH]; simpl; [reflexivity|].
  destruct (snd y <=? snd x)%nat; [reflexivity|].
  rewrite IH. apply Permutation_swap.
Qed.

Lemma sort_by_count_perm (l : list (string * nat)) : sort_by_count l ≡ₚ l.
Proof.
  induction l as [|x l IH]; simpl; [reflexivity|].
  unfold sort_by_count in *. simpl. by rewrite insert_by_count_perm, IH.
Qed.

Lemma insert_by_count_sorted (x : string * nat) (l : list (string * nat)) :
  StronglySorted by_count l -> StronglySorted by_count (insert_by_count x l).
Proof.
  induction 1 as [|y l Hs IH Hall]; simpl.
  - repeat constructor.
  - destruct (snd y <=? snd x)%nat eqn:E.
    + apply Nat.leb_le in E. constructor; [by constructor|].
      constructor; [exact E|].
      eapply Forall_impl; [exact Hall|]. unfold by_count. simpl. lia.
    + apply Nat.leb_gt in E. constructor; [exact IH|].
      rewrite (insert_by_count_perm x l). constructor; [|exact Hall].
      unfold by_count. lia.
Qed.

Lemma sort_by_count_sorted (l : list (string * nat)) :
  StronglySorted by_count (sort_by_count l).
Proof.
  induction l as [|x l IH]; [constructor|].
  unfold sort_by_count in *. simpl. by apply insert_by_count_sorted.
Qed.

(** X11: the error table of the summary. It has at most five rows, one per
    distinct error text (a failure without an error counts under Unknown
    error); a row's count is the number of failed sessions with that text and
    is positive; rows are in order of descending count; and an error text
    left out of the table occurs no more often than any text listed, the
    table then being full. *)
Theorem top_errors_table (failures : list stats) :
  let top := top_errors failures in
  (length top <= 5)%nat
  /\ NoDup (map fst top)
  /\ (forall e n, (e, n) ∈ top -> n = occurrences e failures /\ (0 < n)%nat)
  /\ (forall i j x y, (i <= j)%nat -> top !! i = Some x -> top !! j = Some y ->
        (snd y <= snd x)%nat)
  /\ (forall r, r ∈ failures -> error_text r ∉ map fst top ->
        length top = 5%nat
        /\ forall x, x ∈ top -> (occurrences (error_text r) failures <= snd x)%nat).
Proof.
  intros top. subst top. unfold top_errors.
  change (fun counts r => bump (default "Unknown error" (error r)) counts)
    with (fun counts r => bump (error_text r) counts).
  set (counts := fold_left (fun counts r => bump (error_text r) counts)
                           failures []).
  destruct (error_counts_spec failures []) as (Hnd & Hpos & Hocc);
    [constructor | discriminate |].
  fold counts in Hnd, Hpos, Hocc. simpl in Hocc.
  set (sorted := sort_by_count counts).
  assert (Hperm : sorted ≡ₚ counts) by apply sort_by_count_perm.
  assert (Hs : StronglySorted by_count sorted) by apply sort_by_count_sorted.
  assert (Hnds : NoDup (map fst sorted)) by (by rewrite Hperm).
  assert (Hrow : forall e n, (e, n) ∈ sorted ->
                   n = occurrences e failures /\ (0 < n)%nat).
  { intros e n Hin. rewrite Hperm in Hin. apply (assoc_elem _ _ _ Hnd) in Hin.
    split; [|by apply (Hpos e)]. rewrite <- Hocc, Hin. reflexivity. }
  split; [rewrite length_take; lia|]. split.
  { rewrite <- (take_drop 5 sorted), map_app in Hnds.
    by apply NoDup_app in Hnds as [? _]. }
  split.
  { intros e n Hin. apply Hrow. by apply elem_of_take in Hin as (i & Hin & _)
      ; apply list_elem_of_lookup_2 in Hin. }
  split.
  { intros i j x y Hij Hi Hj.
    apply lookup_take_Some in Hi as [Hi _]. apply lookup_take_Some in Hj as [Hj _].
    apply (strongly_sorted_lookup by_count sorted Hs i j x y Hij Hi Hj). }
  intros r Hr Hout.
  assert (Hn : (0 < occurrences (error_text r) failures)%nat).
  { unfold occurrences.
    assert (Hin : r ∈ filter (fun r0 => error_text r0 = error_text r) failures)
      by (by apply list_elem_of_filter).
    destruct (filter _ failures); [by apply elem_of_nil in Hin | simpl; lia]. }
  assert (Hin : (error_text r, occurrences (error_text r) failures) ∈ sorted).
  { rewrite Hperm. apply (assoc_elem _ _ _ Hnd).
    specialize (Hocc (error_text r)).
    destruct (assoc (error_text r) counts) as [n|]; simpl in Hocc;
      [by rewrite Hocc | lia]. }
  apply list_elem_of_lookup_1 in Hin as [j Hj].
  assert (Hj5 : (5 <= j)%nat).
  { destruct (decide (j < 5)%nat) as [Hlt|]; [|lia].
    exfalso. apply Hout. apply list_elem_of_fmap.
    exists (error_text r, occurrences (error_text r) failures).
    split; [reflexivity|].
    apply list_elem_of_lookup_2 with j. by apply lookup_take_Some. }
  pose proof (lookup_lt_Some _ _ _ Hj) as Hlen.
  split; [rewrite length_take; lia|].
  intros x Hx. apply list_elem_of_lookup_1 in Hx as [i Hi].
  apply lookup_take_Some in Hi as [Hi Hi5].
  apply (strongly_sorted_lookup by_count sorted Hs i j x _ ltac:(lia) Hi Hj).
Qed.

(** ** Averages *)








(** ** The payloads a simulator builds *)

Section PayloadShape.

Variable sha256_hex : string -> string.
Variable json_dumps_sorted : pyval -> string.


Lemma nth_in_range {A : Type} (l : list A) (d : A) (z : Z) :
  l <> [] -> In (nth (Z.to_nat (z mod Z.of_nat (length l))) l d) l.
Proof.
  intros Hne. apply nth_In.
  assert (0 <= z mod Z.of_nat (length l) < Z.of_nat (length l)).
  { apply Z.mod_pos_bound. destruct l; [contradiction | simpl; lia]. }
  lia.
Qed.


End PayloadShape.

(** ** The gate: progress and release *)

Lemma count_where_pos (f : phase -> bool) (l : list phase) :
  (0 < count_where f l)%nat -> exists i p, l !! i = Some p /\ f p = true.
Proof.
  induction l as [|q l IH]; [unfold count_where; simpl; lia|].
  rewrite count_where_cons. destruct (f q) eqn:E.
  - intros _. by exists 0%nat, q.
  - intros H. destruct IH as (i & p & Hi & Hp); [simpl in H; lia|].
    by exists (S i), p.
Qed.

Lemma count_where_finished (l : list phase) :
  Forall (fun p => p = Finished) l -> count_where holds_permit l = 0%nat.
Proof.
  induction 1 as [|p l -> _ IH]; [reflexivity|].
  rewrite count_where_cons, IH. reflexivity.
Qed.

Lemma holder_can_move (s : gate) (i : nat) (p : phase) :
  phases s !! i = Some p -> holds_permit p = true -> exists s', gate_step s s'.
Proof.
  intros Hi Hp. destruct p; try discriminate Hp.
  - eexists. by apply (step_send s i).
  - eexists. by apply (step_answer s i).
  - eexists. by apply (step_resume s i).
Qed.

(** X14: with at least one permit the gate never deadlocks and never leaks
    a permit: in every reachable state some session can move exactly when a
    session is unfinished, and once all sessions have finished all the
    permits are free again. *)
Theorem gate_progress (C N : nat) (s : gate) :
  reachable C N s -> (0 < C)%nat ->
  ((exists s', gate_step s s') <-> ~ all_finished s)
  /\ (all_finished s -> permits s = C).
Proof.
  intros Hreach HC. destruct (gate_inv_reachable C N s Hreach) as [Hsum Hlen].
  split; [split|].
  - intros [s' Hstep] Hall. unfold all_finished in Hall.
    rewrite Forall_lookup in Hall.
    destruct Hstep as [s i Hi|s i free Hi Hfree|s i Hi|s i Hi|s i Hi|s i Hi|s i Hi];
      specialize (Hall i _ Hi); discriminate Hall.
  - intros Hnot. unfold all_finished in Hnot.
    apply not_Forall_Exists in Hnot; [|intros p; apply _].
    apply Exists_exists in Hnot as (p & Hin & Hp).
    apply list_elem_of_lookup_1 in Hin as [i Hi].
    destruct p; try (by destruct Hp).
    + eexists. by apply (step_wake s i).
    + destruct (permits s) as [|free] eqn:Hfree.
      * destruct (count_where_pos holds_permit (phases s)) as (j & q & Hj & Hq);
          [lia|].
        by apply (holder_can_move s j q).
      * eexists. by apply (step_acquire s i free).
    + by apply (holder_can_move s i Idle).
    + by apply (holder_can_move s i InFlight).
    + by apply (holder_can_move s i Backoff).
  - intros Hall. rewrite (count_where_finished _ Hall) in Hsum. lia.
Qed.

Lemma gate_progress_witness : exists s', gate_step demo_gate s'.
Proof.
  destruct (gate_progress 2 3 demo_gate demo_gate_reachable ltac:(lia))
    as [[_ H] _].
  apply H. intros Hall. unfold all_finished in Hall.
  apply (Forall_lookup_1 _ _ 0%nat InFlight) in Hall;
    [discriminate Hall | reflexivity].
Defined.

(** ** run_test: the staggered start *)

Lemma count_after (h : nat) (n : nat) :
  length (filter (fun i => (h < i)%nat) (seq 0 n)) = (n - S h)%nat.
Proof.
  induction n as [|n IH]; [reflexivity|].
  rewrite seq_S, filter_app, length_app, IH. cbn [Nat.add].
  rewrite filter_cons, filter_nil.
  destruct (decide (h < n)%nat); simpl; lia.
Qed.

Lemma launch_delay_positive (N i : nat) :
  sleeps_first (launch_delay true (Z.of_nat N) (Z.of_nat i)) <-> (N / 2 < i)%nat.
Proof.
  unfold sleeps_first, launch_delay. cbn [andb].
  change 2 with (Z.of_nat 2). rewrite <- Nat2Z.inj_div.
  destruct (Z.of_nat (N / 2) <? Z.of_nat i)%Z eqn:E.
  - apply Z.ltb_lt in E. split; [lia|]. intros _. reflexivity.
  - apply Z.ltb_ge in E. split; [|lia]. intros H. by apply Qclt_not_eq in H.
Qed.

Lemma launch_delay_nat (N i : nat) :
  launch_delay true (Z.of_nat N) (Z.of_nat i)
  = if (N / 2 <? i)%nat then Zc 5 else 0%Qc.
Proof.
  unfold launch_delay. cbn [andb].
  change 2 with (Z.of_nat 2). rewrite <- Nat2Z.inj_div.
  destruct (N / 2 <? i)%nat eqn:E.
  - apply Nat.ltb_lt in E. by rewrite (proj2 (Z.ltb_lt _ _)) by lia.
  - apply Nat.ltb_ge in E. by rewrite (proj2 (Z.ltb_ge _ _)) by lia.
Qed.

(** X15: with the epoch-boundary mode on, the sessions that sleep 5 seconds
    before they start are those launched at an index above half the miner
    count, rounded down: N - N/2 - 1 sessions, always fewer than half of
    them, and none of one or two; without the mode no session is delayed. *)
Theorem staggered_start (N : nat) :
  let delays := launch_delays true N in
  length delays = N
  /\ (forall i, (i < N)%nat ->
        delays !! i = Some (if (N / 2 <? i)%nat then Zc 5 else 0%Qc))
  /\ length (filter sleeps_first delays) = (N - N / 2 - 1)%nat
  /\ (0 < N -> 2 * length (filter sleeps_first delays) < N)%nat
  /\ filter sleeps_first (launch_delays false N) = [].
Proof.
  intros delays. subst delays. unfold launch_delays.
  assert (Hcount : length (filter sleeps_first
                     (map (fun i => launch_delay true (Z.of_nat N) (Z.of_nat i))
                          (seq 0 N))) = (N - N / 2 - 1)%nat).
  { rewrite <- Nat.sub_add_distr, Nat.add_1_r, <- (count_after (N / 2) N).
    generalize (seq 0 N). intros l. induction l as [|i l IH]; [reflexivity|].
    cbn [map]. rewrite !filter_cons.
    destruct (decide (sleeps_first (launch_delay true (Z.of_nat N) (Z.of_nat i))))
      as [H|H]; destruct (decide (N / 2 < i)%nat) as [H'|H'];
      try (simpl; by rewrite IH).
    - by apply launch_delay_positive in H.
    - by apply launch_delay_positive in H'. }
  split; [by rewrite length_map, length_seq|]. split.
  { intros i Hi. rewrite list_lookup_fmap, lookup_seq_lt by done.
    cbn [fmap option_fmap option_map Nat.add]. by rewrite launch_delay_nat. }
  split; [exact Hcount|]. split.
  { intros HN. rewrite Hcount. pose proof (Nat.div_mod_eq N 2).
    pose proof (Nat.mod_upper_bound N 2). lia. }
  generalize (seq 0 N). intros l. induction l as [|i l IH]; [reflexivity|].
  cbn [map]. rewrite filter_cons, IH.
  destruct (decide (sleeps_first (launch_delay false (Z.of_nat N) (Z.of_nat i))))
    as [H|_]; [|reflexivity].
  unfold sleeps_first, launch_delay in H. simpl in H. by apply Qclt_not_eq in H.
Qed.

(** ** run_test without forced duplicates *)


Section RunOutcomes.

Variable sha256_hex : string -> string.
Variable json_dumps_sorted : pyval -> string.
Variable py_str : pyval -> string.
Variable node_url : string.


End RunOutcomes.


(** ** The order of a session's requests *)

Lemma step_requests (name url : string) (payload : pyval) (s : sess) :
  exists v s' evs,
    _perform_step_with_retry name url payload s = (Ok v, s')
    /\ trace (wld s') = (trace (wld s) ++ evs)%list
    /\ requests_to url 1 evs
    /\ retries (st s') = retries (st s) + Z.of_nat (length (sleeps evs)).
Proof.
  destruct (retry_loop_bounds name url payload max_retries base_backoff s)
    as (v & s' & evs & Hrun & E & O & Hle & Hpos & _).
  exists v, s', evs. split; [exact Hrun|].
  split; [apply (eff_trace _ _ _ _ E)|]. split; [split|].
  - by apply only_posts_urls in O.
  - unfold max_retries in *. split; [apply Hpos; lia | exact Hle].
  - apply (eff_retries _ _ _ _ E).
Qed.

Lemma requests_to_nil (url : string) : requests_to url 0 [].
Proof. split; [constructor | simpl; lia]. Qed.

Lemma requests_to_weaken (url : string) (evs : list event) :
  requests_to url 1 evs -> requests_to url 0 evs.
Proof. intros [H1 H2]. split; [exact H1 | lia]. Qed.

Section ProtocolOrder.

Variable sha256_hex : string -> string.
Variable json_dumps_sorted : pyval -> string.
Variable py_str : pyval -> string.
Variable node_url : string.

Lemma session_try_requests (sim : MinerSimulator) (malformed : bool)
      (s0 : sess) (r : pyres unit) (s : sess) :
  session_try sha256_hex json_dumps_sorted py_str node_url sim malformed s0
  = (r, s) ->
  exists e1 e2 e3,
    trace (wld s) = (trace (wld s0) ++ e1 ++ e2 ++ e3)%list
    /\ requests_to (url_challenge node_url) 1 e1
    /\ requests_to (url_submit node_url) 0 e2
    /\ requests_to (url_enroll node_url) 0 e3
    /\ (malformed = true -> e3 = [])
    /\ (e2 = [] -> e3 = [])
    /\ retries (st s)
       = retries (st s0) + Z.of_nat (length (sleeps (e1 ++ e2 ++ e3))).
Proof.
  unfold session_try.
  destruct (step_requests "challenge" (url_challenge node_url) (PDict []) s0)
    as (v1 & s1 & e1 & R1 & T1 & Q1 & C1).
  rewrite (bind_ok _ _ _ _ _ R1). unfold after_challenge.
  assert (Hstop1 : forall s',
            wld s' = wld s1 -> retries (st s') = retries (st s1) ->
            exists e1 e2 e3,
              trace (wld s') = (trace (wld s0) ++ e1 ++ e2 ++ e3)%list
              /\ requests_to (url_challenge node_url) 1 e1
              /\ requests_to (url_submit node_url) 0 e2
              /\ requests_to (url_enroll node_url) 0 e3
              /\ (malformed = true -> e3 = [])
              /\ (e2 = [] -> e3 = [])
              /\ retries (st s')
                 = retries (st s0)
                   + Z.of_nat (length (sleeps (e1 ++ e2 ++ e3)))).
  { intros s' -> ->. exists e1, [], []. rewrite !app_nil_r.
    split; [exact T1|]. split; [exact Q1|].
    split; [apply requests_to_nil|]. split; [apply requests_to_nil|]. auto. }
  destruct (truthy v1); cbn [negb];
    [|unfold ret; intros [= <- <-]; by apply Hstop1].
  rewrite bind_lift.
  destruct (py_get v1 "nonce") as [nonce|e];
    [|intros [= <- <-]; by apply Hstop1].
  destruct (build_payload sha256_hex json_dumps_sorted sim malformed nonce s1)
    as [[payload|e] s2] eqn:B;
    destruct (build_payload_world _ _ _ _ _ _ _ _ B) as [Hw2 Hst2];
    [|rewrite (bind_raise _ _ _ _ _ B); intros [= <- <-];
      apply Hstop1; [exact Hw2 | by rewrite Hst2]].
  rewrite (bind_ok _ _ _ _ _ B).
  destruct (step_requests "submit" (url_submit node_url) payload s2)
    as (v3 & s3 & e2 & R3 & T3 & Q3 & C3).
  rewrite (bind_ok _ _ _ _ _ R3).
  assert (He2 : e2 <> []).
  { intros ->. destruct Q3 as [_ [H _]]. simpl in H. lia. }
  assert (Hstop3 : forall s',
            wld s' = wld s3 -> retries (st s') = retries (st s3) ->
            exists e1 e2 e3,
              trace (wld s') = (trace (wld s0) ++ e1 ++ e2 ++ e3)%list
              /\ requests_to (url_challenge node_url) 1 e1
              /\ requests_to (url_submit node_url) 0 e2
              /\ requests_to (url_enroll node_url) 0 e3
              /\ (malformed = true -> e3 = [])
              /\ (e2 = [] -> e3 = [])
              /\ retries (st s')
                 = retries (st s0)
                   + Z.of_nat (length (sleeps (e1 ++ e2 ++ e3)))).
  { intros s' -> ->. exists e1, e2, []. rewrite !app_nil_r.
    split; [by rewrite T3, Hw2, T1, app_assoc|]. split; [exact Q1|].
    split; [by apply requests_to_weaken|]. split; [apply requests_to_nil|].
    split; [auto|]. split; [auto|].
    rewrite C3, Hst2, C1, sleeps_app, length_app. lia. }
  clear Hstop1. unfold after_submit. destruct malformed.
  - unfold and_not_get.
    destruct (truthy v3);
      [|unfold bind, ret; intros [= <- <-]; by apply Hstop3].
    unfold bind at 1. rewrite bind_lift.
    destruct (py_get v3 "ok") as [ok|e]; [|intros [= <- <-]; by apply Hstop3].
    unfold ret. destruct (negb (truthy ok));
      [|intros [= <- <-]; by apply Hstop3].
    unfold bind, modify_stats. intros [= <- <-]. by apply Hstop3.
  - unfold not_or_not_get.
    destruct (truthy v3) eqn:T3'; cbn [negb];
      [|unfold bind, ret; intros [= <- <-]; by apply Hstop3].
    unfold bind at 1. rewrite bind_lift.
    destruct (py_get v3 "ok") as [ok|e]; [|intros [= <- <-]; by apply Hstop3].
    unfold ret. destruct (negb (truthy ok)).
    { unfold modify_stats. intros [= <- <-]. by apply Hstop3. }
    destruct (step_requests "enroll" (url_enroll node_url)
                (build_enroll_payload sim) s3)
      as (v5 & s5 & e3 & R5 & T5 & Q5 & C5).
    rewrite (bind_ok _ _ _ _ _ R5).
    assert (Hstop5 : forall s',
              wld s' = wld s5 -> retries (st s') = retries (st s5) ->
              exists e1 e2 e3,
                trace (wld s') = (trace (wld s0) ++ e1 ++ e2 ++ e3)%list
                /\ requests_to (url_challenge node_url) 1 e1
                /\ requests_to (url_submit node_url) 0 e2
                /\ requests_to (url_enroll node_url) 0 e3
                /\ (false = true -> e3 = [])
                /\ (e2 = [] -> e3 = [])
                /\ retries (st s')
                   = retries (st s0)
                     + Z.of_nat (length (sleeps (e1 ++ e2 ++ e3)))).
    { intros s' -> ->. exists e1, e2, e3.
      split; [by rewrite T5, T3, Hw2, T1, <- !app_assoc|]. split; [exact Q1|].
      split; [by apply requests_to_weaken|].
      split; [by apply requests_to_weaken|].
      split; [discriminate|]. split; [contradiction|].
      rewrite C5, C3, Hst2, C1, !sleeps_app, !length_app. lia. }
    unfold after_enroll, and_get.
    destruct (truthy v5) eqn:T5';
      [|unfold bind, ret; intros [= <- <-]; by apply Hstop5].
    unfold bind at 1. rewrite bind_lift.
    destruct (py_get v5 "ok") as [ok5|e]; [|intros [= <- <-]; by apply Hstop5].
    unfold ret. destruct (truthy ok5); unfold modify_stats;
      intros [= <- <-]; by apply Hstop5.
Qed.

(** X17: the requests of a session follow the protocol order, whatever
    the node answers: first one to five requests to the challenge endpoint,
    then at most five to the submit endpoint, then at most five to the
    enroll endpoint; no enroll request without a submit request before it,
    none at all in malformed mode; so a session sends at most fifteen
    requests, a malformed one at most ten. The retry counter of the record
    is the number of back-off sleeps of the whole session. *)
Theorem session_protocol_order (sim : MinerSimulator) (fid : option string)
        (malformed : bool) (gate_wait : Qc) (g : rng) (w : world) :
  let '(outcome, _, _, w') :=
    run_miner_session sha256_hex json_dumps_sorted py_str node_url
                      sim fid malformed gate_wait g w in
  exists e1 e2 e3,
    trace w' = (trace w ++ e1 ++ e2 ++ e3)%list
    /\ requests_to (url_challenge node_url) 1 e1
    /\ requests_to (url_submit node_url) 0 e2
    /\ requests_to (url_enroll node_url) 0 e3
    /\ (malformed = true -> e3 = [])
    /\ (e2 = [] -> e3 = [])
    /\ (length (posted_urls (e1 ++ e2 ++ e3))
        <= if malformed then 10 else 15)%nat
    /\ retries outcome = Z.of_nat (length (sleeps (e1 ++ e2 ++ e3))).
Proof.
  rewrite run_session_eq.
  destruct (session_try _ _ _ _ _ _ _) as [r s] eqn:Hrun.
  destruct (session_try_requests _ _ _ _ _ Hrun)
    as (e1 & e2 & e3 & HT & Q1 & Q2 & Q3 & Hm & He & Hret).
  cbv zeta. cbv iota beta.
  assert (Hw : wld (after_try r s) = wld s) by (by destruct r).
  assert (Hr : retries (st (after_try r s)) = retries (st s)) by (by destruct r).
  rewrite Hw. exists e1, e2, e3.
  split; [exact HT|]. split; [exact Q1|]. split; [exact Q2|].
  split; [exact Q3|]. split; [exact Hm|]. split; [exact He|]. split.
  - rewrite !posted_urls_app, !length_app.
    destruct Q1 as [_ H1], Q2 as [_ H2], Q3 as [_ H3].
    destruct malformed; [rewrite (Hm eq_refl); simpl|]; lia.
  - cbn [retries set_total_time]. rewrite Hr, Hret. simpl. lia.
Qed.

End ProtocolOrder.

(** ** MinerSimulator.__init__ *)

Lemma length_substring (n : nat) (s : string) :
  String.length (substring 0 n s) = Nat.min n (String.length s).
Proof.
  revert s. induction n as [|n IH]; intros s.
  - by destruct s.
  - destruct s as [|c s]; [reflexivity|]. simpl. by rewrite IH.
Qed.

Lemma length_str_upper (s : string) :
  String.length (str_upper s) = String.length s.
Proof. induction s as [|c s IH]; simpl; auto. Qed.

Lemma length_draw_list {A : Type} (f : rng -> A * rng) (n : nat) (g : rng) :
  length (fst (draw_list f n g)) = n.
Proof.
  revert g. induction n as [|n IH]; intros g; [reflexivity|].
  simpl. destruct (f g) as [x g1]. specialize (IH g1).
  destruct (draw_list f n g1) as [xs g2]. simpl in *. by rewrite IH.
Qed.

Lemma length_uuid4_hex (g : rng) : String.length (fst (uuid4_hex g)) = 32%nat.
Proof. unfold uuid4_hex. cbv zeta. cbn [fst]. apply length_hex_digits. Qed.

Lemma length_mac (bytes : list Z) :
  length bytes = 6%nat ->
  String.length (str_join ":" (map (hex_digits 2) bytes)) = 17%nat.
Proof.
  intros H. do 7 (destruct bytes as [|? bytes]; try discriminate H).
  cbn [map str_join]. rewrite !length_append, !length_hex_digits. reflexivity.
Qed.

Lemma arch_key_known (k : string) :
  In k (map fst ARCH_PROFILES) -> is_Some (assoc k ARCH_PROFILES).
Proof.
  simpl. intros [<-|[<-|[<-|[<-|[]]]]]; eexists; reflexivity.
Qed.

Lemma assoc_In {A : Type} (k : string) (l : list (string * A)) (v : A) :
  assoc k l = Some v -> In k (map fst l).
Proof.
  induction l as [|[k' v'] l IH]; simpl; [discriminate|].
  destruct (String.eqb k k') eqn:E; [|by right; apply IH].
  apply String.eqb_eq in E. by left.
Qed.

Section InitOk.

Variable sha256_hex : string -> string.
Variable float_str : Qc -> string.

(** X18: what MinerSimulator.__init__ builds. The constructor fails only
    for a given architecture that is not a key of ARCH_PROFILES, with
    KeyError; otherwise the simulator's profile is the entry of its
    architecture (the precondition of the payload invariants), a given
    identifier is kept and a default one is sim-, the architecture, a dash and
    eight hex digits; the host name is host- followed by the identifier,
    the wallet is a 38-character prefix of a digest followed by RTC, the
    serial has 15 characters and the MAC address 17. *)
Theorem simulator_init_ok (miner_id_arg arch : option string) (time_now : Qc)
        (g : rng) :
  match fst (MinerSimulator_init sha256_hex float_str miner_id_arg arch
                                 time_now g) with
  | Ok sim =>
      simulator_ok sim
      /\ In (arch_key sim) (map fst ARCH_PROFILES)
      /\ (forall a, given arch = Some a -> arch_key sim = a)
      /\ match given miner_id_arg with
         | Some m => miner_id sim = m
         | None => exists suffix,
             String.length suffix = 8%nat
             /\ miner_id sim = "sim-" ++ arch_key sim ++ "-" ++ suffix
         end
      /\ hostname sim = "host-" ++ miner_id sim
      /\ (exists raw, wallet sim = substring 0 38 (sha256_hex raw) ++ "RTC")
      /\ String.length (serial sim) = 15%nat
      /\ String.length (mac_address sim) = 17%nat
  | Raise e =>
      exists a, given arch = Some a /\ assoc a ARCH_PROFILES = None
                /\ e = KeyError a
  end.
Proof.
  unfold MinerSimulator_init.
  set (pick := random_choice "g4" (map fst ARCH_PROFILES) g).
  assert (Hpick : In (fst pick) (map fst ARCH_PROFILES)).
  { subst pick. unfold random_choice, randbelow. cbn [fst].
    apply (nth_in_range (map fst ARCH_PROFILES)). discriminate. }
  set (chosen := match arch with
                 | Some a => if negb (String.eqb a "") then (a, g) else pick
                 | None => pick
                 end).
  assert (Hchosen : (given arch = Some (fst chosen))
                    \/ (given arch = None
                        /\ In (fst chosen) (map fst ARCH_PROFILES))).
  { subst chosen. unfold given. destruct arch as [a|]; [|by right].
    destruct (String.eqb a ""); [by right | by left]. }
  destruct chosen as [key g1]. cbn [fst] in Hchosen.
  destruct (assoc key ARCH_PROFILES) as [prof|] eqn:Hassoc.
  - destruct (uuid4_hex g1) as [h1 g2] eqn:U1.
    unfold _generate_wallet.
    destruct (random_random g2) as [u g3].
    destruct (uuid4_hex g3) as [h2 g4] eqn:U2.
    pose proof (length_draw_list (random_randint 0 255) 6 g4) as Hbytes.
    destruct (draw_list (random_randint 0 255) 6 g4) as [bytes g5].
    cbn [fst] in *. cbn [arch_key sim_profile miner_id wallet serial hostname
                         mac_address].
    assert (Hh1 : String.length h1 = 32%nat).
    { pose proof (length_uuid4_hex g1) as H. by rewrite U1 in H. }
    assert (Hh2 : String.length h2 = 32%nat).
    { pose proof (length_uuid4_hex g3) as H. by rewrite U2 in H. }
    split; [exact Hassoc|]. split; [by apply assoc_In in Hassoc|].
    split.
    { intros a Ha. destruct Hchosen as [H|[H _]]; congruence. }
    split.
    { unfold given. destruct miner_id_arg as [m|].
      - destruct (String.eqb m ""); cbn [negb]; [|reflexivity].
        exists (substring 0 8 h1). by rewrite length_substring, Hh1.
      - exists (substring 0 8 h1). by rewrite length_substring, Hh1. }
    split; [reflexivity|]. split; [eexists; reflexivity|]. split.
    + rewrite length_append, length_str_upper, length_substring, Hh2.
      reflexivity.
    + by apply length_mac.
  - cbn [fst]. exists key. destruct Hchosen as [H|[_ H]].
    + by split.
    + apply arch_key_known in H as [p Hp]. congruence.
Qed.

End InitOk.

(** ** The alert manager of the dashboard *)

Section AlertLatch.

Variable py_str : pyval -> string.
Variable format_2f : pyval -> string.



End AlertLatch.

(** ** The node URL of a harness *)

Lemma rstrip_slash_app (u : string) :
  rstrip_slash (u ++ "/") = rstrip_slash u.
Proof.
  induction u as [|c u IH]; [reflexivity|].
  simpl. by rewrite IH.
Qed.

Lemma append_assoc (a b c : string) : (a ++ b) ++ c = a ++ (b ++ c).
Proof.
  induction a as [|x a IH]; [reflexivity|].
  change (String x ((a ++ b) ++ c) = String x (a ++ b ++ c)). by rewrite IH.
Qed.

Lemma append_empty_r (a : string) : a ++ "" = a.
Proof.
  induction a as [|x a IH]; [reflexivity|].
  change (String x (a ++ "") = String x a). by rewrite IH.
Qed.

Lemma rstrip_slash_slashes (k : nat) :
  forall u, rstrip_slash (u ++ slashes k) = rstrip_slash u.
Proof.
  induction k as [|k IH]; intros u.
  - cbn [slashes]. by rewrite append_empty_r.
  - cbn [slashes]. change (String "/" (slashes k)) with ("/" ++ slashes k).
    rewrite <- append_assoc, IH. apply rstrip_slash_app.
Qed.

Lemma rstrip_slash_end (u t : string) : rstrip_slash u <> t ++ "/".
Proof.
  revert t. induction u as [|c u IH]; intros t.
  - destruct t; discriminate.
  - cbn [rstrip_slash]. destruct (rstrip_slash u) as [|a r] eqn:E.
    + destruct (Ascii.eqb c "/") eqn:Ec.
      * destruct t; discriminate.
      * destruct t as [|x t]; simpl.
        -- intros [= ->]. discriminate Ec.
        -- intros [= _ H]. destruct t; discriminate H.
    + destruct t as [|x t]; simpl.
      * discriminate.
      * intros [= _ H]. by apply (IH t).
Qed.

Lemma rstrip_slash_split (u : string) :
  exists j, u = rstrip_slash u ++ slashes j.
Proof.
  induction u as [|c u [j IH]]; [by exists 0%nat|].
  cbn [rstrip_slash]. destruct (rstrip_slash u) as [|a r] eqn:E.
  - change (u = slashes j) in IH. destruct (Ascii.eqb c "/") eqn:Ec.
    + apply Ascii.eqb_eq in Ec. subst c. exists (S j).
      change ("" ++ slashes (S j)) with (String "/" (slashes j)).
      by rewrite <- IH.
    + exists j.
      change (String c "" ++ slashes j) with (String c (slashes j)).
      by rewrite <- IH.
  - exists j.
    change (String c (String a r) ++ slashes j)
      with (String c (String a r ++ slashes j)).
    by rewrite <- IH.
Qed.

(** X20: a harness strips every trailing slash from the node URL it is
    given: the URL it keeps is the given one without its run of final
    slashes and does not end in a slash, so any number of trailing slashes
    gives the same three endpoints, each the stripped URL followed by its
    path. *)
Theorem node_url_stripped (url : string) (k : nat) (concurrency : nat)
        (timeout : Z) :
  let h := StressHarness_init (url ++ slashes k) concurrency timeout in
  h_node_url h = h_node_url (StressHarness_init url concurrency timeout)
  /\ (exists j, url = h_node_url h ++ slashes j)
  /\ (forall t, h_node_url h <> t ++ "/")
  /\ endpoints h
     = [ rstrip_slash url ++ "/attest/challenge";
         rstrip_slash url ++ "/attest/submit";
         rstrip_slash url ++ "/epoch/enroll" ]
  /\ h_node_url (StressHarness_init (h_node_url h) concurrency timeout)
     = h_node_url h.
Proof.
  intros h. subst h. unfold StressHarness_init, endpoints. cbn [h_node_url].
  rewrite rstrip_slash_slashes.
  split; [reflexivity|]. split; [apply rstrip_slash_split|].
  split; [apply rstrip_slash_end|]. split; [reflexivity|].
  destruct (rstrip_slash_split url) as [j Hj].
  rewrite Hj at 2. by rewrite rstrip_slash_slashes.
Qed.

(** ** What a corruption leaves alone *)

Lemma dict_get_del (k k0 : string) (d r : pydict) :
  k <> k0 -> dict_del k0 d = Some r -> dict_get k r = dict_get k d.
Proof.
  intros Hk. revert r. induction d as [|[k' v'] d IH]; intros r; simpl.
  - discriminate.
  - destruct (String.eqb k0 k') eqn:E0.
    + apply String.eqb_eq in E0. subst k'. intros [= <-].
      by rewrite (proj2 (String.eqb_neq k k0) Hk).
    + destruct (dict_del k0 d) as [r'|]; [|discriminate].
      intros [= <-]. simpl. destruct (String.eqb k k'); [reflexivity|].
      by apply IH.
Qed.

Lemma dict_get_set_other (k k0 : string) (v : pyval) (d : pydict) :
  k <> k0 -> dict_get k (dict_set k0 v d) = dict_get k d.
Proof.
  intros Hk. induction d as [|[k' v'] d IH]; simpl.
  - by rewrite (proj2 (String.eqb_neq k k0) Hk).
  - destruct (String.eqb k0 k') eqn:E0; simpl.
    + apply String.eqb_eq in E0. subst k'.
      by rewrite (proj2 (String.eqb_neq k k0) Hk).
    + destruct (String.eqb k k'); [reflexivity | exact IH].
Qed.

Lemma dict_get_set_same (k : string) (v : pyval) (d : pydict) :
  dict_get k (dict_set k v d) = Some v.
Proof.
  induction d as [|[k' v'] d IH]; simpl.
  - by rewrite String.eqb_refl.
  - destruct (String.eqb k k') eqn:E0; simpl; rewrite E0; [reflexivity | exact IH].
Qed.

Lemma dict_set_in_frame (k1 k2 : string) (v : pyval) (d r : pydict)
      (ks : list string) :
  dict_set_in k1 k2 v d = Ok r ->
  ~ overlaps ks [k1; k2] ->
  get_path ks (PDict r) = get_path ks (PDict d).
Proof.
  unfold dict_set_in. intros Hset Hno.
  destruct (dict_get k1 d) as [[| | | | | |inner]|] eqn:Hget;
    try discriminate Hset.
  injection Hset as <-.
  destruct ks as [|k ks].
  { exfalso. apply Hno. left. apply prefix_nil. }
  cbn [get_path]. destruct (decide (k = k1)) as [->|Hk].
  - rewrite dict_get_set_same, Hget.
    destruct ks as [|k' ks].
    { exfalso. apply Hno. left. by exists [k2]. }
    cbn [get_path]. destruct (decide (k' = k2)) as [->|Hk'].
    { exfalso. apply Hno. right. by exists ks. }
    by rewrite dict_get_set_other.
  - by rewrite dict_get_set_other.
Qed.

(** X21: a corruption is local. When build_malformed_payload's
    corruption step returns a structured payload, every path that does not
    lead through the corrupted field reads the same value as in the
    well-formed payload it started from: missing_nonce touches only the
    top-level nonce (the nonce inside the report stays), bad_commitment only
    report.commitment, wrong_arch only device.arch; a name that is none of
    the four corruptions changes nothing. *)
Theorem corruption_is_local (choice : string) (payload r : pydict)
        (ks : list string) :
  corrupt choice payload = Ok (PDict r) ->
  (forall p, corruption_path choice = Some p -> ~ overlaps ks p) ->
  get_path ks (PDict r) = get_path ks (PDict payload).
Proof.
  unfold corrupt, corruption_path. intros Hc Hno.
  destruct (String.eqb choice "missing_nonce").
  { specialize (Hno _ eq_refl).
    destruct (dict_del "nonce" payload) as [p|] eqn:Hdel; [|discriminate Hc].
    injection Hc as <-. destruct ks as [|k ks].
    { exfalso. apply Hno. left. apply prefix_nil. }
    cbn [get_path]. rewrite (dict_get_del k "nonce" payload p); auto.
    intros ->. apply Hno. right. by exists ks. }
  destruct (String.eqb choice "bad_commitment").
  { specialize (Hno _ eq_refl).
    destruct (dict_set_in "report" "commitment" _ payload) as [p|e] eqn:Hset;
      [|discriminate Hc].
    injection Hc as <-. by apply (dict_set_in_frame _ _ _ _ _ _ Hset). }
  destruct (String.eqb choice "wrong_arch").
  { specialize (Hno _ eq_refl).
    destruct (dict_set_in "device" "arch" _ payload) as [p|e] eqn:Hset;
      [|discriminate Hc].
    injection Hc as <-. by apply (dict_set_in_frame _ _ _ _ _ _ Hset). }
  destruct (String.eqb choice "corrupt_json"); [discriminate Hc|].
  by injection Hc as <-.
Qed.

Lemma corruption_is_local_witness :
  get_path ["report"; "nonce"]
    (PDict [("report", PDict [("nonce", PStr "abc")])])
  = Some (PStr "abc").
Proof.
  rewrite (corruption_is_local "missing_nonce"
             [("nonce", PStr "abc"); ("report", PDict [("nonce", PStr "abc")])]
             [("report", PDict [("nonce", PStr "abc")])]
             ["report"; "nonce"]).
  - reflexivity.
  - reflexivity.
  - intros p [= <-] [[k Hk]|[k Hk]]; discriminate Hk.
Defined.
